(** * Soft-kill interception of drx.c (DynamoRIO eXtension utilities)

    A shallow embedding of the SOFT KILLS part of [ext/drx/drx.c]: the
    callback list, the pre- and post-syscall mediation of both platform
    variants, the job-handle table, the per-context patch record, lazy
    activation and teardown.  C functions that read and write the file's
    statics become functions of an explicit state, written in a small state
    monad so that each definition can be read next to its C source. *)

From Stdlib Require Import ZArith List Bool String Lia.
From stdpp Require Import base list.
Import ListNotations.
Local Open Scope Z_scope.

(** ** Machine values *)

Definition process_id_t : Type := Z.
Definition HANDLE : Type := Z.
Definition NTSTATUS : Type := Z.
(** The address of a callback of type [bool ( * )(process_id_t, int)]. *)
Definition fnptr : Type := Z.

(** [(int) x] for a register-sized [x]: the low 32 bits, read as signed. *)
Definition to_int (x : Z) : Z := (x + 2 ^ 31) mod 2 ^ 32 - 2 ^ 31.
(** [(ULONG) x]: the low 32 bits, read as unsigned. *)
Definition to_ULONG (x : Z) : Z := x mod 2 ^ 32.

(** [#define TESTANY(mask, var) (((mask) & (var)) != 0)], and [TEST] is
    [TESTANY]. *)
Definition TESTANY (mask var : Z) : bool := negb (Z.land mask var =? 0).
Definition TEST : Z -> Z -> bool := TESTANY.

(** [#define NT_SUCCESS(status) (((NTSTATUS)(status)) >= 0)] *)
Definition NT_SUCCESS (status : NTSTATUS) : bool := 0 <=? status.
(** [#define STATUS_BUFFER_OVERFLOW ((NTSTATUS)0x80000005L)] *)
Definition STATUS_BUFFER_OVERFLOW : NTSTATUS := to_int 0x80000005.

(** [sizeof(DWORD)], the size of [LimitFlags] and of [job_limit_flags_orig]. *)
Definition sizeof_DWORD : Z := 4.

(** [#define JOB_TABLE_HASH_BITS 6] *)
Definition JOB_TABLE_HASH_BITS : Z := 6.

(** [SYS_NUM_PARAMS_*] and [SYS_WOW64_IDX_*] *)
Definition SYS_NUM_PARAMS_TerminateProcess : Z := 2.
Definition SYS_NUM_PARAMS_TerminateJobObject : Z := 2.
Definition SYS_NUM_PARAMS_SetInformationJobObject : Z := 4.
Definition SYS_NUM_PARAMS_Close : Z := 1.
Definition SYS_WOW64_IDX_TerminateProcess : Z := 0.
Definition SYS_WOW64_IDX_TerminateJobObject : Z := 0.
Definition SYS_WOW64_IDX_SetInformationJobObject : Z := 7.
Definition SYS_WOW64_IDX_Close : Z := 0.

(** ** The handle table

    Modelled from the spec: the handle-table primitive of drhashtable.h
    ([hashtable_init], [hashtable_add], [hashtable_remove],
    [hashtable_delete], [HASHTABLE_SIZE]) is not part of drx.c.  The spec
    asks for a key/value store whose [add] fails only if the key is already
    present and whose [remove] returns whether the key was present.  The
    layout is the one the teardown sweep of drx.c walks: [table_bits], an
    array [table] of [HASHTABLE_SIZE(table_bits)] chains, each entry with a
    [key], a [payload] and a [next]; a pointer-sized key is hashed to its low
    [table_bits] bits, and a new entry goes to the head of its chain. *)

Record hashtable_entry_t : Type := { key : Z; payload : Z }.

Record hashtable_t : Type := {
  table_bits : Z;
  table : list (list hashtable_entry_t)
}.

Definition HASHTABLE_SIZE (num_bits : Z) : Z := Z.shiftl 1 num_bits.

Definition hash_key (t : hashtable_t) (k : Z) : nat :=
  Z.to_nat (Z.land k (HASHTABLE_SIZE (table_bits t) - 1)).

Definition chain_at (t : hashtable_t) (hindex : nat) : list hashtable_entry_t :=
  default [] (table t !! hindex).

Definition chain_has (k : Z) (chain : list hashtable_entry_t) : bool :=
  existsb (fun e => key e =? k) chain.

Fixpoint chain_remove (k : Z) (chain : list hashtable_entry_t)
  : bool * list hashtable_entry_t :=
  match chain with
  | [] => (false, [])
  | e :: next =>
      if key e =? k then (true, next)
      else let (res, next') := chain_remove k next in (res, e :: next')
  end.

Definition hashtable_init (num_bits : Z) : hashtable_t :=
  {| table_bits := num_bits;
     table := replicate (Z.to_nat (HASHTABLE_SIZE num_bits)) [] |}.

Definition hashtable_add (t : hashtable_t) (k p : Z) : bool * hashtable_t :=
  let hindex := hash_key t k in
  if chain_has k (chain_at t hindex) then (false, t)
  else (true, {| table_bits := table_bits t;
                 table := <[hindex := {| key := k; payload := p |} :: chain_at t hindex]>
                            (table t) |}).

Definition hashtable_remove (t : hashtable_t) (k : Z) : bool * hashtable_t :=
  let hindex := hash_key t k in
  let (res, chain) := chain_remove k (chain_at t hindex) in
  (res, {| table_bits := table_bits t; table := <[hindex := chain]> (table t) |}).

Definition hashtable_delete (t : hashtable_t) : hashtable_t :=
  {| table_bits := table_bits t; table := [] |}.

(** Whether [k] is in the table, as [hashtable_add] and [hashtable_remove]
    see it. *)
Definition tracked (t : hashtable_t) (k : Z) : bool :=
  chain_has k (chain_at t (hash_key t k)).

(** ** What the code does to its surroundings *)

Inductive event : Type :=
| EvCallback (cb : fnptr) (pid : process_id_t) (exit_code : Z) (skip : bool)
| EvNtTerminateProcess (ProcessHandle : HANDLE) (ExitStatus : Z)
| EvInterceptNatively (name : string) (sysnum num_args wow64_index : Z)
| EvRegisterClsField
| EvUnregisterClsField (idx : Z)
| EvRegisterPreSyscall
| EvRegisterPostSyscall
| EvRegisterFilterSyscall
| EvDrmgrExit.

(** [JOBOBJECT_BASIC_PROCESS_ID_LIST] as the kernel fills it in:
    [ProcessIdList] holds the process ids that the kernel wrote. *)
Record JOBOBJECT_BASIC_PROCESS_ID_LIST : Type := {
  NumberOfAssignedProcesses : Z;
  NumberOfProcessIdsInList : Z;
  ProcessIdList : list process_id_t
}.

(** The fields of [PROCESS_BASIC_INFORMATION] and of the query that
    [get_app_exit_code] looks at. *)
Record process_query : Type := {
  pq_res : NTSTATUS;
  pq_got : Z;
  ExitStatus : NTSTATUS
}.

(** [cls_soft_t]; a [job_limit_flags_loc] of 0 is [NULL]. *)
Record cls_soft_t : Type := {
  job_limit_flags_orig : Z;
  job_limit_flags_loc : Z
}.

(** Everything drx.c takes from DynamoRIO, drmgr, the C library and the
    kernel: constants and types of headers that are not in drx.c, and the
    answers of calls that leave it.  [W] is the state of the client that owns
    the callbacks. *)
Record dr_env (W : Type) : Type := {
  (** which of [#ifdef WINDOWS] / [#else] is compiled *)
  WINDOWS : bool;
  (** calling [e->cb(pid, exit_code)] *)
  call_cb : fnptr -> process_id_t -> Z -> W -> bool * W;
  INVALID_PROCESS_ID : process_id_t;
  dr_get_process_id : process_id_t;
  (** [(process_id_t) x] for a register-sized [x] *)
  to_process_id_t : Z -> process_id_t;
  drmgr_register_pre_syscall_event : bool;
  drmgr_register_post_syscall_event : bool;
  (** UNIX *)
  SYS_kill : Z;
  SIGKILL : Z;
  (** WINDOWS *)
  INVALID_HANDLE_VALUE : HANDLE;
  JOB_OBJECT_LIMIT_KILL_ON_JOB_CLOSE : Z;
  JobObjectExtendedLimitInformation : Z;
  sizeof_JOBOBJECT_EXTENDED_LIMIT_INFORMATION : Z;
  offsetof_LimitFlags : Z;
  sizeof_PROCESS_BASIC_INFORMATION : Z;
  dr_convert_handle_to_pid : HANDLE -> process_id_t;
  dr_convert_pid_to_handle : process_id_t -> HANDLE;
  (** [NtQueryInformationJobObject(job, JobObjectBasicProcessIdList, buf, sz,
      NULL)] for a buffer with room for the given number of process ids: the
      status and the buffer afterwards *)
  NtQueryInformationJobObject : HANDLE -> Z -> NTSTATUS * JOBOBJECT_BASIC_PROCESS_ID_LIST;
  (** [dr_thread_alloc] does not initialise the memory it returns: what slot
      [i] of [ProcessIdList] holds in a fresh buffer with room for the given
      number of process ids *)
  dr_thread_alloc_ProcessIdList : Z -> nat -> process_id_t;
  (** [NtQueryInformationProcess(NT_CURRENT_PROCESS, ProcessBasicInformation,
      ...)] *)
  NtQueryInformationProcess : process_query;
  (** [dr_lookup_module_by_name]: the module's handle, 0 for [NULL] *)
  dr_lookup_module_by_name : string -> Z;
  dr_get_proc_address : Z -> string -> Z;
  drmgr_decode_sysnum_from_wrapper : Z -> Z;
  dr_syscall_intercept_natively : string -> Z -> Z -> Z -> bool;
  drmgr_register_cls_field : Z
}.

Arguments WINDOWS {W}.
Arguments call_cb {W}.
Arguments INVALID_PROCESS_ID {W}.
Arguments dr_get_process_id {W}.
Arguments to_process_id_t {W}.
Arguments drmgr_register_pre_syscall_event {W}.
Arguments drmgr_register_post_syscall_event {W}.
Arguments SYS_kill {W}.
Arguments SIGKILL {W}.
Arguments INVALID_HANDLE_VALUE {W}.
Arguments JOB_OBJECT_LIMIT_KILL_ON_JOB_CLOSE {W}.
Arguments JobObjectExtendedLimitInformation {W}.
Arguments sizeof_JOBOBJECT_EXTENDED_LIMIT_INFORMATION {W}.
Arguments offsetof_LimitFlags {W}.
Arguments sizeof_PROCESS_BASIC_INFORMATION {W}.
Arguments dr_convert_handle_to_pid {W}.
Arguments dr_convert_pid_to_handle {W}.
Arguments NtQueryInformationJobObject {W}.
Arguments dr_thread_alloc_ProcessIdList {W}.
Arguments NtQueryInformationProcess {W}.
Arguments dr_lookup_module_by_name {W}.
Arguments dr_get_proc_address {W}.
Arguments drmgr_decode_sysnum_from_wrapper {W}.
Arguments dr_syscall_intercept_natively {W}.
Arguments drmgr_register_cls_field {W}.

(** ** The state

    The statics of drx.c, then what belongs to the current drcontext (the
    parameters and the result of the system call in flight, the callback-local
    [cls_soft_t]), then the application's memory and the client. *)

Section State.
Context {W : Type}.

Record drx_state : Type := {
  drx_init_count : Z;
  soft_kills_enabled : bool;
  soft_kills_init_count : Z;
  cb_list : list fnptr;
  (** whether the mutex [cb_lock] exists *)
  cb_lock : bool;
  (** [static module_handle_t ntdll] of [soft_kills_get_sysnum] *)
  ntdll : Z;
  sysnum_TerminateProcess : Z;
  sysnum_TerminateJobObject : Z;
  sysnum_SetInformationJobObject : Z;
  sysnum_Close : Z;
  job_table : hashtable_t;
  cls_idx_soft : Z;
  (** [drmgr_get_cls_field(drcontext, cls_idx_soft)] *)
  cls : cls_soft_t;
  (** [dr_syscall_get_param(drcontext, i)] *)
  sys_param : nat -> Z;
  (** what [dr_syscall_set_result] has set, if anything *)
  sys_result : option Z;
  (** the DWORD at an address of the application *)
  app_mem : Z -> Z;
  (** whether [dr_safe_read] / [dr_safe_write] of so many bytes at an address
      succeeds *)
  mem_readable : Z -> Z -> bool;
  mem_writable : Z -> Z -> bool;
  (** calls that left drx.c, oldest first *)
  trace : list event;
  client : W
}.

Definition set_drx_init_count (v : Z) (s : drx_state) : drx_state :=
  {| drx_init_count := v; soft_kills_enabled := soft_kills_enabled s;
     soft_kills_init_count := soft_kills_init_count s; cb_list := cb_list s;
     cb_lock := cb_lock s; ntdll := ntdll s;
     sysnum_TerminateProcess := sysnum_TerminateProcess s;
     sysnum_TerminateJobObject := sysnum_TerminateJobObject s;
     sysnum_SetInformationJobObject := sysnum_SetInformationJobObject s;
     sysnum_Close := sysnum_Close s; job_table := job_table s;
     cls_idx_soft := cls_idx_soft s; cls := cls s; sys_param := sys_param s;
     sys_result := sys_result s; app_mem := app_mem s; mem_readable := mem_readable s;
     mem_writable := mem_writable s; trace := trace s; client := client s |}.

Definition set_soft_kills_enabled (v : bool) (s : drx_state) : drx_state :=
  {| drx_init_count := drx_init_count s; soft_kills_enabled := v;
     soft_kills_init_count := soft_kills_init_count s; cb_list := cb_list s;
     cb_lock := cb_lock s; ntdll := ntdll s;
     sysnum_TerminateProcess := sysnum_TerminateProcess s;
     sysnum_TerminateJobObject := sysnum_TerminateJobObject s;
     sysnum_SetInformationJobObject := sysnum_SetInformationJobObject s;
     sysnum_Close := sysnum_Close s; job_table := job_table s;
     cls_idx_soft := cls_idx_soft s; cls := cls s; sys_param := sys_param s;
     sys_result := sys_result s; app_mem := app_mem s; mem_readable := mem_readable s;
     mem_writable := mem_writable s; trace := trace s; client := client s |}.

Definition set_soft_kills_init_count (v : Z) (s : drx_state) : drx_state :=
  {| drx_init_count := drx_init_count s; soft_kills_enabled := soft_kills_enabled s;
     soft_kills_init_count := v; cb_list := cb_list s; cb_lock := cb_lock s;
     ntdll := ntdll s; sysnum_TerminateProcess := sysnum_TerminateProcess s;
     sysnum_TerminateJobObject := sysnum_TerminateJobObject s;
     sysnum_SetInformationJobObject := sysnum_SetInformationJobObject s;
     sysnum_Close := sysnum_Close s; job_table := job_table s;
     cls_idx_soft := cls_idx_soft s; cls := cls s; sys_param := sys_param s;
     sys_result := sys_result s; app_mem := app_mem s; mem_readable := mem_readable s;
     mem_writable := mem_writable s; trace := trace s; client := client s |}.

Definition set_cb_list (v : list fnptr) (s : drx_state) : drx_state :=
  {| drx_init_count := drx_init_count s; soft_kills_enabled := soft_kills_enabled s;
     soft_kills_init_count := soft_kills_init_count s; cb_list := v;
     cb_lock := cb_lock s; ntdll := ntdll s;
     sysnum_TerminateProcess := sysnum_TerminateProcess s;
     sysnum_TerminateJobObject := sysnum_TerminateJobObject s;
     sysnum_SetInformationJobObject := sysnum_SetInformationJobObject s;
     sysnum_Close := sysnum_Close s; job_table := job_table s;
     cls_idx_soft := cls_idx_soft s; cls := cls s; sys_param := sys_param s;
     sys_result := sys_result s; app_mem := app_mem s; mem_readable := mem_readable s;
     mem_writable := mem_writable s; trace := trace s; client := client s |}.

Definition set_cb_lock (v : bool) (s : drx_state) : drx_state :=
  {| drx_init_count := drx_init_count s; soft_kills_enabled := soft_kills_enabled s;
     soft_kills_init_count := soft_kills_init_count s; cb_list := cb_list s;
     cb_lock := v; ntdll := ntdll s;
     sysnum_TerminateProcess := sysnum_TerminateProcess s;
     sysnum_TerminateJobObject := sysnum_TerminateJobObject s;
     sysnum_SetInformationJobObject := sysnum_SetInformationJobObject s;
     sysnum_Close := sysnum_Close s; job_table := job_table s;
     cls_idx_soft := cls_idx_soft s; cls := cls s; sys_param := sys_param s;
     sys_result := sys_result s; app_mem := app_mem s; mem_readable := mem_readable s;
     mem_writable := mem_writable s; trace := trace s; client := client s |}.

Definition set_ntdll (v : Z) (s : drx_state) : drx_state :=
  {| drx_init_count := drx_init_count s; soft_kills_enabled := soft_kills_enabled s;
     soft_kills_init_count := soft_kills_init_count s; cb_list := cb_list s;
     cb_lock := cb_lock s; ntdll := v;
     sysnum_TerminateProcess := sysnum_TerminateProcess s;
     sysnum_TerminateJobObject := sysnum_TerminateJobObject s;
     sysnum_SetInformationJobObject := sysnum_SetInformationJobObject s;
     sysnum_Close := sysnum_Close s; job_table := job_table s;
     cls_idx_soft := cls_idx_soft s; cls := cls s; sys_param := sys_param s;
     sys_result := sys_result s; app_mem := app_mem s; mem_readable := mem_readable s;
     mem_writable := mem_writable s; trace := trace s; client := client s |}.

Definition set_sysnum_TerminateProcess (v : Z) (s : drx_state) : drx_state :=
  {| drx_init_count := drx_init_count s; soft_kills_enabled := soft_kills_enabled s;
     soft_kills_init_count := soft_kills_init_count s; cb_list := cb_list s;
     cb_lock := cb_lock s; ntdll := ntdll s; sysnum_TerminateProcess := v;
     sysnum_TerminateJobObject := sysnum_TerminateJobObject s;
     sysnum_SetInformationJobObject := sysnum_SetInformationJobObject s;
     sysnum_Close := sysnum_Close s; job_table := job_table s;
     cls_idx_soft := cls_idx_soft s; cls := cls s; sys_param := sys_param s;
     sys_result := sys_result s; app_mem := app_mem s; mem_readable := mem_readable s;
     mem_writable := mem_writable s; trace := trace s; client := client s |}.

Definition set_sysnum_TerminateJobObject (v : Z) (s : drx_state) : drx_state :=
  {| drx_init_count := drx_init_count s; soft_kills_enabled := soft_kills_enabled s;
     soft_kills_init_count := soft_kills_init_count s; cb_list := cb_list s;
     cb_lock := cb_lock s; ntdll := ntdll s;
     sysnum_TerminateProcess := sysnum_TerminateProcess s;
     sysnum_TerminateJobObject := v;
     sysnum_SetInformationJobObject := sysnum_SetInformationJobObject s;
     sysnum_Close := sysnum_Close s; job_table := job_table s;
     cls_idx_soft := cls_idx_soft s; cls := cls s; sys_param := sys_param s;
     sys_result := sys_result s; app_mem := app_mem s; mem_readable := mem_readable s;
     mem_writable := mem_writable s; trace := trace s; client := client s |}.

Definition set_sysnum_SetInformationJobObject (v : Z) (s : drx_state) : drx_state :=
  {| drx_init_count := drx_init_count s; soft_kills_enabled := soft_kills_enabled s;
     soft_kills_init_count := soft_kills_init_count s; cb_list := cb_list s;
     cb_lock := cb_lock s; ntdll := ntdll s;
     sysnum_TerminateProcess := sysnum_TerminateProcess s;
     sysnum_TerminateJobObject := sysnum_TerminateJobObject s;
     sysnum_SetInformationJobObject := v; sysnum_Close := sysnum_Close s;
     job_table := job_table s; cls_idx_soft := cls_idx_soft s; cls := cls s;
     sys_param := sys_param s; sys_result := sys_result s; app_mem := app_mem s;
     mem_readable := mem_readable s; mem_writable := mem_writable s; trace := trace s;
     client := client s |}.

Definition set_sysnum_Close (v : Z) (s : drx_state) : drx_state :=
  {| drx_init_count := drx_init_count s; soft_kills_enabled := soft_kills_enabled s;
     soft_kills_init_count := soft_kills_init_count s; cb_list := cb_list s;
     cb_lock := cb_lock s; ntdll := ntdll s;
     sysnum_TerminateProcess := sysnum_TerminateProcess s;
     sysnum_TerminateJobObject := sysnum_TerminateJobObject s;
     sysnum_SetInformationJobObject := sysnum_SetInformationJobObject s;
     sysnum_Close := v; job_table := job_table s; cls_idx_soft := cls_idx_soft s;
     cls := cls s; sys_param := sys_param s; sys_result := sys_result s;
     app_mem := app_mem s; mem_readable := mem_readable s;
     mem_writable := mem_writable s; trace := trace s; client := client s |}.

Definition set_job_table (v : hashtable_t) (s : drx_state) : drx_state :=
  {| drx_init_count := drx_init_count s; soft_kills_enabled := soft_kills_enabled s;
     soft_kills_init_count := soft_kills_init_count s; cb_list := cb_list s;
     cb_lock := cb_lock s; ntdll := ntdll s;
     sysnum_TerminateProcess := sysnum_TerminateProcess s;
     sysnum_TerminateJobObject := sysnum_TerminateJobObject s;
     sysnum_SetInformationJobObject := sysnum_SetInformationJobObject s;
     sysnum_Close := sysnum_Close s; job_table := v; cls_idx_soft := cls_idx_soft s;
     cls := cls s; sys_param := sys_param s; sys_result := sys_result s;
     app_mem := app_mem s; mem_readable := mem_readable s;
     mem_writable := mem_writable s; trace := trace s; client := client s |}.

Definition set_cls_idx_soft (v : Z) (s : drx_state) : drx_state :=
  {| drx_init_count := drx_init_count s; soft_kills_enabled := soft_kills_enabled s;
     soft_kills_init_count := soft_kills_init_count s; cb_list := cb_list s;
     cb_lock := cb_lock s; ntdll := ntdll s;
     sysnum_TerminateProcess := sysnum_TerminateProcess s;
     sysnum_TerminateJobObject := sysnum_TerminateJobObject s;
     sysnum_SetInformationJobObject := sysnum_SetInformationJobObject s;
     sysnum_Close := sysnum_Close s; job_table := job_table s; cls_idx_soft := v;
     cls := cls s; sys_param := sys_param s; sys_result := sys_result s;
     app_mem := app_mem s; mem_readable := mem_readable s;
     mem_writable := mem_writable s; trace := trace s; client := client s |}.

Definition set_cls (v : cls_soft_t) (s : drx_state) : drx_state :=
  {| drx_init_count := drx_init_count s; soft_kills_enabled := soft_kills_enabled s;
     soft_kills_init_count := soft_kills_init_count s; cb_list := cb_list s;
     cb_lock := cb_lock s; ntdll := ntdll s;
     sysnum_TerminateProcess := sysnum_TerminateProcess s;
     sysnum_TerminateJobObject := sysnum_TerminateJobObject s;
     sysnum_SetInformationJobObject := sysnum_SetInformationJobObject s;
     sysnum_Close := sysnum_Close s; job_table := job_table s;
     cls_idx_soft := cls_idx_soft s; cls := v; sys_param := sys_param s;
     sys_result := sys_result s; app_mem := app_mem s; mem_readable := mem_readable s;
     mem_writable := mem_writable s; trace := trace s; client := client s |}.

Definition set_sys_result (v : option Z) (s : drx_state) : drx_state :=
  {| drx_init_count := drx_init_count s; soft_kills_enabled := soft_kills_enabled s;
     soft_kills_init_count := soft_kills_init_count s; cb_list := cb_list s;
     cb_lock := cb_lock s; ntdll := ntdll s;
     sysnum_TerminateProcess := sysnum_TerminateProcess s;
     sysnum_TerminateJobObject := sysnum_TerminateJobObject s;
     sysnum_SetInformationJobObject := sysnum_SetInformationJobObject s;
     sysnum_Close := sysnum_Close s; job_table := job_table s;
     cls_idx_soft := cls_idx_soft s; cls := cls s; sys_param := sys_param s;
     sys_result := v; app_mem := app_mem s; mem_readable := mem_readable s;
     mem_writable := mem_writable s; trace := trace s; client := client s |}.

Definition set_app_mem (v : Z -> Z) (s : drx_state) : drx_state :=
  {| drx_init_count := drx_init_count s; soft_kills_enabled := soft_kills_enabled s;
     soft_kills_init_count := soft_kills_init_count s; cb_list := cb_list s;
     cb_lock := cb_lock s; ntdll := ntdll s;
     sysnum_TerminateProcess := sysnum_TerminateProcess s;
     sysnum_TerminateJobObject := sysnum_TerminateJobObject s;
     sysnum_SetInformationJobObject := sysnum_SetInformationJobObject s;
     sysnum_Close := sysnum_Close s; job_table := job_table s;
     cls_idx_soft := cls_idx_soft s; cls := cls s; sys_param := sys_param s;
     sys_result := sys_result s; app_mem := v; mem_readable := mem_readable s;
     mem_writable := mem_writable s; trace := trace s; client := client s |}.

Definition set_trace (v : list event) (s : drx_state) : drx_state :=
  {| drx_init_count := drx_init_count s; soft_kills_enabled := soft_kills_enabled s;
     soft_kills_init_count := soft_kills_init_count s; cb_list := cb_list s;
     cb_lock := cb_lock s; ntdll := ntdll s;
     sysnum_TerminateProcess := sysnum_TerminateProcess s;
     sysnum_TerminateJobObject := sysnum_TerminateJobObject s;
     sysnum_SetInformationJobObject := sysnum_SetInformationJobObject s;
     sysnum_Close := sysnum_Close s; job_table := job_table s;
     cls_idx_soft := cls_idx_soft s; cls := cls s; sys_param := sys_param s;
     sys_result := sys_result s; app_mem := app_mem s; mem_readable := mem_readable s;
     mem_writable := mem_writable s; trace := v; client := client s |}.

Definition set_client (v : W) (s : drx_state) : drx_state :=
  {| drx_init_count := drx_init_count s; soft_kills_enabled := soft_kills_enabled s;
     soft_kills_init_count := soft_kills_init_count s; cb_list := cb_list s;
     cb_lock := cb_lock s; ntdll := ntdll s;
     sysnum_TerminateProcess := sysnum_TerminateProcess s;
     sysnum_TerminateJobObject := sysnum_TerminateJobObject s;
     sysnum_SetInformationJobObject := sysnum_SetInformationJobObject s;
     sysnum_Close := sysnum_Close s; job_table := job_table s;
     cls_idx_soft := cls_idx_soft s; cls := cls s; sys_param := sys_param s;
     sys_result := sys_result s; app_mem := app_mem s; mem_readable := mem_readable s;
     mem_writable := mem_writable s; trace := trace s; client := v |}.

(** ** The state monad *)

Definition M (A : Type) : Type := drx_state -> A * drx_state.

Definition ret {A : Type} (a : A) : M A := fun s => (a, s).

Definition bind {A B : Type} (m : M A) (k : A -> M B) : M B :=
  fun s => let (a, s') := m s in k a s'.

Definition gets {A : Type} (f : drx_state -> A) : M A := fun s => (f s, s).

Definition modify (f : drx_state -> drx_state) : M unit := fun s => (tt, f s).

Definition emit (ev : event) : M unit :=
  modify (fun s => set_trace (trace s ++ [ev]) s).

End State.

Arguments drx_state : clear implicits.
Arguments M : clear implicits.

Declare Scope drx_scope.
Delimit Scope drx_scope with drx.
Notation "x <- c ;; k" := (bind c (fun x => k))
  (at level 100, c at next level, k at level 200, right associativity) : drx_scope.
Notation "c ;; k" := (bind c (fun _ => k))
  (at level 100, k at level 200, right associativity) : drx_scope.
Local Open Scope drx_scope.

(** ** Primitives of DynamoRIO that act on the state *)

Section Primitives.
Context {W : Type}.

(** [dr_atomic_add32_return_sum(&x, val)], for each of the two counters. *)
Definition dr_atomic_add32_return_sum_drx_init_count (val : Z) : M W Z :=
  fun s => let sum := to_int (drx_init_count s + val) in
           (sum, set_drx_init_count sum s).

Definition dr_atomic_add32_return_sum_soft_kills_init_count (val : Z) : M W Z :=
  fun s => let sum := to_int (soft_kills_init_count s + val) in
           (sum, set_soft_kills_init_count sum s).

(** Taking and releasing a mutex changes nothing that a single thread of
    control can see; the calls stay where the source has them. *)
Definition dr_mutex_lock : M W unit := ret tt.
Definition dr_mutex_unlock : M W unit := ret tt.
Definition hashtable_lock : M W unit := ret tt.
Definition hashtable_unlock : M W unit := ret tt.

Definition dr_syscall_set_result (value : Z) : M W unit :=
  modify (set_sys_result (Some value)).

(** [dr_safe_read(base, size, &buf, NULL)]: the copy, as the DWORD found at
    each offset, when all [size] bytes can be read. *)
Definition dr_safe_read (base size : Z) : M W (option (Z -> Z)) :=
  fun s => if mem_readable s base size
           then (Some (fun off => app_mem s (base + off)), s)
           else (None, s).

(** [dr_safe_write(base, size, &val, NULL)] for a DWORD [val]. *)
Definition dr_safe_write (base size val : Z) : M W bool :=
  fun s => if mem_writable s base size
           then (true, set_app_mem (fun a => if a =? base then val else app_mem s a) s)
           else (false, s).

End Primitives.

(** ** The callback list *)

Section Callbacks.
Context {W : Type} (E : dr_env W).

(** [e->cb(pid, exit_code)] *)
Definition invoke_cb (cb : fnptr) (pid : process_id_t) (exit_code : Z) : M W bool :=
  fun s => let (res, w) := call_cb E cb pid exit_code (client s) in
           (res, set_trace (trace s ++ [EvCallback cb pid exit_code res])
                   (set_client w s)).

(** The loop of [soft_kills_invoke_cbs] from entry [e] on:
    [skip = e->cb(pid, exit_code) || skip]. *)
Fixpoint invoke_cbs_from (e : list fnptr) (pid : process_id_t) (exit_code : Z)
    (skip : bool) : M W bool :=
  match e with
  | [] => ret skip
  | cb :: next =>
      res <- invoke_cb cb pid exit_code ;;
      invoke_cbs_from next pid exit_code (res || skip)
  end.

Definition soft_kills_invoke_cbs (pid : process_id_t) (exit_code : Z) : M W bool :=
  let skip := false in
  dr_mutex_lock ;;
  e <- gets cb_list ;;
  skip <- invoke_cbs_from e pid exit_code skip ;;
  dr_mutex_unlock ;;
  ret skip.

(** ** WINDOWS: job objects *)

Definition num_job_object_pids (job : HANDLE) : Z :=
  let (res, empty) := NtQueryInformationJobObject E job 1 in
  if NT_SUCCESS res || (res =? STATUS_BUFFER_OVERFLOW)
  then NumberOfAssignedProcesses empty
  else -1.

(** [list_sz] is the size of a list with room for [slots] process ids; on
    success the list is the result. *)
Definition get_job_object_pids (job : HANDLE) (slots : Z)
  : option JOBOBJECT_BASIC_PROCESS_ID_LIST :=
  let (res, list) := NtQueryInformationJobObject E job slots in
  if NT_SUCCESS res then Some list else None.

Definition get_app_exit_code : option Z :=
  let q := NtQueryInformationProcess E in
  if negb (NT_SUCCESS (pq_res q))
     || negb (pq_got q =? sizeof_PROCESS_BASIC_INFORMATION E)
  then None
  else Some (to_int (ExitStatus q)).

Definition soft_kills_get_sysnum (name : string) (num_params wow64_idx : Z) : M W Z :=
  fun s =>
    let ntdll' :=
      if ntdll s =? 0 then dr_lookup_module_by_name E "ntdll.dll" else ntdll s in
    if ntdll' =? 0 then (-1, s)
    else
      let s := set_ntdll ntdll' s in
      let wrapper := dr_get_proc_address E ntdll' name in
      if wrapper =? 0 then (-1, s)
      else
        let sysnum := drmgr_decode_sysnum_from_wrapper E wrapper in
        if sysnum =? -1 then (-1, s)
        else
          let s := set_trace
                     (trace s ++ [EvInterceptNatively name sysnum num_params wow64_idx])
                     s in
          if negb (dr_syscall_intercept_natively E name sysnum num_params wow64_idx)
          then (-1, s)
          else (sysnum, s).

Definition NtTerminateProcess (ProcessHandle : HANDLE) (status : NTSTATUS) : M W unit :=
  emit (EvNtTerminateProcess ProcessHandle status).

(** [list->ProcessIdList[i]] in the buffer for [num_jobs] process ids that
    [dr_thread_alloc] returned and the kernel then filled with [list]: a slot
    that the kernel did not write still holds what the allocation left
    there. *)
Definition ProcessIdList_at (num_jobs : Z) (list : JOBOBJECT_BASIC_PROCESS_ID_LIST)
    (i : nat) : process_id_t :=
  match ProcessIdList list !! i with
  | Some pid => pid
  | None => dr_thread_alloc_ProcessIdList E num_jobs i
  end.

(** The loop of [soft_kills_handle_job_termination],
    [for (i = 0; i < num_jobs; i++)]: [n] more rounds from [i] on. *)
Fixpoint job_termination_loop (num_jobs : Z) (list : JOBOBJECT_BASIC_PROCESS_ID_LIST)
    (n i : nat) (exit_code : Z) : M W unit :=
  match n with
  | O => ret tt
  | S n' =>
      let pid := ProcessIdList_at num_jobs list i in
      skip <- soft_kills_invoke_cbs pid exit_code ;;
      (if negb skip
       then
         let phandle := dr_convert_pid_to_handle E pid in
         if negb (phandle =? INVALID_HANDLE_VALUE E)
         then NtTerminateProcess phandle exit_code
         else ret tt
       else ret tt) ;;
      job_termination_loop num_jobs list n' (S i) exit_code
  end.

Definition soft_kills_handle_job_termination (job : HANDLE) (exit_code : Z) : M W unit :=
  let num_jobs := num_job_object_pids job in
  if 0 <? num_jobs then
    match get_job_object_pids job num_jobs with
    | Some list => job_termination_loop num_jobs list (Z.to_nat num_jobs) 0 exit_code
    | None => ret tt
    end
  else ret tt.

Definition soft_kills_handle_close (job : HANDLE) (exit_code : Z) : M W unit :=
  soft_kills_handle_job_termination job exit_code.

End Callbacks.

(** ** WINDOWS: the three syscall events *)

Module Windows.
Section Mediation.
Context {W : Type} (E : dr_env W).

Definition soft_kills_filter_syscall (sysnum : Z) : M W bool :=
  fun s => ((sysnum =? sysnum_TerminateProcess s)
            || (sysnum =? sysnum_TerminateJobObject s)
            || (sysnum =? sysnum_SetInformationJobObject s)
            || (sysnum =? sysnum_Close s), s).

(** Returns whether to execute the system call.  [ASSERT] expands to nothing
    outside of a DEBUG build, which is the build embedded here. *)
Definition soft_kills_pre_syscall (sysnum : Z) : M W bool :=
  fun s =>
  (if sysnum =? sysnum_TerminateProcess s then
     proc <- gets (fun s => sys_param s 0%nat) ;;
     let pid := dr_convert_handle_to_pid E proc in
     if negb (pid =? INVALID_PROCESS_ID E) && negb (pid =? dr_get_process_id E) then
       exit_code <- gets (fun s => to_int (sys_param s 1%nat)) ;;
       skip <- soft_kills_invoke_cbs E pid exit_code ;;
       if skip then
         dr_syscall_set_result 0 ;;
         ret false (* skip syscall *)
       else
         ret true (* execute syscall *)
     else ret true
   else if sysnum =? sysnum_TerminateJobObject s then
     job <- gets (fun s => sys_param s 0%nat) ;;
     exit_code <- gets (fun s => to_int (sys_param s 1%nat)) ;;
     soft_kills_handle_job_termination E job exit_code ;;
     dr_syscall_set_result 0 ;;
     ret false (* skip syscall *)
   else if sysnum =? sysnum_SetInformationJobObject s then
     job <- gets (fun s => sys_param s 0%nat) ;;
     class <- gets (fun s => to_int (sys_param s 1%nat)) ;;
     sz <- gets (fun s => to_ULONG (sys_param s 3%nat)) ;;
     info <- (if (class =? JobObjectExtendedLimitInformation E)
                 && (sizeof_JOBOBJECT_EXTENDED_LIMIT_INFORMATION E <=? sz)
              then
                base <- gets (fun s => sys_param s 2%nat) ;;
                dr_safe_read base (sizeof_JOBOBJECT_EXTENDED_LIMIT_INFORMATION E)
              else ret None) ;;
     match info with
     | Some info =>
         let LimitFlags := info (offsetof_LimitFlags E) in
         if TEST (JOB_OBJECT_LIMIT_KILL_ON_JOB_CLOSE E) LimitFlags then
           ptr <- gets (fun s => sys_param s 2%nat) ;;
           let new_flags :=
             Z.land LimitFlags (Z.lnot (JOB_OBJECT_LIMIT_KILL_ON_JOB_CLOSE E)) in
           modify (set_cls {| job_limit_flags_orig := LimitFlags;
                              job_limit_flags_loc := ptr + offsetof_LimitFlags E |}) ;;
           loc <- gets (fun s => job_limit_flags_loc (cls s)) ;;
           _ <- dr_safe_write loc sizeof_DWORD new_flags ;;
           (* Track the handle so we can notify the client on close or exit *)
           isnew <- (fun s => let (isnew, t) := hashtable_add (job_table s) job job in
                              (isnew, set_job_table t s)) ;;
           ret true
         else ret true
     | None => ret true
     end
   else if sysnum =? sysnum_Close s then
     handle <- gets (fun s => sys_param s 0%nat) ;;
     removed <- (fun s => let (res, t) := hashtable_remove (job_table s) handle in
                          (res, set_job_table t s)) ;;
     (if removed : bool then
        (* The exit code is set to 0 by the kernel for this case *)
        soft_kills_handle_close E handle 0
      else ret tt) ;;
     ret true
   else ret true) s.

Definition soft_kills_post_syscall (sysnum : Z) : M W unit :=
  fun s =>
  (if sysnum =? sysnum_SetInformationJobObject s then
     c <- gets cls ;;
     if negb (job_limit_flags_loc c =? 0) then
       (* Restore the app's memory *)
       _ <- dr_safe_write (job_limit_flags_loc c) sizeof_DWORD
                          (job_limit_flags_orig c) ;;
       modify (fun s => set_cls {| job_limit_flags_orig := job_limit_flags_orig (cls s);
                                   job_limit_flags_loc := 0 |} s)
     else ret tt
   else ret tt) s.

End Mediation.
End Windows.

(** ** UNIX: the three syscall events *)

Module Unix.
Section Mediation.
Context {W : Type} (E : dr_env W).

Definition soft_kills_filter_syscall (sysnum : Z) : M W bool :=
  ret (sysnum =? SYS_kill E).

(** Returns whether to execute the system call. *)
Definition soft_kills_pre_syscall (sysnum : Z) : M W bool :=
  if sysnum =? SYS_kill E then
    pid <- gets (fun s => to_process_id_t E (sys_param s 0%nat)) ;;
    sig <- gets (fun s => to_int (sys_param s 1%nat)) ;;
    if (sig =? SIGKILL E) && negb (pid =? INVALID_PROCESS_ID E)
       && negb (pid =? dr_get_process_id E) then
      (* Pass exit code << 8 for use with dr_exit_process() *)
      let exit_code := Z.shiftl sig 8 in
      skip <- soft_kills_invoke_cbs E pid exit_code ;;
      if skip then
        dr_syscall_set_result 0 ;;
        ret false (* skip syscall *)
      else
        ret true (* execute syscall *)
    else ret true
  else ret true.

Definition soft_kills_post_syscall (sysnum : Z) : M W unit :=
  ret tt.

End Mediation.
End Unix.

(** ** Activation, teardown and registration *)

Section Lifecycle.
Context {W : Type} (E : dr_env W).

(** One [sysnum_X = soft_kills_get_sysnum(...)] of [soft_kills_init] with the
    test that follows it: whether to go on. *)
Definition resolve_sysnum (name : string) (num_params wow64_idx : Z)
    (set : Z -> drx_state W -> drx_state W) : M W bool :=
  sysnum <- soft_kills_get_sysnum E name num_params wow64_idx ;;
  modify (set sysnum) ;;
  ret (negb (sysnum =? -1)).

Definition intercept_natively (name : string) (sysnum num_params wow64_idx : Z)
  : M W bool :=
  emit (EvInterceptNatively name sysnum num_params wow64_idx) ;;
  ret (dr_syscall_intercept_natively E name sysnum num_params wow64_idx).

(** The [#ifdef WINDOWS] block of [soft_kills_init]: [false] is an early
    [return false]. *)
Definition soft_kills_init_windows : M W bool :=
  modify (set_job_table (hashtable_init JOB_TABLE_HASH_BITS)) ;;
  ok <- resolve_sysnum "NtTerminateProcess" SYS_NUM_PARAMS_TerminateProcess
          SYS_WOW64_IDX_TerminateProcess set_sysnum_TerminateProcess ;;
  if negb ok then ret false else
  ok <- resolve_sysnum "NtTerminateJobObject" SYS_NUM_PARAMS_TerminateJobObject
          SYS_WOW64_IDX_TerminateJobObject set_sysnum_TerminateJobObject ;;
  if negb ok then ret false else
  ok <- resolve_sysnum "NtSetInformationJobObject" SYS_NUM_PARAMS_SetInformationJobObject
          SYS_WOW64_IDX_SetInformationJobObject set_sysnum_SetInformationJobObject ;;
  if negb ok then ret false else
  ok <- resolve_sysnum "NtClose" SYS_NUM_PARAMS_Close SYS_WOW64_IDX_Close
          set_sysnum_Close ;;
  if negb ok then ret false else
  emit EvRegisterClsField ;;
  modify (set_cls_idx_soft (drmgr_register_cls_field E)) ;;
  idx <- gets cls_idx_soft ;;
  if idx =? -1 then ret false else
  (* Ensure that DR intercepts these when we're native *)
  n <- gets sysnum_TerminateProcess ;;
  _ <- intercept_natively "NtTerminateProcess" n SYS_NUM_PARAMS_TerminateProcess
         SYS_WOW64_IDX_TerminateProcess ;;
  n <- gets sysnum_TerminateJobObject ;;
  _ <- intercept_natively "NtTerminateJobObject" n SYS_NUM_PARAMS_TerminateJobObject
         SYS_WOW64_IDX_TerminateJobObject ;;
  n <- gets sysnum_SetInformationJobObject ;;
  _ <- intercept_natively "NtSetInformationJobObject" n
         SYS_NUM_PARAMS_SetInformationJobObject SYS_WOW64_IDX_SetInformationJobObject ;;
  n <- gets sysnum_Close ;;
  _ <- intercept_natively "NtClose" n SYS_NUM_PARAMS_Close SYS_WOW64_IDX_Close ;;
  ret true.

Definition soft_kills_init : M W bool :=
  modify (set_soft_kills_enabled true) ;;
  (* cb_lock = dr_mutex_create() *)
  modify (set_cb_lock true) ;;
  ok <- (if WINDOWS E then soft_kills_init_windows else ret true) ;;
  if negb ok then ret false else
  emit EvRegisterPreSyscall ;;
  if negb (drmgr_register_pre_syscall_event E) then ret false else
  emit EvRegisterPostSyscall ;;
  if negb (drmgr_register_post_syscall_event E) then ret false else
  emit EvRegisterFilterSyscall ;;
  ret true.

(** The inner loop of the sweep of [soft_kills_exit], over one chain. *)
Fixpoint sweep_chain (he : list hashtable_entry_t) (exit_code : Z) : M W unit :=
  match he with
  | [] => ret tt
  | e :: next =>
      let job := payload e in
      soft_kills_handle_close E job exit_code ;;
      sweep_chain next exit_code
  end.

(** The outer loop, [n] more indexes from [i] on. *)
Fixpoint sweep_table (n : nat) (i : nat) (exit_code : Z) : M W unit :=
  match n with
  | O => ret tt
  | S n' =>
      he <- gets (fun s => chain_at (job_table s) i) ;;
      sweep_chain he exit_code ;;
      sweep_table n' (S i) exit_code
  end.

(** The [#ifdef WINDOWS] block of [soft_kills_exit]. *)
Definition soft_kills_exit_windows : M W unit :=
  (* The exit code used is the exit code for this process *)
  let exit_code := match get_app_exit_code E with
                   | Some exit_code => exit_code
                   | None => 0
                   end in
  hashtable_lock ;;
  bits <- gets (fun s => table_bits (job_table s)) ;;
  sweep_table (Z.to_nat (HASHTABLE_SIZE bits)) 0 exit_code ;;
  hashtable_unlock ;;
  modify (fun s => set_job_table (hashtable_delete (job_table s)) s) ;;
  idx <- gets cls_idx_soft ;;
  emit (EvUnregisterClsField idx).

(** [while (cb_list != NULL) { e = cb_list; cb_list = e->next; free e }] *)
Fixpoint free_cb_list (e : list fnptr) : M W unit :=
  match e with
  | [] => ret tt
  | _ :: next => modify (set_cb_list next) ;; free_cb_list next
  end.

Definition soft_kills_exit : M W unit :=
  (if WINDOWS E then soft_kills_exit_windows else ret tt) ;;
  dr_mutex_lock ;;
  e <- gets cb_list ;;
  free_cb_list e ;;
  dr_mutex_unlock ;;
  (* dr_mutex_destroy(cb_lock) *)
  modify (set_cb_lock false).

Definition drx_exit : M W unit :=
  count <- dr_atomic_add32_return_sum_drx_init_count (-1) ;;
  if negb (count =? 0) then ret tt else
  enabled <- gets soft_kills_enabled ;;
  (if enabled : bool then soft_kills_exit else ret tt) ;;
  emit EvDrmgrExit.

Definition drx_register_soft_kills (event_cb : fnptr) : M W bool :=
  count <- dr_atomic_add32_return_sum_soft_kills_init_count 1 ;;
  (if count =? 1 then _ <- soft_kills_init ;; ret tt else ret tt) ;;
  (* e = dr_global_alloc(sizeof( *e)); e->cb = event_cb; *)
  dr_mutex_lock ;;
  modify (fun s => set_cb_list (event_cb :: cb_list s) s) ;;
  dr_mutex_unlock ;;
  ret true.

End Lifecycle.

(** * ANALYSIS and INSTRUMENTATION of drx.c

    [drx_aflags_are_dead], the insertion of the save and the restore of the
    arithmetic flags, the merge with a restore inserted just before, and
    [drx_insert_counter_update].  An instruction list with its [where] is kept
    as the instructions that precede [where], first to last, and the
    instructions from [where] on; [where == NULL] is an empty second part,
    [instr_get_next] is the tail of the second part and [instr_get_prev] the
    last of the first. *)

(** [#define TESTALL(mask, var) (((mask) & (var)) == (mask))] *)
Definition TESTALL (mask var : Z) : bool := Z.land mask var =? mask.

(** [#define ALIGN_BACKWARD(x, alignment)
     (((ptr_uint_t)x) & (~((ptr_uint_t)(alignment)-1)))], for an [x] within
    the range of [ptr_uint_t]. *)
Definition ALIGN_BACKWARD (x alignment : Z) : Z := Z.land x (Z.lnot (alignment - 1)).

(** The reserved note values: [DRX_NOTE_AFLAGS_RESTORE_BEGIN], ..., in the
    order of the enum. *)
Definition DRX_NOTE_AFLAGS_RESTORE_BEGIN : Z := 0.
Definition DRX_NOTE_AFLAGS_RESTORE_SAHF : Z := 1.
Definition DRX_NOTE_AFLAGS_RESTORE_END : Z := 2.
Definition DRX_NOTE_COUNT : Z := 3.

(** What drx.c takes from the instruction API of DynamoRIO (dr_api.h) and
    from drx.h: the types of instructions and operands, the queries, the
    constructors, and the constants.  [instr_set_meta] is what
    [instrlist_meta_preinsert] does to the instruction it inserts;
    [dr_save_reg] and [dr_restore_reg] are the instructions these calls
    insert before [where]. *)
Class instr_api (instr_t opnd_t : Type) : Type := {
  instr_is_syscall : instr_t -> bool;
  instr_is_interrupt : instr_t -> bool;
  instr_get_arith_flags : instr_t -> Z;
  instr_is_cti : instr_t -> bool;
  instr_ok_to_mangle : instr_t -> bool;
  instr_is_ubr : instr_t -> bool;
  instr_is_call_direct : instr_t -> bool;
  instr_get_target : instr_t -> opnd_t;
  instr_get_app_pc : instr_t -> Z;
  instr_is_label : instr_t -> bool;
  instr_get_note : instr_t -> Z;
  instr_set_note : instr_t -> Z -> instr_t;
  instr_set_meta : instr_t -> instr_t;
  opnd_is_pc : opnd_t -> bool;
  opnd_get_pc : opnd_t -> Z;
  opnd_create_reg : Z -> opnd_t;
  OPND_CREATE_INT8 : Z -> opnd_t;
  OPND_CREATE_INT32 : Z -> opnd_t;
  OPND_CREATE_ABSMEM : Z -> Z -> opnd_t;
  INSTR_CREATE_label : instr_t;
  INSTR_CREATE_lahf : instr_t;
  INSTR_CREATE_sahf : instr_t;
  INSTR_CREATE_setcc : Z -> opnd_t -> instr_t;
  INSTR_CREATE_add : opnd_t -> opnd_t -> instr_t;
  INSTR_CREATE_adc : opnd_t -> opnd_t -> instr_t;
  INSTR_CREATE_mov_st : opnd_t -> opnd_t -> instr_t;
  LOCK : instr_t -> instr_t;
  dr_save_reg : Z -> Z -> list instr_t;
  dr_restore_reg : Z -> Z -> list instr_t;
  proc_get_cache_line_size : Z;
  EFLAGS_READ_6 : Z;
  EFLAGS_WRITE_6 : Z;
  DR_REG_NULL : Z;
  DR_REG_XAX : Z;
  DR_REG_AL : Z;
  OP_seto : Z;
  OPSZ_4 : Z;
  OPSZ_8 : Z;
  SPILL_SLOT_1 : Z;
  SPILL_SLOT_MAX : Z;
  DRX_COUNTER_64BIT : Z;
  DRX_COUNTER_LOCK : Z;
  (** whether [X64] is defined *)
  X64 : bool
}.

Section Instrumentation.
Context {instr_t opnd_t : Type} `{API : instr_api instr_t opnd_t}.

(** [static ptr_uint_t note_base], as [drx_init] has set it. *)
Variable note_base : Z.

(** [#define NOTE_VAL(enum_val) ((void * )(ptr_int_t)(note_base + (enum_val)))] *)
Definition NOTE_VAL (enum_val : Z) : Z := note_base + enum_val.

(** [#define MINSERT instrlist_meta_preinsert]: the instructions before
    [where] with [instr] inserted just before [where]. *)
Definition MINSERT (before : list instr_t) (instr : instr_t) : list instr_t :=
  before ++ [instr_set_meta instr].

(** [where_] is the list of the instruction [where] and its successors. *)
Fixpoint drx_aflags_are_dead (where_ : list instr_t) : bool :=
  match where_ with
  | [] => false
  | instr :: rest =>
      (* we treat syscall/interrupt as aflags read *)
      if instr_is_syscall instr || instr_is_interrupt instr then false
      else
        let flags := instr_get_arith_flags instr in
        if TESTANY EFLAGS_READ_6 flags then false
        else if TESTALL EFLAGS_WRITE_6 flags then true
        else if instr_is_cti instr then
          if instr_ok_to_mangle instr
             && (instr_is_ubr instr || instr_is_call_direct instr)
          then
            match rest with
            | next :: _ =>
                let tgt := instr_get_target instr in
                (* continue on elision *)
                if instr_ok_to_mangle next && opnd_is_pc tgt
                   && (opnd_get_pc tgt =? instr_get_app_pc next)
                then drx_aflags_are_dead rest
                else false (* unknown target, assume aflags is live *)
            | [] => false
            end
          else false
        else drx_aflags_are_dead rest
  end.

(** insert a label instruction with note *)
Definition ilist_insert_note_label (before : list instr_t) (note : Z) : list instr_t :=
  let instr := INSTR_CREATE_label in
  let instr := instr_set_note instr note in
  MINSERT before instr.

(** The instructions before [where] after the insertion; a [reg] other than
    [DR_REG_NULL] takes the place of the spill slot. *)
Definition drx_save_arith_flags (before : list instr_t) (save_eax save_oflag : bool)
    (slot reg : Z) : list instr_t :=
  (* save %eax if necessary *)
  let before :=
    if save_eax then
      if negb (reg =? DR_REG_NULL) then
        MINSERT before (INSTR_CREATE_mov_st (opnd_create_reg reg)
                          (opnd_create_reg DR_REG_XAX))
      else before ++ dr_save_reg DR_REG_XAX slot
    else before in
  (* lahf *)
  let before := MINSERT before INSTR_CREATE_lahf in
  if save_oflag then
    (* seto %al *)
    MINSERT before (INSTR_CREATE_setcc OP_seto (opnd_create_reg DR_REG_AL))
  else before.

Definition drx_restore_arith_flags (before : list instr_t)
    (restore_eax restore_oflag : bool) (slot reg : Z) : list instr_t :=
  let before := ilist_insert_note_label before (NOTE_VAL DRX_NOTE_AFLAGS_RESTORE_BEGIN) in
  let before :=
    if restore_oflag then
      (* add 0x7f, %al *)
      MINSERT before (INSTR_CREATE_add (opnd_create_reg DR_REG_AL) (OPND_CREATE_INT8 0x7f))
    else before in
  (* sahf *)
  let before :=
    MINSERT before
      (instr_set_note INSTR_CREATE_sahf (NOTE_VAL DRX_NOTE_AFLAGS_RESTORE_SAHF)) in
  (* restore eax if necessary *)
  let before :=
    if restore_eax then
      if negb (reg =? DR_REG_NULL) then
        MINSERT before (INSTR_CREATE_mov_st (opnd_create_reg DR_REG_XAX)
                          (opnd_create_reg reg))
      else before ++ dr_restore_reg DR_REG_XAX slot
    else before in
  ilist_insert_note_label before (NOTE_VAL DRX_NOTE_AFLAGS_RESTORE_END).

(** The loop of [merge_prev_drx_aflags_switch] that looks for
    [DRX_NOTE_AFLAGS_RESTORE_BEGIN]: [prev] is [instr] and the instructions
    before it, last first; [passed] are the instructions walked over so far.
    The result is the list split at the label that is found. *)
Fixpoint merge_prev_scan (prev passed : list instr_t)
  : option (list instr_t * list instr_t) :=
  match prev with
  | [] => None
  | instr :: prev' =>
      if instr_ok_to_mangle instr then
        (* we do not expect any app instr *)
        None
      else if instr_is_label instr then
        if instr_get_note instr =? NOTE_VAL DRX_NOTE_AFLAGS_RESTORE_BEGIN
        then Some (rev prev', instr :: passed)
        else None (* we do not expect any other label instr *)
      else merge_prev_scan prev' (instr :: passed)
  end.

(** [None] is [NULL]; [Some (b, mid)] is the pointer to the first instruction
    of [mid], with [before = b ++ mid].  The [has_sahf] of a DEBUG build and
    its [ASSERT]s are not part of this build. *)
Definition merge_prev_drx_aflags_switch (before after : list instr_t)
  : option (list instr_t * list instr_t) :=
  match after with
  | [] => None
  | _ :: _ =>
      match rev before with
      | [] => None
      | instr :: prev =>
          if negb (instr_is_label instr) then None
          else if negb (instr_get_note instr =? NOTE_VAL DRX_NOTE_AFLAGS_RESTORE_END)
          then None
          else merge_prev_scan prev [instr]
      end
  end.

Definition counter_crosses_cache_line (addr size : Z) : bool :=
  let cache_line_size := proc_get_cache_line_size in
  if ALIGN_BACKWARD addr cache_line_size
     =? ALIGN_BACKWARD (addr + size - 1) cache_line_size
  then false
  else true.

(** The result and the instructions that precede the caller's [where]
    afterwards.  [drcontext] is a pointer, 0 for [NULL]. *)
Definition drx_insert_counter_update (drcontext : Z) (before after : list instr_t)
    (slot addr value flags : Z) : bool * list instr_t :=
  let save_aflags := negb (drx_aflags_are_dead after) in
  let is_64 := TEST DRX_COUNTER_64BIT flags in
  if drcontext =? 0 then (false, before)
  else if negb ((SPILL_SLOT_1 <=? slot) && (slot <=? SPILL_SLOT_MAX)) then (false, before)
  else if TEST DRX_COUNTER_LOCK flags
          && ((negb X64 && is_64) (* 64-bit counter in 32-bit mode *)
              || counter_crosses_cache_line addr (if is_64 then 8 else 4))
  then (false, before)
  else
    (* if save_aflags, check if we can merge with the prev aflags save *)
    let merged := if save_aflags then merge_prev_drx_aflags_switch before after
                  else None in
    let save_aflags := match merged with Some _ => false | None => save_aflags end in
    (* [where] is the label that was found, or as before *)
    let '(before, mid) := match merged with
                          | Some (b, mid) => (b, mid)
                          | None => (before, [])
                          end in
    (* save aflags if necessary *)
    let before :=
      if save_aflags then drx_save_arith_flags before true true slot DR_REG_NULL
      else before in
    (* update counter *)
    let instr :=
      INSTR_CREATE_add (OPND_CREATE_ABSMEM addr
                          (if X64 then (if is_64 then OPSZ_8 else OPSZ_4) else OPSZ_4))
        (OPND_CREATE_INT32 value) in
    let instr := if TEST DRX_COUNTER_LOCK flags then LOCK instr else instr in
    let before := MINSERT before instr in
    let before :=
      if negb X64 && is_64 then
        MINSERT before
          (INSTR_CREATE_adc (OPND_CREATE_ABSMEM (addr + 4) OPSZ_4) (OPND_CREATE_INT32 0))
      else before in
    (* restore aflags if necessary *)
    let before :=
      if save_aflags then drx_restore_arith_flags before true true slot DR_REG_NULL
      else before in
    (true, before ++ mid).

End Instrumentation.

(** * LOGGING of drx.c *)

(** What the two routines take from DynamoRIO and the C library.  The
    [dr_snprintf] of each format gives its return value and the buffer as it
    is after [NULL_TERMINATE_BUFFER]; [dr_open_file] gives the file or
    [INVALID_FILE] for a name and flags (an open that is refused leaves
    nothing behind). *)
Record log_api : Type := {
  (** ["%s/%s.%04d.%s"] of [dir], [prefix], [i], [suffix] into
      [buf[MAXIMUM_PATH]] *)
  dr_snprintf_unique : string -> string -> Z -> string -> Z * string;
  (** ["%s"] of [buf] into [result] of [result_len] characters *)
  dr_snprintf_result : Z -> string -> string;
  (** ["%s.%s.%05d"] of [prefix], [app_name], [id] into [appid[MAXIMUM_PATH]] *)
  dr_snprintf_appid : string -> string -> Z -> Z * string;
  dr_open_file : string -> Z -> Z;
  dr_get_application_name : option string;
  INVALID_FILE : Z;
  DR_FILE_WRITE_REQUIRE_NEW : Z;
  MAXIMUM_PATH : Z;
  (** the width of [size_t] *)
  size_t_bits : Z
}.

Section Logging.
Context (L : log_api).

(** [(size_t) x] *)
Definition to_size_t (x : Z) : Z := x mod 2 ^ size_t_bits L.

(** The loop of [drx_open_unique_file], [n] more rounds from [i] on: the file
    that is returned, and what is written to [result] if anything
    ([has_result] says that [result] is not NULL). *)
Fixpoint open_unique_loop (dir prefix suffix : string) (extra_flags : Z)
    (has_result : bool) (result_len : Z) (n : nat) (i : Z) : Z * option string :=
  match n with
  | O => (INVALID_FILE L, None)
  | S n' =>
      let (r, buf) := dr_snprintf_unique L dir prefix i suffix in
      let len := to_size_t r in
      if len <? 0 then (0 (* false *), None)
      else
        let f := dr_open_file L buf (Z.lor (DR_FILE_WRITE_REQUIRE_NEW L) extra_flags) in
        if negb (f =? INVALID_FILE L) then
          (f, if has_result then Some (dr_snprintf_result L result_len buf) else None)
        else
          open_unique_loop dir prefix suffix extra_flags has_result result_len n' (i + 1)
  end.

Definition drx_open_unique_file (dir prefix suffix : string) (extra_flags : Z)
    (has_result : bool) (result_len : Z) : Z * option string :=
  open_unique_loop dir prefix suffix extra_flags has_result result_len (Z.to_nat 10000) 0.

Definition drx_open_unique_appid_file (dir : string) (id : Z) (prefix suffix : string)
    (extra_flags : Z) (has_result : bool) (result_len : Z) : Z * option string :=
  let app_name := match dr_get_application_name L with
                  | Some app_name => app_name
                  | None => "<unknown-app>"%string
                  end in
  let (len, appid) := dr_snprintf_appid L prefix app_name id in
  if (len <? 0) || (MAXIMUM_PATH L <=? to_size_t len) then (INVALID_FILE L, None)
  else drx_open_unique_file dir appid suffix extra_flags has_result result_len.

End Logging.

(** * Specification vocabulary *)

Section Vocabulary.
Context {W : Type} (E : dr_env W).

(** The answers of the callbacks [cbs], called one after the other on the
    client's state. *)
Fixpoint cb_results (cbs : list fnptr) (pid : process_id_t) (exit_code : Z) (w : W)
  : list bool * W :=
  match cbs with
  | [] => ([], w)
  | cb :: rest =>
      let (r, w1) := call_cb E cb pid exit_code w in
      let (rs, w2) := cb_results rest pid exit_code w1 in
      (r :: rs, w2)
  end.

(** One call event for each callback with its answer. *)
Definition cb_events (pid : process_id_t) (exit_code : Z) (cbs : list fnptr)
    (rs : list bool) : list event :=
  zip_with (fun cb r => EvCallback cb pid exit_code r) cbs rs.

(** The callback an event is a call of, if it is one. *)
Definition called (ev : event) : option fnptr :=
  match ev with
  | EvCallback cb _ _ _ => Some cb
  | _ => None
  end.

(** Registering the callbacks [fs], first to last. *)
Fixpoint register_all (fs : list fnptr) : M W unit :=
  match fs with
  | [] => ret tt
  | f :: rest => _ <- drx_register_soft_kills E f ;; register_all rest
  end.

(** The state after some calls that left drx.c and touched the client. *)
Definition after (evs : list event) (w : W) (s : drx_state W) : drx_state W :=
  set_trace (trace s ++ evs) (set_client w s).

(** What the treatment of a job does for the member [pid], given the answers
    [rs] of the callbacks for it: the fan-out, then the kill of that one
    member when nobody asked to skip it and the pid converts to a handle. *)
Definition member_events (cbs : list fnptr) (exit_code : Z) (pid : process_id_t)
    (rs : list bool) : list event :=
  cb_events pid exit_code cbs rs ++
  (if existsb id rs then []
   else if dr_convert_pid_to_handle E pid =? INVALID_HANDLE_VALUE E then []
   else [EvNtTerminateProcess (dr_convert_pid_to_handle E pid) exit_code]).

(** The same for the members [pids], one after the other. *)
Fixpoint members_outcome (cbs : list fnptr) (exit_code : Z) (pids : list process_id_t)
    (w : W) : list event * W :=
  match pids with
  | [] => ([], w)
  | pid :: rest =>
      let (rs, w1) := cb_results cbs pid exit_code w in
      let (evs, w2) := members_outcome cbs exit_code rest w1 in
      (member_events cbs exit_code pid rs ++ evs, w2)
  end.

(** The process ids that the loop of [soft_kills_handle_job_termination]
    reads: [list->ProcessIdList[i]] for [i] from [from] on, [n] of them. *)
Definition job_pids_read (num_jobs : Z) (list : JOBOBJECT_BASIC_PROCESS_ID_LIST)
    (from n : nat) : Datatypes.list process_id_t :=
  map (ProcessIdList_at E num_jobs list) (seq from n).

(** The kernel reports exactly the processes [l] as the members of [job], to
    the two queries that [soft_kills_handle_job_termination] makes. *)
Definition job_members (job : HANDLE) (l : list process_id_t) : Prop :=
  num_job_object_pids E job = Z.of_nat (length l) /\
  (l <> [] ->
   exists list, get_job_object_pids E job (Z.of_nat (length l)) = Some list /\
                take (length l) (ProcessIdList list) = l).

(** The job query fails: no count, or no list. *)
Definition job_query_fails (job : HANDLE) : Prop :=
  num_job_object_pids E job < 0 \/
  get_job_object_pids E job (num_job_object_pids E job) = None.

(** The members [l] that the treatment of [job] goes through: those that the
    kernel reports, or none when the query fails. *)
Definition job_notified (job : HANDLE) (l : list process_id_t) : Prop :=
  job_members job l \/ (job_query_fails job /\ l = []).

(** What the treatment of the job [job] does, on the client's state: nothing
    when the query fails or reports no member. *)
Definition job_outcome (cbs : list fnptr) (exit_code : Z) (job : HANDLE) (w : W)
  : list event * W :=
  let num_jobs := num_job_object_pids E job in
  if 0 <? num_jobs then
    match get_job_object_pids E job num_jobs with
    | Some list =>
        members_outcome cbs exit_code
          (job_pids_read num_jobs list 0 (Z.to_nat num_jobs)) w
    | None => ([], w)
    end
  else ([], w).

(** The same for the jobs [jobs], one after the other. *)
Fixpoint jobs_outcome (cbs : list fnptr) (exit_code : Z) (jobs : list HANDLE) (w : W)
  : list event * W :=
  match jobs with
  | [] => ([], w)
  | job :: rest =>
      let (evs1, w1) := job_outcome cbs exit_code job w in
      let (evs2, w2) := jobs_outcome cbs exit_code rest w1 in
      (evs1 ++ evs2, w2)
  end.

(** Notifying each of [jobs] as if closed. *)
Fixpoint close_all_jobs (jobs : list HANDLE) (exit_code : Z) : M W unit :=
  match jobs with
  | [] => ret tt
  | job :: rest => soft_kills_handle_close E job exit_code ;; close_all_jobs rest exit_code
  end.

(** The computation [m] relates every state to the state it leaves. *)
Definition keeps {A : Type} (R : drx_state W -> drx_state W -> Prop) (m : M W A) : Prop :=
  forall s, R s (snd (m s)).

(** Nothing but the trace and the activation statics differ. *)
Definition same_registry (s s' : drx_state W) : Prop :=
  cb_list s' = cb_list s /\ client s' = client s /\
  drx_init_count s' = drx_init_count s /\
  soft_kills_init_count s' = soft_kills_init_count s /\
  sys_result s' = sys_result s /\ app_mem s' = app_mem s /\ cls s' = cls s.

End Vocabulary.

(** The table as [hashtable_init] makes it and [hashtable_add] of a job
    handle under itself and [hashtable_remove] keep it. *)
Definition job_table_ok (t : hashtable_t) : Prop :=
  0 <= table_bits t /\
  length (table t) = Z.to_nat (HASHTABLE_SIZE (table_bits t)) /\
  forall (i : nat) (chain : list hashtable_entry_t),
    table t !! i = Some chain ->
    NoDup (map key chain) /\
    forall e, In e chain -> hash_key t (key e) = i /\ payload e = key e.

(** The handles in the table, in the order of the sweep. *)
Definition tracked_jobs (t : hashtable_t) : list HANDLE :=
  map payload (concat (table t)).

(** ** A concrete world, for running the definitions

    A client that counts the calls it gets, whose callback [cb] asks to skip
    the kill of [pid] when [skips cb pid]; a kernel in which job handle [h]
    has the members [jobs h]; pids convert to handles by [pid_handle]. *)

Definition demo_query_job (jobs : HANDLE -> option (list process_id_t))
    (job : HANDLE) (slots : Z) : NTSTATUS * JOBOBJECT_BASIC_PROCESS_ID_LIST :=
  match jobs job with
  | None =>
      (to_int 0xC0000008,
       {| NumberOfAssignedProcesses := 0; NumberOfProcessIdsInList := 0;
          ProcessIdList := [] |})
  | Some l =>
      (if Z.of_nat (length l) <=? slots then 0 else STATUS_BUFFER_OVERFLOW,
       {| NumberOfAssignedProcesses := Z.of_nat (length l);
          NumberOfProcessIdsInList := Z.min slots (Z.of_nat (length l));
          ProcessIdList := take (Z.to_nat slots) l |})
  end.

Definition demo_proc_address (name : string) : Z :=
  if String.eqb name "NtTerminateProcess" then 0x77001000
  else if String.eqb name "NtTerminateJobObject" then 0x77002000
  else if String.eqb name "NtSetInformationJobObject" then 0x77003000
  else if String.eqb name "NtClose" then 0x77004000
  else 0.

Definition demo_sysnum (wrapper : Z) : Z :=
  if wrapper =? 0x77001000 then 44
  else if wrapper =? 0x77002000 then 45
  else if wrapper =? 0x77003000 then 46
  else if wrapper =? 0x77004000 then 15
  else -1.

Definition demo_env (windows : bool) (skips : fnptr -> process_id_t -> bool)
    (jobs : HANDLE -> option (list process_id_t))
    (handle_pid pid_handle : Z -> Z) (proc_address : string -> Z)
    (post_event_ok : bool) : dr_env nat :=
  {| WINDOWS := windows;
     call_cb := fun cb pid _ w => (skips cb pid, S w);
     INVALID_PROCESS_ID := -1;
     dr_get_process_id := 1000;
     to_process_id_t := to_int;
     drmgr_register_pre_syscall_event := true;
     drmgr_register_post_syscall_event := post_event_ok;
     SYS_kill := 62;
     SIGKILL := 9;
     INVALID_HANDLE_VALUE := -1;
     JOB_OBJECT_LIMIT_KILL_ON_JOB_CLOSE := 0x2000;
     JobObjectExtendedLimitInformation := 9;
     sizeof_JOBOBJECT_EXTENDED_LIMIT_INFORMATION := 144;
     offsetof_LimitFlags := 16;
     sizeof_PROCESS_BASIC_INFORMATION := 48;
     dr_convert_handle_to_pid := handle_pid;
     dr_convert_pid_to_handle := pid_handle;
     NtQueryInformationJobObject := demo_query_job jobs;
     dr_thread_alloc_ProcessIdList := fun _ _ => 0xCDCDCDCD;
     NtQueryInformationProcess := {| pq_res := 0; pq_got := 48; ExitStatus := 3 |};
     dr_lookup_module_by_name := fun _ => 0x77000000;
     dr_get_proc_address := fun _ name => proc_address name;
     drmgr_decode_sysnum_from_wrapper := demo_sysnum;
     dr_syscall_intercept_natively := fun _ _ _ _ => true;
     drmgr_register_cls_field := 0 |}.

(** Process handle [0x100 + pid] stands for process [pid]. *)
Definition demo_handle_pid (h : HANDLE) : process_id_t :=
  if 0x100 <? h then h - 0x100 else -1.
Definition demo_pid_handle (pid : process_id_t) : HANDLE := pid + 0x100.

(** Job handle [0x50] holds processes 7, 8 and 9; job handle [0x60] is empty. *)
Definition demo_jobs (job : HANDLE) : option (list process_id_t) :=
  if job =? 0x50 then Some [7; 8; 9]
  else if job =? 0x60 then Some []
  else None.

(** Nobody asks to skip. *)
Definition unix_env : dr_env nat :=
  demo_env false (fun _ _ => false) demo_jobs demo_handle_pid demo_pid_handle
    demo_proc_address true.

(** Callback 2 asks to skip the kill of process 8. *)
Definition windows_env : dr_env nat :=
  demo_env true (fun cb pid => (cb =? 2) && (pid =? 8)) demo_jobs demo_handle_pid
    demo_pid_handle demo_proc_address true.

(** Every callback always asks to skip; handle -1 is the caller's own process. *)
Definition always_skip_env (windows : bool) : dr_env nat :=
  demo_env windows (fun _ _ => true) demo_jobs
    (fun h => if h =? -1 then 1000 else demo_handle_pid h) demo_pid_handle
    demo_proc_address true.

(** The state before anything of drx.c has run, but for one [drx_init]; the
    application's memory holds [mem]. *)
Definition initial_state (mem : Z -> Z) (readable writable : Z -> Z -> bool)
  : drx_state nat :=
  {| drx_init_count := 1; soft_kills_enabled := false; soft_kills_init_count := 0;
     cb_list := []; cb_lock := false; ntdll := 0;
     sysnum_TerminateProcess := 0; sysnum_TerminateJobObject := 0;
     sysnum_SetInformationJobObject := 0; sysnum_Close := 0;
     job_table := {| table_bits := 0; table := [] |};
     cls_idx_soft := 0;
     cls := {| job_limit_flags_orig := 0; job_limit_flags_loc := 0 |};
     sys_param := fun _ => 0; sys_result := None;
     app_mem := mem; mem_readable := readable; mem_writable := writable;
     trace := []; client := O |}.

Definition demo_state : drx_state nat :=
  initial_state (fun _ => 0) (fun _ _ => true) (fun _ _ => true).

(** A system call with the parameters [params] is about to run. *)
Definition enter_syscall {W : Type} (params : list Z) (s : drx_state W) : drx_state W :=
  {| drx_init_count := drx_init_count s; soft_kills_enabled := soft_kills_enabled s;
     soft_kills_init_count := soft_kills_init_count s; cb_list := cb_list s;
     cb_lock := cb_lock s; ntdll := ntdll s;
     sysnum_TerminateProcess := sysnum_TerminateProcess s;
     sysnum_TerminateJobObject := sysnum_TerminateJobObject s;
     sysnum_SetInformationJobObject := sysnum_SetInformationJobObject s;
     sysnum_Close := sysnum_Close s; job_table := job_table s;
     cls_idx_soft := cls_idx_soft s; cls := cls s;
     sys_param := fun i => nth i params 0;
     sys_result := None; app_mem := app_mem s; mem_readable := mem_readable s;
     mem_writable := mem_writable s; trace := trace s; client := client s |}.

(** Callbacks 1 and 2 registered, in this order. *)
Definition unix_registered : drx_state nat :=
  snd (register_all unix_env [1; 2] demo_state).
Definition windows_registered : drx_state nat :=
  snd (register_all windows_env [1; 2] demo_state).

(** The pre-syscall test of NtSetInformationJobObject: the class is the
    extended limit information, the size given is large enough, the structure
    can be read, and its [LimitFlags] has the kill-on-job-close flag. *)
Definition requests_kill_on_close {W : Type} (E : dr_env W) (s : drx_state W) : bool :=
  (to_int (sys_param s 1%nat) =? JobObjectExtendedLimitInformation E)
  && (sizeof_JOBOBJECT_EXTENDED_LIMIT_INFORMATION E <=? to_ULONG (sys_param s 3%nat))
  && mem_readable s (sys_param s 2%nat) (sizeof_JOBOBJECT_EXTENDED_LIMIT_INFORMATION E)
  && TEST (JOB_OBJECT_LIMIT_KILL_ON_JOB_CLOSE E)
       (app_mem s (sys_param s 2%nat + offsetof_LimitFlags E)).

(** The application keeps a [JOBOBJECT_EXTENDED_LIMIT_INFORMATION] at
    [0x5000] whose [LimitFlags] are [0x2008]; [writable] tells whether its
    memory can be written. *)
Definition demo_limits_state (writable : bool) : drx_state nat :=
  snd (register_all windows_env [1; 2]
         (initial_state (fun a => if a =? 0x5010 then 0x2008 else 0)
            (fun _ _ => true) (fun _ _ => writable))).

(** The same application after NtSetInformationJobObject on job handle
    [0x50] with that structure has gone through its pre- and post-syscall
    events. *)
Definition demo_tracking_state : drx_state nat :=
  snd (Windows.soft_kills_post_syscall 46
         (snd (Windows.soft_kills_pre_syscall windows_env 46
                 (enter_syscall [0x50; 9; 0x5000; 144] (demo_limits_state true))))).

(** A world in which ntdll has no NtTerminateJobObject to resolve. *)
Definition unresolved_env : dr_env nat :=
  demo_env true (fun _ _ => false) demo_jobs demo_handle_pid demo_pid_handle
    (fun name => if String.eqb name "NtTerminateJobObject" then 0
                 else demo_proc_address name) true.

(** A world in which the post-syscall event cannot be registered. *)
Definition no_post_event_env (windows : bool) : dr_env nat :=
  demo_env windows (fun _ _ => false) demo_jobs demo_handle_pid demo_pid_handle
    demo_proc_address false.

(** ** Vocabulary of the further properties *)

(** A call that the treatment of a job may make, for the callbacks [cbs] and
    the exit code [exit_code]: a call of one of the callbacks with that exit
    code, or an NtTerminateProcess with that exit code on a handle that is
    not [INVALID_HANDLE_VALUE]. *)
Definition job_event_ok {W : Type} (E : dr_env W) (cbs : list fnptr) (exit_code : Z)
    (ev : event) : Prop :=
  match ev with
  | EvCallback cb _ c _ => In cb cbs /\ c = exit_code
  | EvNtTerminateProcess h c => h <> INVALID_HANDLE_VALUE E /\ c = exit_code
  | _ => False
  end.

(** The states that the Windows build can be in once activation has
    succeeded: whatever registrations, system calls entering, and pre- and
    post-syscall events follow, in any order. *)
Inductive reachable {W : Type} (E : dr_env W) : drx_state W -> Prop :=
| reach_activated s :
    WINDOWS E = true -> fst (soft_kills_init E s) = true ->
    reachable E (snd (soft_kills_init E s))
| reach_register f s :
    reachable E s -> reachable E (snd (drx_register_soft_kills E f s))
| reach_enter params s :
    reachable E s -> reachable E (enter_syscall params s)
| reach_pre sysnum s :
    reachable E s -> reachable E (snd (Windows.soft_kills_pre_syscall E sysnum s))
| reach_post sysnum s :
    reachable E s -> reachable E (snd (Windows.soft_kills_post_syscall sysnum s)).

(** ** Vocabulary of the instrumentation *)

(** What the instruction API promises about the instructions that drx.c
    creates and inserts: a created label is a label; setting the note or
    marking an instruction as meta keeps whether it is a label, and the note
    that is set is the note that is read; a meta instruction is not an
    application instruction ([instr_ok_to_mangle] is false); the other created
    instructions, and those of [dr_save_reg] and [dr_restore_reg], are meta
    and no labels. *)
Class instr_api_laws {instr_t opnd_t : Type} (API : instr_api instr_t opnd_t) : Prop := {
  label_is_label : instr_is_label INSTR_CREATE_label = true;
  set_note_is_label i n : instr_is_label (instr_set_note i n) = instr_is_label i;
  get_set_note i n : instr_get_note (instr_set_note i n) = n;
  meta_not_ok_to_mangle i : instr_ok_to_mangle (instr_set_meta i) = false;
  meta_is_label i : instr_is_label (instr_set_meta i) = instr_is_label i;
  meta_get_note i : instr_get_note (instr_set_meta i) = instr_get_note i;
  lahf_no_label : instr_is_label INSTR_CREATE_lahf = false;
  sahf_no_label : instr_is_label INSTR_CREATE_sahf = false;
  setcc_no_label op o : instr_is_label (INSTR_CREATE_setcc op o) = false;
  add_no_label d o : instr_is_label (INSTR_CREATE_add d o) = false;
  adc_no_label d o : instr_is_label (INSTR_CREATE_adc d o) = false;
  mov_st_no_label d o : instr_is_label (INSTR_CREATE_mov_st d o) = false;
  lock_is_label i : instr_is_label (LOCK i) = instr_is_label i;
  save_reg_meta r slot :
    Forall (fun i => instr_ok_to_mangle i = false /\ instr_is_label i = false)
      (dr_save_reg r slot);
  restore_reg_meta r slot :
    Forall (fun i => instr_ok_to_mangle i = false /\ instr_is_label i = false)
      (dr_restore_reg r slot)
}.

(** The instructions from a restore of the flags, between its two labels: no
    application instruction and no label. *)
Definition restore_body {instr_t opnd_t : Type} `{API : instr_api instr_t opnd_t}
    (i : instr_t) : Prop :=
  instr_ok_to_mangle i = false /\ instr_is_label i = false.

(** An instruction that [drx_aflags_are_dead] walks over or stops at with
    the answer true: no system call, no interrupt, no read of one of the six
    arithmetic flags. *)
Definition reads_no_flag {instr_t opnd_t : Type} `{API : instr_api instr_t opnd_t}
    (i : instr_t) : Prop :=
  instr_is_syscall i = false /\ instr_is_interrupt i = false /\
  TESTANY EFLAGS_READ_6 (instr_get_arith_flags i) = false.

(** A branch that [drx_aflags_are_dead] walks over goes to the very next
    instruction. *)
Definition elided {instr_t opnd_t : Type} `{API : instr_api instr_t opnd_t}
    (i next : instr_t) : Prop :=
  instr_ok_to_mangle i = true /\
  (instr_is_ubr i = true \/ instr_is_call_direct i = true) /\
  instr_ok_to_mangle next = true /\
  opnd_is_pc (instr_get_target i) = true /\
  opnd_get_pc (instr_get_target i) = instr_get_app_pc next.

(** ** A small instruction set, for running the instrumentation *)

Inductive demo_opnd : Type :=
| OReg (r : Z)
| OInt (v : Z)
| OAbs (addr sz : Z)
| OPc (pc : Z).

Inductive demo_opcode : Type :=
| KLabel | KLahf | KSahf | KSetcc | KAdd | KAdc | KMov | KSpill | KUnspill
| KSyscall | KJmp | KCmp | KLoad.

Record demo_instr : Type := {
  d_opcode : demo_opcode;
  d_dst : demo_opnd;
  d_src : demo_opnd;
  d_meta : bool;
  d_note : Z;
  d_lock : bool;
  d_pc : Z
}.

Definition demo_new (op : demo_opcode) (dst src : demo_opnd) : demo_instr :=
  {| d_opcode := op; d_dst := dst; d_src := src; d_meta := false; d_note := 0;
     d_lock := false; d_pc := 0 |}.

(** An application instruction at [pc]. *)
Definition demo_app (op : demo_opcode) (dst src : demo_opnd) (pc : Z) : demo_instr :=
  {| d_opcode := op; d_dst := dst; d_src := src; d_meta := false; d_note := 0;
     d_lock := false; d_pc := pc |}.

(** The six arithmetic flags: read bits [0x11f], write bits those shifted
    left by 11. *)
Definition demo_arith_flags (op : demo_opcode) : Z :=
  match op with
  | KAdd | KCmp => 0x8f800
  | KAdc => 0x8f801
  | KLahf => 0x1f
  | KSahf => 0xf800
  | KSetcc => 0x100
  | _ => 0
  end.

Definition demo_is (op : demo_opcode) (i : demo_instr) : bool :=
  match op, d_opcode i with
  | KLabel, KLabel | KSyscall, KSyscall | KJmp, KJmp => true
  | _, _ => false
  end.

#[export] Instance demo_api : instr_api demo_instr demo_opnd := {|
  instr_is_syscall := demo_is KSyscall;
  instr_is_interrupt := fun _ => false;
  instr_get_arith_flags := fun i => demo_arith_flags (d_opcode i);
  instr_is_cti := demo_is KJmp;
  instr_ok_to_mangle := fun i => negb (d_meta i);
  instr_is_ubr := demo_is KJmp;
  instr_is_call_direct := fun _ => false;
  instr_get_target := d_dst;
  instr_get_app_pc := d_pc;
  instr_is_label := demo_is KLabel;
  instr_get_note := d_note;
  instr_set_note := fun i n =>
    {| d_opcode := d_opcode i; d_dst := d_dst i; d_src := d_src i; d_meta := d_meta i;
       d_note := n; d_lock := d_lock i; d_pc := d_pc i |};
  instr_set_meta := fun i =>
    {| d_opcode := d_opcode i; d_dst := d_dst i; d_src := d_src i; d_meta := true;
       d_note := d_note i; d_lock := d_lock i; d_pc := d_pc i |};
  opnd_is_pc := fun o => match o with OPc _ => true | _ => false end;
  opnd_get_pc := fun o => match o with OPc pc => pc | _ => 0 end;
  opnd_create_reg := OReg;
  OPND_CREATE_INT8 := OInt;
  OPND_CREATE_INT32 := OInt;
  OPND_CREATE_ABSMEM := OAbs;
  INSTR_CREATE_label := demo_new KLabel (OInt 0) (OInt 0);
  INSTR_CREATE_lahf := demo_new KLahf (OReg 1) (OInt 0);
  INSTR_CREATE_sahf := demo_new KSahf (OInt 0) (OReg 1);
  INSTR_CREATE_setcc := fun _ o => demo_new KSetcc o (OInt 0);
  INSTR_CREATE_add := demo_new KAdd;
  INSTR_CREATE_adc := demo_new KAdc;
  INSTR_CREATE_mov_st := demo_new KMov;
  LOCK := fun i =>
    {| d_opcode := d_opcode i; d_dst := d_dst i; d_src := d_src i; d_meta := d_meta i;
       d_note := d_note i; d_lock := true; d_pc := d_pc i |};
  dr_save_reg := fun r slot =>
    [{| d_opcode := KSpill; d_dst := OInt slot; d_src := OReg r; d_meta := true;
        d_note := 0; d_lock := false; d_pc := 0 |}];
  dr_restore_reg := fun r slot =>
    [{| d_opcode := KUnspill; d_dst := OReg r; d_src := OInt slot; d_meta := true;
        d_note := 0; d_lock := false; d_pc := 0 |}];
  proc_get_cache_line_size := 64;
  EFLAGS_READ_6 := 0x11f;
  EFLAGS_WRITE_6 := 0x8f800;
  DR_REG_NULL := 0;
  DR_REG_XAX := 1;
  DR_REG_AL := 17;
  OP_seto := 0x90;
  OPSZ_4 := 4;
  OPSZ_8 := 8;
  SPILL_SLOT_1 := 0;
  SPILL_SLOT_MAX := 8;
  DRX_COUNTER_64BIT := 0x01;
  DRX_COUNTER_LOCK := 0x10;
  X64 := false
|}.

(** An application block: a load, a compare and a jump. *)
Definition demo_block : list demo_instr :=
  [demo_app KLoad (OReg 2) (OAbs 0x7000 4) 0x401000;
   demo_app KCmp (OReg 2) (OInt 0) 0x401004;
   demo_app KJmp (OPc 0x401100) (OInt 0) 0x401008].

(** An application block whose first instruction reads the carry flag. *)
Definition demo_live_block : list demo_instr :=
  [demo_app KAdc (OReg 2) (OInt 0) 0x401000;
   demo_app KJmp (OPc 0x401100) (OInt 0) 0x401004].

(** ** The instructions that the instrumentation inserts *)

Section Inserted.
Context {instr_t opnd_t : Type} `{API : instr_api instr_t opnd_t}.
Variable note_base : Z.

(** The counter update itself: the add, with the adc of the upper half for a
    64-bit counter where [X64] is not defined. *)
Definition counter_instrs (addr value flags : Z) : list instr_t :=
  let is_64 := TEST DRX_COUNTER_64BIT flags in
  let add := INSTR_CREATE_add
               (OPND_CREATE_ABSMEM addr
                  (if X64 then (if is_64 then OPSZ_8 else OPSZ_4) else OPSZ_4))
               (OPND_CREATE_INT32 value) in
  [instr_set_meta (if TEST DRX_COUNTER_LOCK flags then LOCK add else add)] ++
  (if negb X64 && is_64
   then [instr_set_meta (INSTR_CREATE_adc (OPND_CREATE_ABSMEM (addr + 4) OPSZ_4)
                           (OPND_CREATE_INT32 0))]
   else []).

(** The two labels of a restore of the flags. *)
Definition restore_begin_label : instr_t :=
  instr_set_meta (instr_set_note INSTR_CREATE_label
                    (NOTE_VAL note_base DRX_NOTE_AFLAGS_RESTORE_BEGIN)).
Definition restore_end_label : instr_t :=
  instr_set_meta (instr_set_note INSTR_CREATE_label
                    (NOTE_VAL note_base DRX_NOTE_AFLAGS_RESTORE_END)).

(** A restore of the flags as [merge_prev_drx_aflags_switch] wants to find
    it just before [where]: a meta label with the BEGIN note, then
    instructions that are neither labels nor of the application, then a label
    with the END note. *)
Definition is_restore (mid : list instr_t) : Prop :=
  exists B body Eend,
    mid = B :: body ++ [Eend] /\
    instr_ok_to_mangle B = false /\ instr_is_label B = true /\
    instr_get_note B = NOTE_VAL note_base DRX_NOTE_AFLAGS_RESTORE_BEGIN /\
    Forall restore_body body /\
    instr_is_label Eend = true /\
    instr_get_note Eend = NOTE_VAL note_base DRX_NOTE_AFLAGS_RESTORE_END.

(** Why [drx_insert_counter_update] returns false. *)
Definition counter_update_refused (drcontext slot addr flags : Z) : Prop :=
  drcontext = 0 \/ slot < SPILL_SLOT_1 \/ SPILL_SLOT_MAX < slot \/
  (TEST DRX_COUNTER_LOCK flags = true /\
   ((X64 = false /\ TEST DRX_COUNTER_64BIT flags = true) \/
    counter_crosses_cache_line addr (if TEST DRX_COUNTER_64BIT flags then 8 else 4)
    = true)).

End Inserted.

(** The note base of the examples. *)
Definition demo_note_base : Z := 0x100.

(** ** A file system, for running the logging routines

    [dr_snprintf] prints what the C formats say, [%04d] and [%05d] being
    the decimal digits padded with zeros to the width, and answers -1 when
    the text does not fit the buffer.  The names in [taken] exist already,
    and a new file gets the handle 3. *)
Fixpoint demo_digits (fuel : nat) (n : Z) (acc : string) : string :=
  match fuel with
  | O => acc
  | S fuel' =>
      let acc' := String (Ascii.ascii_of_nat (48 + Z.to_nat (n mod 10))) acc in
      if n / 10 =? 0 then acc' else demo_digits fuel' (n / 10) acc'
  end.

Fixpoint demo_zeros (n : nat) (s : string) : string :=
  match n with
  | O => s
  | S n' => String (Ascii.ascii_of_nat 48) (demo_zeros n' s)
  end.

(** [%0<width>d] *)
Definition demo_d (width : nat) (n : Z) : string :=
  let digits := demo_digits 20 (Z.abs n) EmptyString in
  if n <? 0
  then String (Ascii.ascii_of_nat 45) (demo_zeros (width - 1 - String.length digits) digits)
  else demo_zeros (width - String.length digits) digits.

(** Printing [text] into a buffer of [max] characters that is then
    terminated at its last character. *)
Definition demo_snprintf (max : nat) (text : string) : Z * string :=
  if (String.length text <? max)%nat then (Z.of_nat (String.length text), text)
  else (if (String.length text =? max)%nat then Z.of_nat max else -1,
        String.substring 0 (max - 1) text).

Definition demo_log (taken : list string) : log_api :=
  {| dr_snprintf_unique := fun dir prefix i suffix =>
       demo_snprintf 260
         (dir ++ "/" ++ prefix ++ "." ++ demo_d 4 i ++ "." ++ suffix)%string;
     dr_snprintf_result := fun result_len buf =>
       String.substring 0 (Z.to_nat result_len) buf;
     dr_snprintf_appid := fun prefix app_name id =>
       demo_snprintf 260 (prefix ++ "." ++ app_name ++ "." ++ demo_d 5 id)%string;
     dr_open_file := fun name _ => if existsb (String.eqb name) taken then -1 else 3;
     dr_get_application_name := Some "app"%string;
     INVALID_FILE := -1;
     DR_FILE_WRITE_REQUIRE_NEW := 0x40;
     MAXIMUM_PATH := 260;
     size_t_bits := 64 |}.

(** ** Vocabulary for the logging routines

    The [i]-th candidate name of [drx_open_unique_file] and the answer to
    opening it. *)
Definition candidate (L : log_api) (dir prefix suffix : string) (i : Z) : string :=
  snd (dr_snprintf_unique L dir prefix i suffix).

Definition try_open (L : log_api) (dir prefix suffix : string) (extra_flags : Z)
    (i : Z) : Z :=
  dr_open_file L (candidate L dir prefix suffix i)
    (Z.lor (DR_FILE_WRITE_REQUIRE_NEW L) extra_flags).

(** * Properties *)

Arguments soft_kills_invoke_cbs : simpl never.
Arguments soft_kills_handle_job_termination : simpl never.
Arguments soft_kills_handle_close : simpl never.
Arguments soft_kills_init : simpl never.
Arguments soft_kills_exit : simpl never.
Arguments drx_register_soft_kills : simpl never.

(** ** The fan-out *)

Section Fanout.
Context {W : Type} (E : dr_env W).

Lemma after_nil (s : drx_state W) : after [] (client s) s = s.
Proof. destruct s; unfold after; cbn. by rewrite app_nil_r. Qed.

Lemma after_after evs1 w1 evs2 w2 (s : drx_state W) :
  after evs2 w2 (after evs1 w1 s) = after (evs1 ++ evs2) w2 s.
Proof. unfold after; cbn. by rewrite app_assoc. Qed.

Lemma cb_results_length cbs pid exit_code w :
  length (fst (cb_results E cbs pid exit_code w)) = length cbs.
Proof.
  revert w; induction cbs as [|cb rest IH]; intros w; cbn; [done|].
  destruct (call_cb E cb pid exit_code w) as [r w1].
  specialize (IH w1). destruct (cb_results E rest pid exit_code w1) as [rs w2].
  cbn in *. by rewrite IH.
Qed.

Lemma called_cb_events pid exit_code cbs rs :
  length rs = length cbs ->
  omap called (cb_events pid exit_code cbs rs) = cbs.
Proof.
  revert rs; induction cbs as [|cb rest IH]; intros [|r rs] Hlen; cbn in *;
    try done.
  f_equal. apply IH. lia.
Qed.

Lemma invoke_cbs_from_spec e pid exit_code skip (s : drx_state W) :
  invoke_cbs_from E e pid exit_code skip s =
  let (rs, w) := cb_results E e pid exit_code (client s) in
  (existsb id rs || skip, after (cb_events pid exit_code e rs) w s).
Proof.
  revert skip s; induction e as [|cb next IH]; intros skip s; cbn.
  - unfold ret. by rewrite after_nil.
  - unfold bind, invoke_cb.
    destruct (call_cb E cb pid exit_code (client s)) as [r w1] eqn:Hr.
    rewrite IH; cbn.
    destruct (cb_results E next pid exit_code w1) as [rs w2]; cbn.
    f_equal.
    + by destruct r, skip, (existsb id rs).
    + unfold after; cbn. by rewrite <- app_assoc.
Qed.

Lemma soft_kills_invoke_cbs_spec pid exit_code (s : drx_state W) :
  soft_kills_invoke_cbs E pid exit_code s =
  let (rs, w) := cb_results E (cb_list s) pid exit_code (client s) in
  (existsb id rs, after (cb_events pid exit_code (cb_list s) rs) w s).
Proof.
  unfold soft_kills_invoke_cbs, dr_mutex_lock, dr_mutex_unlock, bind, gets, ret.
  rewrite invoke_cbs_from_spec.
  destruct (cb_results E (cb_list s) pid exit_code (client s)) as [rs w].
  by rewrite orb_false_r.
Qed.

End Fanout.

(** ** Stepping through the monad *)

Section Keeps.
Context {W : Type}.
Variable R : drx_state W -> drx_state W -> Prop.
Hypothesis R_refl : forall s, R s s.
Hypothesis R_trans : forall s1 s2 s3, R s1 s2 -> R s2 s3 -> R s1 s3.

Lemma keeps_ret {A : Type} (a : A) : keeps R (ret a).
Proof. intros s. apply R_refl. Qed.

Lemma keeps_gets {A : Type} (f : drx_state W -> A) : keeps R (gets f).
Proof. intros s. apply R_refl. Qed.

Lemma keeps_bind {A B : Type} (m : M W A) (k : A -> M W B) :
  keeps R m -> (forall a, keeps R (k a)) -> keeps R (bind m k).
Proof.
  intros Hm Hk s. unfold bind. specialize (Hm s).
  destruct (m s) as [a s1]; cbn in *.
  eapply R_trans; [exact Hm | apply Hk].
Qed.

Lemma keeps_modify (f : drx_state W -> drx_state W) :
  (forall s, R s (f s)) -> keeps R (modify f).
Proof. intros Hf s. apply Hf. Qed.

Lemma keeps_if {A : Type} (b : bool) (m1 m2 : M W A) :
  keeps R m1 -> keeps R m2 -> keeps R (if b then m1 else m2).
Proof. by destruct b. Qed.

End Keeps.

Section Activation.
Context {W : Type} (E : dr_env W).

Lemma same_registry_refl (s : drx_state W) : same_registry s s.
Proof. by repeat split. Qed.

Lemma same_registry_trans (s1 s2 s3 : drx_state W) :
  same_registry s1 s2 -> same_registry s2 s3 -> same_registry s1 s3.
Proof.
  unfold same_registry. intros (?&?&?&?&?&?&?) (?&?&?&?&?&?&?).
  repeat split; congruence.
Qed.

Ltac keeps_step :=
  first [ apply keeps_ret; exact same_registry_refl
        | apply keeps_gets; exact same_registry_refl
        | apply keeps_modify; intros ?; by repeat split
        | apply keeps_if
        | apply keeps_bind; [exact same_registry_trans | | intros ?] ].

Lemma soft_kills_get_sysnum_keeps name n i :
  keeps same_registry (soft_kills_get_sysnum (W:=W) E name n i).
Proof.
  intros s. unfold soft_kills_get_sysnum.
  repeat (case_match; cbn; try by repeat split).
Qed.

Lemma soft_kills_init_keeps : keeps same_registry (soft_kills_init (W:=W) E).
Proof.
  unfold soft_kills_init, soft_kills_init_windows, resolve_sysnum,
    intercept_natively, emit.
  repeat first [ apply soft_kills_get_sysnum_keeps | keeps_step ].
Qed.

End Activation.

(** ** The handle table *)

Section HandleTable.

Lemma HASHTABLE_SIZE_pow2 bits : 0 <= bits -> HASHTABLE_SIZE bits = 2 ^ bits.
Proof. intros Hb. unfold HASHTABLE_SIZE. by rewrite Z.shiftl_1_l. Qed.

Lemma hash_key_lt (t : hashtable_t) (k : Z) :
  0 <= table_bits t ->
  (hash_key t k < Z.to_nat (HASHTABLE_SIZE (table_bits t)))%nat.
Proof.
  intros Hb. unfold hash_key.
  rewrite HASHTABLE_SIZE_pow2 by done.
  replace (2 ^ table_bits t - 1) with (Z.ones (table_bits t))
    by (rewrite Z.ones_equiv; lia).
  rewrite Z.land_ones by done.
  pose proof (Z.mod_pos_bound k (2 ^ table_bits t)) as Hm.
  assert (0 < 2 ^ table_bits t) by (apply Z.pow_pos_nonneg; lia).
  lia.
Qed.

Lemma chain_has_In k chain : chain_has k chain = true <-> In k (map key chain).
Proof.
  unfold chain_has. rewrite existsb_exists, in_map_iff. split.
  - intros (e & Hin & He). exists e. split; [lia|done].
  - intros (e & He & Hin). exists e. split; [done|lia].
Qed.

Lemma chain_remove_fst k chain : fst (chain_remove k chain) = chain_has k chain.
Proof.
  induction chain as [|e next IH]; cbn; [done|].
  destruct (key e =? k); cbn; [done|].
  destruct (chain_remove k next); cbn in *. done.
Qed.

Lemma chain_remove_absent k chain :
  chain_has k chain = false -> chain_remove k chain = (false, chain).
Proof.
  induction chain as [|e next IH]; cbn; [done|].
  destruct (key e =? k); cbn; [done|].
  intros Hn. by rewrite (IH Hn).
Qed.

Lemma chain_remove_In k chain e :
  In e (snd (chain_remove k chain)) -> In e chain.
Proof.
  induction chain as [|e0 next IH]; cbn; [done|].
  destruct (key e0 =? k); cbn; [by right|].
  destruct (chain_remove k next) as [res next']; cbn in *.
  intros [<- | Hin]; [by left | right; by apply IH].
Qed.

Lemma chain_remove_other k k' chain :
  k' <> k -> chain_has k' (snd (chain_remove k chain)) = chain_has k' chain.
Proof.
  intros Hne. induction chain as [|e next IH]; cbn; [done|].
  destruct (Z.eqb_spec (key e) k) as [He|He]; cbn.
  - destruct (Z.eqb_spec (key e) k'); [congruence|done].
  - destruct (chain_remove k next) as [res next']; cbn in *. by rewrite IH.
Qed.

Lemma chain_remove_NoDup k chain :
  NoDup (map key chain) -> NoDup (map key (snd (chain_remove k chain))).
Proof.
  induction chain as [|e next IH]; cbn; [done|].
  intros Hnd. apply NoDup_cons in Hnd as [Hnotin Hnd]. rewrite list_elem_of_In in Hnotin.
  destruct (key e =? k); cbn; [done|].
  specialize (IH Hnd).
  destruct (chain_remove k next) as [res next'] eqn:Hrem; cbn in *.
  apply NoDup_cons. rewrite list_elem_of_In. split; [|done].
  intros Hin. apply Hnotin. apply in_map_iff in Hin as (e' & He' & Hin).
  apply in_map_iff. exists e'. split; [done|].
  apply (chain_remove_In k). by rewrite Hrem.
Qed.

Lemma chain_remove_gone k chain :
  NoDup (map key chain) -> chain_has k (snd (chain_remove k chain)) = false.
Proof.
  induction chain as [|e next IH]; cbn; [done|].
  intros Hnd. apply NoDup_cons in Hnd as [Hnotin Hnd]. rewrite list_elem_of_In in Hnotin.
  destruct (Z.eqb_spec (key e) k) as [He|He]; cbn.
  - apply not_true_is_false. intros Hin. apply chain_has_In in Hin. congruence.
  - specialize (IH Hnd). destruct (chain_remove k next) as [res next']; cbn in *.
    rewrite IH. by destruct (Z.eqb_spec (key e) k).
Qed.

Lemma chain_at_insert (t : hashtable_t) i chain :
  (i < length (table t))%nat ->
  chain_at {| table_bits := table_bits t; table := <[i := chain]> (table t) |} i = chain.
Proof. intros Hi. unfold chain_at; cbn. by rewrite list_lookup_insert_eq. Qed.

Lemma chain_at_insert_ne (t : hashtable_t) i j chain :
  i <> j ->
  chain_at {| table_bits := table_bits t; table := <[i := chain]> (table t) |} j =
  chain_at t j.
Proof. intros Hij. unfold chain_at; cbn. by rewrite list_lookup_insert_ne. Qed.

Lemma insert_chain_at (t : hashtable_t) i :
  <[i := chain_at t i]> (table t) = table t.
Proof.
  unfold chain_at. destruct (table t !! i) as [chain|] eqn:Hl; cbn.
  - by apply list_insert_id.
  - apply list_insert_ge. by apply lookup_ge_None.
Qed.

Lemma hashtable_remove_absent (t : hashtable_t) k :
  tracked t k = false -> hashtable_remove t k = (false, t).
Proof.
  unfold tracked, hashtable_remove. intros Hn.
  rewrite (chain_remove_absent _ _ Hn), insert_chain_at. by destruct t.
Qed.

Lemma hashtable_remove_fst (t : hashtable_t) k :
  fst (hashtable_remove t k) = tracked t k.
Proof.
  unfold hashtable_remove, tracked.
  rewrite <- chain_remove_fst. by destruct (chain_remove _ _).
Qed.

Lemma tracked_remove_gone (t : hashtable_t) k :
  job_table_ok t -> tracked (snd (hashtable_remove t k)) k = false.
Proof.
  intros (Hb & Hlen & Hch). unfold hashtable_remove, tracked.
  pose proof (hash_key_lt t k Hb) as Hlt. rewrite <- Hlen in Hlt.
  destruct (chain_remove k (chain_at t (hash_key t k))) as [res chain] eqn:Hrem.
  cbn [snd]. change (hash_key {| table_bits := _; table := _ |} k) with (hash_key t k).
  rewrite chain_at_insert by done.
  replace chain with (snd (chain_remove k (chain_at t (hash_key t k))))
    by (by rewrite Hrem).
  apply chain_remove_gone.
  destruct (lookup_lt_is_Some_2 _ _ Hlt) as [c Hc].
  unfold chain_at. rewrite Hc. cbn. by apply (Hch _ _ Hc).
Qed.

Lemma tracked_remove_other (t : hashtable_t) k k' :
  k' <> k -> tracked (snd (hashtable_remove t k)) k' = tracked t k'.
Proof.
  intros Hne. unfold hashtable_remove, tracked.
  destruct (chain_remove k (chain_at t (hash_key t k))) as [res chain] eqn:Hrem.
  cbn [snd]. change (hash_key {| table_bits := _; table := _ |} k') with (hash_key t k').
  destruct (decide (hash_key t k = hash_key t k')) as [Heq|Hneq].
  - rewrite <- Heq.
    destruct (decide (hash_key t k < length (table t))%nat) as [Hlt|Hge].
    + rewrite chain_at_insert by done.
      replace chain with (snd (chain_remove k (chain_at t (hash_key t k))))
        by (by rewrite Hrem).
      by apply chain_remove_other.
    + unfold chain_at at 1; cbn. rewrite list_insert_ge by lia. done.
  - by rewrite chain_at_insert_ne.
Qed.

Lemma tracked_add (t : hashtable_t) k p :
  job_table_ok t -> tracked (snd (hashtable_add t k p)) k = true.
Proof.
  intros (Hb & Hlen & _). unfold hashtable_add.
  destruct (chain_has k (chain_at t (hash_key t k))) eqn:Hhas; cbn [snd]; [done|].
  unfold tracked.
  change (hash_key {| table_bits := _; table := _ |} k) with (hash_key t k).
  pose proof (hash_key_lt t k Hb) as Hlt. rewrite <- Hlen in Hlt.
  rewrite chain_at_insert by done. cbn. by rewrite Z.eqb_refl.
Qed.

Lemma tracked_add_other (t : hashtable_t) k p k' :
  tracked t k' = true -> tracked (snd (hashtable_add t k p)) k' = true.
Proof.
  intros Htr. unfold hashtable_add.
  destruct (chain_has k (chain_at t (hash_key t k))) eqn:Hhas; cbn [snd]; [done|].
  unfold tracked in *.
  change (hash_key {| table_bits := _; table := _ |} k') with (hash_key t k').
  destruct (decide (hash_key t k = hash_key t k')) as [Heq|Hneq].
  - rewrite <- Heq in *.
    destruct (decide (hash_key t k < length (table t))%nat) as [Hlt|Hge].
    + rewrite chain_at_insert by done. unfold chain_has in *. cbn.
      rewrite Htr. by rewrite orb_true_r.
    + unfold chain_at at 1; cbn. rewrite list_insert_ge by lia. done.
  - by rewrite chain_at_insert_ne.
Qed.

Lemma job_table_ok_init bits : 0 <= bits -> job_table_ok (hashtable_init bits).
Proof.
  intros Hb. unfold job_table_ok, hashtable_init; cbn. repeat split; try done.
  - by rewrite length_replicate.
  - apply lookup_replicate in H as [-> _]. constructor.
  - apply lookup_replicate in H as [-> _]. done.
  - apply lookup_replicate in H as [-> _]. done.
Qed.

Lemma job_table_ok_add (t : hashtable_t) k :
  job_table_ok t -> job_table_ok (snd (hashtable_add t k k)).
Proof.
  intros Hok. pose proof Hok as (Hb & Hlen & Hch). unfold hashtable_add.
  destruct (chain_has k (chain_at t (hash_key t k))) eqn:Hhas; cbn [snd]; [done|].
  pose proof (hash_key_lt t k Hb) as Hlt. rewrite <- Hlen in Hlt.
  split; [done|]. split; [cbn; by rewrite length_insert|].
  intros i chain Hi. cbn in Hi.
  destruct (decide (hash_key t k = i)) as [<-|Hne].
  - rewrite list_lookup_insert_eq in Hi by done. injection Hi as <-.
    destruct (lookup_lt_is_Some_2 _ _ Hlt) as [c Hc].
    assert (Hcat : chain_at t (hash_key t k) = c) by (unfold chain_at; by rewrite Hc).
    rewrite Hcat in *. destruct (Hch _ _ Hc) as [Hnd Hall].
    split.
    + cbn. apply NoDup_cons. rewrite list_elem_of_In. split; [|done].
      intros Hin. apply chain_has_In in Hin. congruence.
    + intros e [<- | Hin]; [done|]. by apply Hall.
  - rewrite list_lookup_insert_ne in Hi by done. by apply Hch.
Qed.

Lemma job_table_ok_remove (t : hashtable_t) k :
  job_table_ok t -> job_table_ok (snd (hashtable_remove t k)).
Proof.
  intros Hok. pose proof Hok as (Hb & Hlen & Hch). unfold hashtable_remove.
  destruct (chain_remove k (chain_at t (hash_key t k))) as [res chain] eqn:Hrem.
  cbn [snd].
  pose proof (hash_key_lt t k Hb) as Hlt. rewrite <- Hlen in Hlt.
  split; [done|]. split; [cbn; by rewrite length_insert|].
  intros i c' Hi. cbn in Hi.
  destruct (decide (hash_key t k = i)) as [<-|Hne].
  - rewrite list_lookup_insert_eq in Hi by done. injection Hi as <-.
    destruct (lookup_lt_is_Some_2 _ _ Hlt) as [c Hc].
    assert (Hcat : chain_at t (hash_key t k) = c) by (unfold chain_at; by rewrite Hc).
    rewrite Hcat in *. destruct (Hch _ _ Hc) as [Hnd Hall].
    replace chain with (snd (chain_remove k c)) by (by rewrite Hrem).
    split.
    + by apply chain_remove_NoDup.
    + intros e Hin. apply Hall. by apply (chain_remove_In k).
  - rewrite list_lookup_insert_ne in Hi by done. by apply Hch.
Qed.

(** The sweep meets exactly the handles in the table. *)
Lemma tracked_jobs_tracked (t : hashtable_t) (h : HANDLE) :
  job_table_ok t -> In h (tracked_jobs t) <-> tracked t h = true.
Proof.
  intros (Hb & Hlen & Hch). unfold tracked_jobs, tracked. split.
  - intros Hin. apply in_map_iff in Hin as (e & He & Hin).
    apply in_concat in Hin as (chain & Hchain & Hin).
    apply list_elem_of_In, list_elem_of_lookup in Hchain as [i Hi].
    destruct (Hch _ _ Hi) as [_ Hall]. destruct (Hall e Hin) as [Hhash Hpay].
    apply chain_has_In. rewrite <- He, Hpay, Hhash. unfold chain_at. rewrite Hi. cbn.
    by apply in_map.
  - intros Hhas. apply chain_has_In in Hhas.
    apply in_map_iff in Hhas as (e & He & Hin).
    unfold chain_at in Hin.
    destruct (table t !! hash_key t h) as [chain|] eqn:Hi; cbn in Hin; [|done].
    destruct (Hch _ _ Hi) as [_ Hall]. destruct (Hall e Hin) as [_ Hpay].
    apply in_map_iff. exists e. split; [congruence|].
    apply in_concat. exists chain. split; [|done].
    apply list_elem_of_In, list_elem_of_lookup. by exists (hash_key t h).
Qed.

End HandleTable.

(** ** C1: the callback fan-out *)

Section Registration.
Context {W : Type} (E : dr_env W).

Lemma drx_register_soft_kills_spec f (s : drx_state W) :
  let (r, s') := drx_register_soft_kills E f s in
  r = true /\ cb_list s' = f :: cb_list s /\ client s' = client s.
Proof.
  unfold drx_register_soft_kills, bind, modify, ret, dr_mutex_lock, dr_mutex_unlock,
    dr_atomic_add32_return_sum_soft_kills_init_count.
  destruct (_ =? 1); cbn; [|done].
  pose proof (soft_kills_init_keeps E
                (set_soft_kills_init_count (to_int (soft_kills_init_count s + 1)) s))
    as (Hcb & Hw & _).
  destruct (soft_kills_init E _) as [ok s1]; cbn in *.
  by rewrite Hcb, Hw.
Qed.

Lemma register_all_spec fs (s : drx_state W) :
  let s' := snd (register_all E fs s) in
  cb_list s' = rev fs ++ cb_list s /\ client s' = client s.
Proof.
  revert s; induction fs as [|f rest IH]; intros s; cbn; [done|].
  unfold bind. pose proof (drx_register_soft_kills_spec f s) as Hreg.
  destruct (drx_register_soft_kills E f s) as [r s1].
  destruct Hreg as (_ & Hcb & Hw). destruct (IH s1) as [IHcb IHw].
  rewrite IHcb, IHw, Hcb, Hw. by rewrite <- app_assoc.
Qed.

End Registration.

(** C1 (as amended).  After the callbacks [fs] have been registered in this
    order on an empty list, one [soft_kills_invoke_cbs] calls every one of
    them exactly once, the last registered first (in the reverse of the order
    of registration), whatever each of them answers, and returns true exactly
    when one of the answers is true. *)
Theorem C1_fanout_calls_all_in_reverse_registration_order
    {W : Type} (E : dr_env W) (fs : list fnptr) (pid : process_id_t) (exit_code : Z)
    (s : drx_state W) :
  cb_list s = [] ->
  let s1 := snd (register_all E fs s) in
  let rs := fst (cb_results E (rev fs) pid exit_code (client s1)) in
  let w := snd (cb_results E (rev fs) pid exit_code (client s1)) in
  let evs := cb_events pid exit_code (rev fs) rs in
  soft_kills_invoke_cbs E pid exit_code s1 = (existsb id rs, after evs w s1) /\
  omap called evs = rev fs /\
  length evs = length fs /\
  (existsb id rs = true <-> In true rs).
Proof.
  intros Hnil. cbn zeta.
  destruct (register_all_spec E fs s) as [Hcb _].
  rewrite Hnil, app_nil_r in Hcb.
  set (s1 := snd (register_all E fs s)) in *.
  pose proof (cb_results_length E (rev fs) pid exit_code (client s1)) as Hlen.
  pose proof (soft_kills_invoke_cbs_spec E pid exit_code s1) as Hinv.
  rewrite Hcb in Hinv.
  destruct (cb_results E (rev fs) pid exit_code (client s1)) as [rs w]; cbn in *.
  repeat split.
  - exact Hinv.
  - by apply called_cb_events.
  - unfold cb_events. rewrite length_zip_with, Hlen, length_rev. lia.
  - rewrite existsb_exists. intros (x & Hin & Hx). unfold id in Hx. by subst.
  - intros Hin. apply existsb_exists. by exists true.
Qed.

Lemma C1_fanout_witness :
  omap called
    (cb_events 7 0 (rev [1; 2])
       (fst (cb_results unix_env (rev [1; 2]) 7 0 (client unix_registered)))) =
  rev [1; 2].
Proof.
  apply (C1_fanout_calls_all_in_reverse_registration_order unix_env [1; 2] 7 0
           demo_state).
  reflexivity.
Defined.

(** C1 as stated fails: registered in the order 1, 2, the callbacks are
    called in the order 2, 1. *)
Lemma C1_registration_order_counterexample :
  cb_list unix_registered = [2; 1] /\
  trace (snd (soft_kills_invoke_cbs unix_env 7 0 unix_registered)) =
    trace unix_registered ++ [EvCallback 2 7 0 false; EvCallback 1 7 0 false] /\
  omap called
    (drop (length (trace unix_registered))
       (trace (snd (soft_kills_invoke_cbs unix_env 7 0 unix_registered)))) <> [1; 2].
Proof. vm_compute. repeat split; discriminate. Qed.

(** ** C3, C7, C8, C10: killing one process *)

Section DirectTermination.
Context {W : Type} (E : dr_env W).

Lemma windows_pre_TerminateProcess sysnum (s : drx_state W) :
  sysnum = sysnum_TerminateProcess s ->
  Windows.soft_kills_pre_syscall E sysnum s =
  let pid := dr_convert_handle_to_pid E (sys_param s 0%nat) in
  let exit_code := to_int (sys_param s 1%nat) in
  if negb (pid =? INVALID_PROCESS_ID E) && negb (pid =? dr_get_process_id E) then
    let (rs, w) := cb_results E (cb_list s) pid exit_code (client s) in
    let s1 := after (cb_events pid exit_code (cb_list s) rs) w s in
    if existsb id rs then (false, set_sys_result (Some 0) s1) else (true, s1)
  else (true, s).
Proof.
  intros ->. unfold Windows.soft_kills_pre_syscall. rewrite Z.eqb_refl.
  unfold bind, gets, ret; cbn zeta.
  destruct (negb _ && negb _); [|done].
  rewrite soft_kills_invoke_cbs_spec.
  destruct (cb_results E _ _ _ _) as [rs w].
  by destruct (existsb id rs).
Qed.

Lemma unix_pre_kill sysnum (s : drx_state W) :
  sysnum = SYS_kill E ->
  Unix.soft_kills_pre_syscall E sysnum s =
  let pid := to_process_id_t E (sys_param s 0%nat) in
  let sig := to_int (sys_param s 1%nat) in
  if (sig =? SIGKILL E) && negb (pid =? INVALID_PROCESS_ID E)
     && negb (pid =? dr_get_process_id E) then
    let (rs, w) := cb_results E (cb_list s) pid (Z.shiftl sig 8) (client s) in
    let s1 := after (cb_events pid (Z.shiftl sig 8) (cb_list s) rs) w s in
    if existsb id rs then (false, set_sys_result (Some 0) s1) else (true, s1)
  else (true, s).
Proof.
  intros ->. unfold Unix.soft_kills_pre_syscall. rewrite Z.eqb_refl.
  unfold bind, gets, ret; cbn zeta.
  destruct (_ && negb _ && negb _); [|done].
  rewrite soft_kills_invoke_cbs_spec.
  destruct (cb_results E _ _ _ _) as [rs w].
  by destruct (existsb id rs).
Qed.

Lemma unix_pre_other sysnum (s : drx_state W) :
  sysnum <> SYS_kill E -> Unix.soft_kills_pre_syscall E sysnum s = (true, s).
Proof.
  intros Hne. unfold Unix.soft_kills_pre_syscall.
  by destruct (Z.eqb_spec sysnum (SYS_kill E)).
Qed.

Lemma unix_pre_SIGKILL sysnum (s : drx_state W) :
  sysnum = SYS_kill E ->
  let pid := to_process_id_t E (sys_param s 0%nat) in
  let exit_code := Z.shiftl (SIGKILL E) 8 in
  to_int (sys_param s 1%nat) = SIGKILL E ->
  pid <> INVALID_PROCESS_ID E -> pid <> dr_get_process_id E ->
  let rs := fst (cb_results E (cb_list s) pid exit_code (client s)) in
  let w := snd (cb_results E (cb_list s) pid exit_code (client s)) in
  let s1 := after (cb_events pid exit_code (cb_list s) rs) w s in
  Unix.soft_kills_pre_syscall E sysnum s =
  if existsb id rs then (false, set_sys_result (Some 0) s1) else (true, s1).
Proof.
  intros Hsys pid exit_code Hsig Hinv Hself. cbn zeta.
  rewrite (unix_pre_kill sysnum s Hsys); cbn zeta.
  rewrite Hsig, Z.eqb_refl. fold pid exit_code.
  destruct (Z.eqb_spec pid (INVALID_PROCESS_ID E)); [done|].
  destruct (Z.eqb_spec pid (dr_get_process_id E)); [done|]. cbn.
  by destruct (cb_results E _ _ _ _).
Qed.

End DirectTermination.

(** C3.  A kill of one process other than the caller: on Windows
    NtTerminateProcess on a handle that converts to such a pid, on Unix
    kill with SIGKILL for such a pid.  The callbacks are all called; if one of
    them answers true, the result 0 is set and the system call is skipped; if
    none does, the system call is to be executed and nothing but the trace of
    the calls and the client has changed: no result is set, and parameters
    and memory are as they were. *)
Theorem C3_kill_follows_subscribers {W : Type} (E : dr_env W) (sysnum : Z)
    (s : drx_state W) :
  (sysnum = sysnum_TerminateProcess s ->
   let pid := dr_convert_handle_to_pid E (sys_param s 0%nat) in
   let exit_code := to_int (sys_param s 1%nat) in
   pid <> INVALID_PROCESS_ID E -> pid <> dr_get_process_id E ->
   let rs := fst (cb_results E (cb_list s) pid exit_code (client s)) in
   let w := snd (cb_results E (cb_list s) pid exit_code (client s)) in
   let s1 := after (cb_events pid exit_code (cb_list s) rs) w s in
   Windows.soft_kills_pre_syscall E sysnum s =
   if existsb id rs then (false, set_sys_result (Some 0) s1) else (true, s1)) /\
  (sysnum = SYS_kill E ->
   let pid := to_process_id_t E (sys_param s 0%nat) in
   let exit_code := Z.shiftl (SIGKILL E) 8 in
   to_int (sys_param s 1%nat) = SIGKILL E ->
   pid <> INVALID_PROCESS_ID E -> pid <> dr_get_process_id E ->
   let rs := fst (cb_results E (cb_list s) pid exit_code (client s)) in
   let w := snd (cb_results E (cb_list s) pid exit_code (client s)) in
   let s1 := after (cb_events pid exit_code (cb_list s) rs) w s in
   Unix.soft_kills_pre_syscall E sysnum s =
   if existsb id rs then (false, set_sys_result (Some 0) s1) else (true, s1)).
Proof.
  split.
  - intros Hsys pid exit_code Hinv Hself. cbn zeta.
    rewrite (windows_pre_TerminateProcess E sysnum s Hsys); cbn zeta.
    fold pid exit_code.
    destruct (Z.eqb_spec pid (INVALID_PROCESS_ID E)); [done|].
    destruct (Z.eqb_spec pid (dr_get_process_id E)); [done|]. cbn.
    by destruct (cb_results E _ _ _ _).
  - apply unix_pre_SIGKILL.
Qed.

(** The running example: callbacks 1 and 2 registered and activated, and a
    system call in flight. *)
Lemma windows_registered_sysnums :
  sysnum_TerminateProcess windows_registered = 44 /\
  sysnum_TerminateJobObject windows_registered = 45 /\
  sysnum_SetInformationJobObject windows_registered = 46 /\
  sysnum_Close windows_registered = 15.
Proof. by vm_compute. Qed.

Lemma C3_kill_witness :
  Windows.soft_kills_pre_syscall windows_env 44
    (enter_syscall [0x108; 1] windows_registered) =
  (false,
   set_sys_result (Some 0)
     (after [EvCallback 2 8 1 true; EvCallback 1 8 1 false] 2%nat
        (enter_syscall [0x108; 1] windows_registered))) /\
  Unix.soft_kills_pre_syscall unix_env 62 (enter_syscall [8; 9] unix_registered) =
  (true,
   after [EvCallback 2 8 2304 false; EvCallback 1 8 2304 false] 2%nat
     (enter_syscall [8; 9] unix_registered)).
Proof.
  split.
  - apply (proj1 (C3_kill_follows_subscribers windows_env 44
                    (enter_syscall [0x108; 1] windows_registered)));
      vm_compute; congruence.
  - apply (proj2 (C3_kill_follows_subscribers unix_env 62
                    (enter_syscall [8; 9] unix_registered)));
      vm_compute; congruence.
Defined.

(** C7.  A kill whose target cannot be resolved or is the caller's own
    process: the pre-syscall event answers that the system call is to be
    executed and leaves the whole state as it was, so no callback has been
    called and no result has been set, whatever is registered. *)
Theorem C7_self_or_unresolved_never_intercepted {W : Type} (E : dr_env W) (sysnum : Z)
    (s : drx_state W) :
  (sysnum = sysnum_TerminateProcess s ->
   let pid := dr_convert_handle_to_pid E (sys_param s 0%nat) in
   pid = INVALID_PROCESS_ID E \/ pid = dr_get_process_id E ->
   Windows.soft_kills_pre_syscall E sysnum s = (true, s)) /\
  (sysnum = SYS_kill E ->
   let pid := to_process_id_t E (sys_param s 0%nat) in
   pid = INVALID_PROCESS_ID E \/ pid = dr_get_process_id E ->
   Unix.soft_kills_pre_syscall E sysnum s = (true, s)).
Proof.
  split.
  - intros Hsys pid Hpid.
    rewrite (windows_pre_TerminateProcess E sysnum s Hsys); cbn zeta. fold pid.
    destruct Hpid as [-> | ->]; rewrite Z.eqb_refl; cbn; [done|].
    by rewrite andb_false_r.
  - intros Hsys pid Hpid.
    rewrite (unix_pre_kill E sysnum s Hsys); cbn zeta. fold pid.
    destruct Hpid as [-> | ->]; rewrite Z.eqb_refl; cbn;
      by rewrite ?andb_false_r.
Qed.

Lemma C7_self_witness :
  let sw := enter_syscall [-1; 1]
              (snd (register_all (always_skip_env true) [1] demo_state)) in
  let su := enter_syscall [1000; 9]
              (snd (register_all (always_skip_env false) [1] demo_state)) in
  Windows.soft_kills_pre_syscall (always_skip_env true) 44 sw = (true, sw) /\
  Unix.soft_kills_pre_syscall (always_skip_env false) 62 su = (true, su).
Proof.
  split.
  - apply (proj1 (C7_self_or_unresolved_never_intercepted (always_skip_env true) 44 _));
      vm_compute; auto.
  - apply (proj2 (C7_self_or_unresolved_never_intercepted (always_skip_env false) 62 _));
      vm_compute; auto.
Defined.

(** ** C4: killing a job *)

Section JobTermination.
Context {W : Type} (E : dr_env W).

(** When the kernel wrote all the slots that the loop reads, the loop reads
    what the kernel wrote. *)
Lemma job_pids_read_filled (l : list process_id_t) num_jobs list :
  take (length l) (ProcessIdList list) = l ->
  job_pids_read E num_jobs list 0 (length l) = l.
Proof.
  unfold job_pids_read, ProcessIdList_at.
  generalize (dr_thread_alloc_ProcessIdList E num_jobs) as g.
  generalize (ProcessIdList list) as L. clear list.
  induction l as [|a l IH]; intros L g Htake; [done|].
  destruct L as [|b L]; [done|]. cbn in Htake. injection Htake as -> Htake.
  cbn [length seq map]. f_equal.
  rewrite <- seq_shift, map_map. exact (IH L (fun i => g (S i)) Htake).
Qed.

Lemma job_termination_loop_spec num_jobs list n i exit_code (s : drx_state W) :
  job_termination_loop E num_jobs list n i exit_code s =
  let (evs, w) := members_outcome E (cb_list s) exit_code
                    (job_pids_read E num_jobs list i n) (client s) in
  (tt, after evs w s).
Proof.
  unfold job_pids_read.
  revert i s; induction n as [|n IH]; intros i s; cbn.
  - unfold ret. by rewrite after_nil.
  - unfold bind. rewrite soft_kills_invoke_cbs_spec.
    set (pid := ProcessIdList_at E num_jobs list i).
    destruct (cb_results E (cb_list s) pid exit_code (client s)) as [rs w1].
    unfold member_events.
    destruct (existsb id rs); cbn.
    + unfold ret. rewrite IH; cbn.
      destruct (members_outcome E (cb_list s) exit_code _ w1) as [evs w2].
      by rewrite after_after, app_nil_r.
    + destruct (dr_convert_pid_to_handle E pid =? INVALID_HANDLE_VALUE E); cbn.
      * unfold ret. rewrite IH; cbn.
        destruct (members_outcome E (cb_list s) exit_code _ w1) as [evs w2].
        by rewrite after_after, app_nil_r.
      * rewrite IH; cbn.
        destruct (members_outcome E (cb_list s) exit_code _ w1) as [evs w2].
        unfold after; cbn. by rewrite <- !app_assoc.
Qed.

(** The treatment of a job touches the trace and the client only. *)
Lemma soft_kills_handle_job_termination_after job exit_code (s : drx_state W) :
  exists evs w, soft_kills_handle_job_termination E job exit_code s = (tt, after evs w s).
Proof.
  unfold soft_kills_handle_job_termination.
  destruct (0 <? _); [|exists [], (client s); unfold ret; by rewrite after_nil].
  destruct (get_job_object_pids E job _) as [list|];
    [|exists [], (client s); unfold ret; by rewrite after_nil].
  rewrite job_termination_loop_spec.
  destruct (members_outcome E _ _ _ _) as [evs w]. by exists evs, w.
Qed.

Lemma soft_kills_handle_job_termination_spec job exit_code (s : drx_state W) :
  soft_kills_handle_job_termination E job exit_code s =
  let (evs, w) := job_outcome E (cb_list s) exit_code job (client s) in
  (tt, after evs w s).
Proof.
  unfold soft_kills_handle_job_termination, job_outcome.
  destruct (0 <? _); [|unfold ret; by rewrite after_nil].
  destruct (get_job_object_pids E job _) as [list|];
    [|unfold ret; by rewrite after_nil].
  apply job_termination_loop_spec.
Qed.

Lemma soft_kills_handle_job_termination_members job exit_code l (s : drx_state W) :
  job_members E job l ->
  soft_kills_handle_job_termination E job exit_code s =
  let (evs, w) := members_outcome E (cb_list s) exit_code l (client s) in
  (tt, after evs w s).
Proof.
  intros [Hnum Hlist]. unfold soft_kills_handle_job_termination. rewrite Hnum.
  destruct l as [|pid rest].
  - cbn. unfold ret. by rewrite after_nil.
  - destruct Hlist as (list & -> & Htake); [done|].
    replace (0 <? Z.of_nat (length (pid :: rest))) with true
      by (symmetry; apply Z.ltb_lt; cbn; lia).
    rewrite job_termination_loop_spec, Nat2Z.id.
    by rewrite (job_pids_read_filled _ _ _ Htake).
Qed.

Lemma soft_kills_handle_job_termination_fails job exit_code (s : drx_state W) :
  job_query_fails E job ->
  soft_kills_handle_job_termination E job exit_code s = (tt, s).
Proof.
  intros Hfail. unfold soft_kills_handle_job_termination.
  destruct (Z.ltb_spec 0 (num_job_object_pids E job)); [|done].
  destruct Hfail as [? | ->]; [lia|done].
Qed.

Lemma windows_pre_TerminateJobObject sysnum (s : drx_state W) :
  sysnum = sysnum_TerminateJobObject s ->
  sysnum <> sysnum_TerminateProcess s ->
  Windows.soft_kills_pre_syscall E sysnum s =
  (false,
   set_sys_result (Some 0)
     (snd (soft_kills_handle_job_termination E (sys_param s 0%nat)
             (to_int (sys_param s 1%nat)) s))).
Proof.
  intros Hsys Hne. unfold Windows.soft_kills_pre_syscall.
  destruct (Z.eqb_spec sysnum (sysnum_TerminateProcess s)); [done|].
  rewrite Hsys, Z.eqb_refl.
  unfold bind, gets, ret, dr_syscall_set_result, modify.
  by destruct (soft_kills_handle_job_termination E _ _ s) as [[] s1].
Qed.

End JobTermination.

(** C4 (as amended).  NtTerminateJobObject is always skipped with the result
    0.  When the kernel reports the members [l] of the job, then for each of
    them, in the order of the report, the callbacks are all called once with
    the exit code of the job, and NtTerminateProcess is called for that member
    when no callback asked to skip and its pid converts to a handle; a member
    for which a callback asked to skip, or whose pid does not convert to a
    handle, is left alone.  When the query fails, nothing else happens. *)
Theorem C4_job_termination_is_emulated_per_member {W : Type} (E : dr_env W)
    (sysnum : Z) (s : drx_state W) :
  sysnum = sysnum_TerminateJobObject s ->
  sysnum <> sysnum_TerminateProcess s ->
  let job := sys_param s 0%nat in
  let exit_code := to_int (sys_param s 1%nat) in
  let r := Windows.soft_kills_pre_syscall E sysnum s in
  fst r = false /\
  sys_result (snd r) = Some 0 /\
  (forall l, job_members E job l ->
     snd r =
     set_sys_result (Some 0)
       (after (fst (members_outcome E (cb_list s) exit_code l (client s)))
          (snd (members_outcome E (cb_list s) exit_code l (client s))) s)) /\
  (job_query_fails E job -> snd r = set_sys_result (Some 0) s).
Proof.
  intros Hsys Hne job exit_code r. subst r.
  rewrite (windows_pre_TerminateJobObject E sysnum s Hsys Hne).
  fold job exit_code. cbn [fst snd].
  repeat split.
  - intros l Hl.
    rewrite (soft_kills_handle_job_termination_members E job exit_code l s Hl).
    by destruct (members_outcome E _ _ _ _).
  - intros Hfail.
    by rewrite (soft_kills_handle_job_termination_fails E job exit_code s Hfail).
Qed.

Lemma demo_job_members : job_members windows_env 0x50 [7; 8; 9].
Proof. split; [done|]. intros _. eexists. split; [by vm_compute|done]. Qed.

Lemma C4_job_termination_witness :
  let s := enter_syscall [0x50; 1] windows_registered in
  snd (Windows.soft_kills_pre_syscall windows_env 45 s) =
  set_sys_result (Some 0)
    (after [EvCallback 2 7 1 false; EvCallback 1 7 1 false; EvNtTerminateProcess 0x107 1;
            EvCallback 2 8 1 true; EvCallback 1 8 1 false;
            EvCallback 2 9 1 false; EvCallback 1 9 1 false; EvNtTerminateProcess 0x109 1]
       6%nat s).
Proof.
  intros s.
  refine (proj1 (proj2 (proj2
            (C4_job_termination_is_emulated_per_member windows_env 45 s _ _)))
            [7; 8; 9] demo_job_members);
    vm_compute; congruence.
Defined.

(** C4 as stated fails: process 7 is the one member of job [0x50], nobody
    asks to skip its kill, and its pid does not convert to a handle.  The
    callback is called, no NtTerminateProcess follows, and NtTerminateJobObject
    is skipped: the member stays alive. *)
Lemma C4_member_left_alive_counterexample :
  let E := demo_env true (fun _ _ => false)
             (fun job => if job =? 0x50 then Some [7] else None)
             demo_handle_pid (fun _ => -1) demo_proc_address true in
  let s := enter_syscall [0x50; 1] (snd (register_all E [1] demo_state)) in
  job_members E 0x50 [7] /\
  Windows.soft_kills_pre_syscall E (sysnum_TerminateJobObject s) s =
  (false, set_sys_result (Some 0) (after [EvCallback 1 7 1 false] 1%nat s)).
Proof.
  split.
  - split; [done|]. intros _. eexists. split; [by vm_compute|done].
  - by vm_compute.
Qed.

(** ** C5, C6: kill on job close *)

Section KillOnClose.
Context {W : Type} (E : dr_env W).

Lemma windows_pre_SetInformationJobObject sysnum (s : drx_state W) :
  sysnum = sysnum_SetInformationJobObject s ->
  sysnum <> sysnum_TerminateProcess s ->
  sysnum <> sysnum_TerminateJobObject s ->
  Windows.soft_kills_pre_syscall E sysnum s =
  if requests_kill_on_close E s then
    let job := sys_param s 0%nat in
    let loc := sys_param s 2%nat + offsetof_LimitFlags E in
    let LimitFlags := app_mem s loc in
    let new_flags := Z.land LimitFlags (Z.lnot (JOB_OBJECT_LIMIT_KILL_ON_JOB_CLOSE E)) in
    let s1 := set_cls {| job_limit_flags_orig := LimitFlags;
                         job_limit_flags_loc := loc |} s in
    let s2 := snd (dr_safe_write loc sizeof_DWORD new_flags s1) in
    (true, set_job_table (snd (hashtable_add (job_table s) job job)) s2)
  else (true, s).
Proof.
  intros Hsys Hne1 Hne2. unfold Windows.soft_kills_pre_syscall, requests_kill_on_close.
  destruct (Z.eqb_spec sysnum (sysnum_TerminateProcess s)); [done|].
  destruct (Z.eqb_spec sysnum (sysnum_TerminateJobObject s)); [done|].
  rewrite Hsys, Z.eqb_refl.
  unfold bind, gets, ret, modify, dr_safe_read, dr_safe_write; cbn.
  destruct (_ =? JobObjectExtendedLimitInformation E); cbn; [|done].
  destruct (_ <=? to_ULONG _); cbn; [|done].
  destruct (mem_readable s _ _); cbn; [|done].
  destruct (TEST _ _); cbn; [|done].
  destruct (mem_writable s _ _); cbn;
    by destruct (hashtable_add (job_table s) _ _).
Qed.

Lemma windows_pre_Close sysnum (s : drx_state W) :
  sysnum = sysnum_Close s ->
  sysnum <> sysnum_TerminateProcess s ->
  sysnum <> sysnum_TerminateJobObject s ->
  sysnum <> sysnum_SetInformationJobObject s ->
  Windows.soft_kills_pre_syscall E sysnum s =
  let handle := sys_param s 0%nat in
  let s1 := set_job_table (snd (hashtable_remove (job_table s) handle)) s in
  if tracked (job_table s) handle
  then (true, snd (soft_kills_handle_close E handle 0 s1))
  else (true, s1).
Proof.
  intros Hsys Hne1 Hne2 Hne3. unfold Windows.soft_kills_pre_syscall.
  destruct (Z.eqb_spec sysnum (sysnum_TerminateProcess s)); [done|].
  destruct (Z.eqb_spec sysnum (sysnum_TerminateJobObject s)); [done|].
  destruct (Z.eqb_spec sysnum (sysnum_SetInformationJobObject s)); [done|].
  rewrite Hsys, Z.eqb_refl.
  unfold bind, gets, ret; cbn zeta.
  rewrite <- hashtable_remove_fst.
  destruct (hashtable_remove (job_table s) _) as [[] t]; cbn [fst snd]; [|done].
  by destruct (soft_kills_handle_close E _ 0 _) as [[] s2].
Qed.

Lemma dr_safe_write_ok base size val (s : drx_state W) :
  mem_writable s base size = true ->
  dr_safe_write base size val s =
  (true, set_app_mem (fun a => if a =? base then val else app_mem s a) s).
Proof. intros Hwr. unfold dr_safe_write. by rewrite Hwr. Qed.

Lemma set_job_table_id (s : drx_state W) : set_job_table (job_table s) s = s.
Proof. by destruct s. Qed.

Lemma windows_pre_other sysnum (s : drx_state W) :
  sysnum <> sysnum_TerminateProcess s ->
  sysnum <> sysnum_TerminateJobObject s ->
  sysnum <> sysnum_SetInformationJobObject s ->
  sysnum <> sysnum_Close s ->
  Windows.soft_kills_pre_syscall E sysnum s = (true, s).
Proof.
  intros Hne1 Hne2 Hne3 Hne4. unfold Windows.soft_kills_pre_syscall.
  destruct (Z.eqb_spec sysnum (sysnum_TerminateProcess s)); [done|].
  destruct (Z.eqb_spec sysnum (sysnum_TerminateJobObject s)); [done|].
  destruct (Z.eqb_spec sysnum (sysnum_SetInformationJobObject s)); [done|].
  by destruct (Z.eqb_spec sysnum (sysnum_Close s)).
Qed.

(** A tracked handle stays in the table through every pre-syscall event
    other than the close of that handle. *)
Lemma windows_pre_tracked_stays sysnum job (s : drx_state W) :
  tracked (job_table s) job = true ->
  ~ (sysnum = sysnum_Close s /\ sys_param s 0%nat = job) ->
  tracked (job_table (snd (Windows.soft_kills_pre_syscall E sysnum s))) job = true.
Proof.
  intros Htr Hnot.
  destruct (Z.eq_dec sysnum (sysnum_TerminateProcess s)) as [H1|H1].
  { rewrite (windows_pre_TerminateProcess E sysnum s H1); cbn zeta.
    destruct (_ && _); [|done].
    destruct (cb_results E _ _ _ _) as [rs w]. by destruct (existsb id rs). }
  destruct (Z.eq_dec sysnum (sysnum_TerminateJobObject s)) as [H2|H2].
  { rewrite (windows_pre_TerminateJobObject E sysnum s H2 H1).
    destruct (soft_kills_handle_job_termination_after E (sys_param s 0%nat)
                (to_int (sys_param s 1%nat)) s) as (evs & w & ->). done. }
  destruct (Z.eq_dec sysnum (sysnum_SetInformationJobObject s)) as [H3|H3].
  { rewrite (windows_pre_SetInformationJobObject sysnum s H3 H1 H2).
    destruct (requests_kill_on_close E s); [|done]. cbn.
    by apply tracked_add_other. }
  destruct (Z.eq_dec sysnum (sysnum_Close s)) as [H4|H4].
  { rewrite (windows_pre_Close sysnum s H4 H1 H2 H3); cbn zeta.
    assert (Hne : job <> sys_param s 0%nat) by (intros ->; by apply Hnot).
    destruct (tracked (job_table s) (sys_param s 0%nat)).
    - unfold soft_kills_handle_close.
      destruct (soft_kills_handle_job_termination_after E (sys_param s 0%nat) 0
                  (set_job_table (snd (hashtable_remove (job_table s)
                                         (sys_param s 0%nat))) s))
        as (evs & w & ->).
      cbn. by rewrite tracked_remove_other.
    - cbn. by rewrite tracked_remove_other. }
  by rewrite windows_pre_other.
Qed.

Lemma windows_post_job_table sysnum (s : drx_state W) :
  job_table (snd (Windows.soft_kills_post_syscall sysnum s)) = job_table s.
Proof.
  unfold Windows.soft_kills_post_syscall.
  destruct (_ =? _); [|done].
  unfold bind, gets, ret, modify, dr_safe_write; cbn.
  destruct (negb _); [|done].
  by destruct (mem_writable s _ _).
Qed.

Lemma windows_post_SetInformationJobObject sysnum (s : drx_state W) :
  sysnum = sysnum_SetInformationJobObject s ->
  job_limit_flags_loc (cls s) <> 0 ->
  mem_writable s (job_limit_flags_loc (cls s)) sizeof_DWORD = true ->
  Windows.soft_kills_post_syscall sysnum s =
  (tt,
   set_cls {| job_limit_flags_orig := job_limit_flags_orig (cls s);
              job_limit_flags_loc := 0 |}
     (set_app_mem (fun a => if a =? job_limit_flags_loc (cls s)
                            then job_limit_flags_orig (cls s) else app_mem s a) s)).
Proof.
  intros -> Hloc Hwr. unfold Windows.soft_kills_post_syscall.
  rewrite Z.eqb_refl. unfold bind, gets, ret, modify; cbn.
  destruct (Z.eqb_spec (job_limit_flags_loc (cls s)) 0); [done|]. cbn.
  by rewrite dr_safe_write_ok.
Qed.

(** The post-syscall event of NtSetInformationJobObject, whatever the patch
    record and the memory. *)
Lemma windows_post_record sysnum (s : drx_state W) :
  sysnum = sysnum_SetInformationJobObject s ->
  Windows.soft_kills_post_syscall sysnum s =
  (tt,
   if job_limit_flags_loc (cls s) =? 0 then s
   else
     set_cls {| job_limit_flags_orig := job_limit_flags_orig (cls s);
                job_limit_flags_loc := 0 |}
       (if mem_writable s (job_limit_flags_loc (cls s)) sizeof_DWORD
        then set_app_mem (fun a => if a =? job_limit_flags_loc (cls s)
                                   then job_limit_flags_orig (cls s) else app_mem s a) s
        else s)).
Proof.
  intros ->. unfold Windows.soft_kills_post_syscall.
  rewrite Z.eqb_refl. unfold bind, gets, ret, modify, dr_safe_write; cbn.
  destruct (job_limit_flags_loc (cls s) =? 0); [done|]. cbn.
  by destruct (mem_writable s _ _).
Qed.

Lemma requests_kill_on_close_flag (s : drx_state W) :
  requests_kill_on_close E s = true ->
  TEST (JOB_OBJECT_LIMIT_KILL_ON_JOB_CLOSE E)
    (app_mem s (sys_param s 2%nat + offsetof_LimitFlags E)) = true.
Proof.
  unfold requests_kill_on_close. intros H.
  by apply andb_prop in H as [_ H].
Qed.

End KillOnClose.

(** C5 (as amended).  NtSetInformationJobObject asks for kill-on-job-close.
    In every case the pre-syscall event lets the system call run and sets no
    result, the patch record holds the original flags and their address, and
    the job handle is in the table.  If the DWORD of the flags in the caller's
    structure can be written, the flags there are then the original flags
    without kill-on-job-close and no other memory has changed.  If it cannot
    be written, no memory has changed and the flags that reach the system
    call still have kill-on-job-close.  After the post-syscall event the
    address in the patch record is NULL and the handle is still in the table;
    the caller's memory is as it was before the pre-syscall event, provided
    the flags are not at the address NULL (else the post-syscall event takes
    the record for empty and does nothing).  A handle in the table stays
    there through every pre- and post-syscall event but the pre-syscall event
    of the close of that handle. *)
Theorem C5_kill_on_close_is_patched_restored_and_tracked {W : Type} (E : dr_env W)
    (sysnum : Z) (s : drx_state W) :
  sysnum = sysnum_SetInformationJobObject s ->
  sysnum <> sysnum_TerminateProcess s ->
  sysnum <> sysnum_TerminateJobObject s ->
  requests_kill_on_close E s = true ->
  job_table_ok (job_table s) ->
  let job := sys_param s 0%nat in
  let loc := sys_param s 2%nat + offsetof_LimitFlags E in
  let kill_on_close := JOB_OBJECT_LIMIT_KILL_ON_JOB_CLOSE E in
  let s1 := snd (Windows.soft_kills_pre_syscall E sysnum s) in
  let s2 := snd (Windows.soft_kills_post_syscall sysnum s1) in
  fst (Windows.soft_kills_pre_syscall E sysnum s) = true /\
  sys_result s1 = sys_result s /\
  cls s1 = {| job_limit_flags_orig := app_mem s loc; job_limit_flags_loc := loc |} /\
  tracked (job_table s1) job = true /\
  (mem_writable s loc sizeof_DWORD = true ->
   app_mem s1 loc = Z.land (app_mem s loc) (Z.lnot kill_on_close) /\
   TEST kill_on_close (app_mem s1 loc) = false /\
   forall a, a <> loc -> app_mem s1 a = app_mem s a) /\
  (mem_writable s loc sizeof_DWORD = false ->
   (forall a, app_mem s1 a = app_mem s a) /\
   TEST kill_on_close (app_mem s1 loc) = true) /\
  (loc <> 0 -> forall a, app_mem s2 a = app_mem s a) /\
  (loc = 0 -> s2 = s1) /\
  job_limit_flags_loc (cls s2) = 0 /\
  tracked (job_table s2) job = true /\
  (forall sysnum' (s' : drx_state W),
     tracked (job_table s') job = true ->
     tracked (job_table (snd (Windows.soft_kills_post_syscall sysnum' s'))) job = true /\
     (~ (sysnum' = sysnum_Close s' /\ sys_param s' 0%nat = job) ->
      tracked (job_table (snd (Windows.soft_kills_pre_syscall E sysnum' s'))) job = true)).
Proof.
  intros Hsys Hne1 Hne2 Hreq Hok job loc kill_on_close s1 s2.
  pose proof (requests_kill_on_close_flag E s Hreq) as Hflag.
  fold loc kill_on_close in Hflag.
  assert (Htr : tracked (snd (hashtable_add (job_table s) job job)) job = true)
    by (by apply tracked_add).
  assert (Hstay : forall sysnum' (s' : drx_state W),
     tracked (job_table s') job = true ->
     tracked (job_table (snd (Windows.soft_kills_post_syscall sysnum' s'))) job = true /\
     (~ (sysnum' = sysnum_Close s' /\ sys_param s' 0%nat = job) ->
      tracked (job_table (snd (Windows.soft_kills_pre_syscall E sysnum' s'))) job = true)).
  { intros sysnum' s' Hs'. split.
    - by rewrite windows_post_job_table.
    - by apply windows_pre_tracked_stays. }
  assert (Hs1 : Windows.soft_kills_pre_syscall E sysnum s =
    (true,
     set_job_table (snd (hashtable_add (job_table s) job job))
       (set_app_mem
          (fun a => if mem_writable s loc sizeof_DWORD && (a =? loc)
                    then Z.land (app_mem s loc) (Z.lnot kill_on_close)
                    else app_mem s a)
          (set_cls {| job_limit_flags_orig := app_mem s loc;
                      job_limit_flags_loc := loc |} s)))).
  { rewrite (windows_pre_SetInformationJobObject E sysnum s Hsys Hne1 Hne2), Hreq.
    cbn zeta. fold job loc kill_on_close. unfold dr_safe_write.
    cbn [mem_writable set_cls].
    destruct (mem_writable s loc sizeof_DWORD); cbn [snd andb]; [done|].
    by destruct s. }
  subst s2 s1. rewrite Hs1. cbn [fst snd].
  rewrite windows_post_record by (by rewrite Hsys).
  cbn [fst snd cls set_job_table set_app_mem set_cls job_limit_flags_loc
       job_limit_flags_orig mem_writable app_mem job_table sys_result].
  split; [done|]. split; [done|]. split; [done|]. split; [done|].
  split; [|split; [|split; [|split; [|split; [|split; [|exact Hstay]]]]]].
  - intros Hwr. rewrite Hwr, Z.eqb_refl. cbn [andb]. split; [done|]. split.
    + unfold TEST, TESTANY.
      rewrite (Z.land_comm (app_mem s loc)), Z.land_assoc, Z.land_lnot_diag. done.
    + intros a Ha. by destruct (Z.eqb_spec a loc).
  - intros Hwr. rewrite Hwr. cbn [andb]. by split.
  - intros Hloc a. destruct (Z.eqb_spec loc 0) as [|_]; [done|].
    cbn [app_mem set_cls].
    destruct (mem_writable s loc sizeof_DWORD); cbn [app_mem set_app_mem andb].
    + by destruct (Z.eqb_spec a loc) as [->|].
    + done.
  - intros Hloc. by rewrite Hloc.
  - destruct (Z.eqb_spec loc 0) as [Hloc|_]; [by cbn|]. by cbn.
  - destruct (loc =? 0); [by cbn|]. cbn.
    by destruct (mem_writable s loc sizeof_DWORD).
Qed.

Lemma demo_limits_state_table (writable : bool) :
  job_table (demo_limits_state writable) = hashtable_init JOB_TABLE_HASH_BITS.
Proof. by destruct writable; vm_compute. Qed.

Lemma demo_tracking_state_table :
  job_table demo_tracking_state =
  snd (hashtable_add (hashtable_init JOB_TABLE_HASH_BITS) 0x50 0x50).
Proof. by vm_compute. Qed.

Lemma demo_tracking_state_ok : job_table_ok (job_table demo_tracking_state).
Proof.
  rewrite demo_tracking_state_table. apply job_table_ok_add, job_table_ok_init.
  by vm_compute.
Qed.

Lemma demo_limits_syscall_ok :
  job_table_ok
    (job_table (enter_syscall [0x50; 9; 0x5000; 144] (demo_limits_state true))).
Proof.
  replace (job_table (enter_syscall [0x50; 9; 0x5000; 144] (demo_limits_state true)))
    with (hashtable_init JOB_TABLE_HASH_BITS) by (by vm_compute).
  apply job_table_ok_init. by vm_compute.
Qed.

Lemma C5_kill_on_close_witness :
  let s := enter_syscall [0x50; 9; 0x5000; 144] (demo_limits_state true) in
  let s1 := snd (Windows.soft_kills_pre_syscall windows_env 46 s) in
  let s2 := snd (Windows.soft_kills_post_syscall 46 s1) in
  app_mem s1 0x5010 = 0x8 /\ app_mem s2 0x5010 = 0x2008 /\
  job_limit_flags_loc (cls s2) = 0 /\
  tracked (job_table s2) 0x50 = true.
Proof.
  intros s s1 s2.
  destruct (C5_kill_on_close_is_patched_restored_and_tracked windows_env 46 s)
    as (_ & _ & _ & _ & Hwritable & _ & Hrestored & _ & Hcleared & Htracked & _);
    [by vm_compute | by vm_compute | by vm_compute | by vm_compute
    | exact demo_limits_syscall_ok |].
  assert (Hwr : mem_writable s (sys_param s 2%nat + offsetof_LimitFlags windows_env)
                  sizeof_DWORD = true) by (by vm_compute).
  assert (Hloc : sys_param s 2%nat + offsetof_LimitFlags windows_env <> 0)
    by (by vm_compute).
  destruct (Hwritable Hwr) as (Hpatched & _ & _).
  pose proof (Hrestored Hloc 0x5010) as Hback.
  vm_compute in Hpatched, Hback, Hcleared, Htracked |- *.
  exact (conj Hpatched (conj Hback (conj Hcleared Htracked))).
Defined.

(** C5 as stated fails: the caller's structure can be read but not written
    (a constant, say).  The flags that reach the system call still have
    kill-on-job-close, and the system call runs. *)
Lemma C5_unwritable_flags_counterexample :
  let s := enter_syscall [0x50; 9; 0x5000; 144] (demo_limits_state false) in
  let r := Windows.soft_kills_pre_syscall windows_env 46 s in
  requests_kill_on_close windows_env s = true /\
  fst r = true /\
  app_mem (snd r) 0x5010 = 0x2008 /\
  TEST (JOB_OBJECT_LIMIT_KILL_ON_JOB_CLOSE windows_env) (app_mem (snd r) 0x5010) = true /\
  tracked (job_table (snd r)) 0x50 = true.
Proof. by vm_compute. Qed.


Lemma demo_close_ok (h : HANDLE) :
  job_table_ok (job_table (enter_syscall [h] demo_tracking_state)).
Proof.
  replace (job_table (enter_syscall [h] demo_tracking_state))
    with (snd (hashtable_add (hashtable_init JOB_TABLE_HASH_BITS) 0x50 0x50))
    by (by vm_compute).
  apply job_table_ok_add, job_table_ok_init. by vm_compute.
Qed.


(** ** C9: teardown *)

Section Teardown.
Context {W : Type} (E : dr_env W).

Lemma sweep_chain_spec he exit_code (s : drx_state W) :
  sweep_chain E he exit_code s = close_all_jobs E (map payload he) exit_code s.
Proof.
  revert s; induction he as [|e next IH]; intros s; cbn; [done|].
  unfold bind. destruct (soft_kills_handle_close E (payload e) exit_code s) as [[] s1].
  apply IH.
Qed.

Lemma close_all_jobs_after jobs exit_code (s : drx_state W) :
  exists evs w, close_all_jobs E jobs exit_code s = (tt, after evs w s).
Proof.
  revert s; induction jobs as [|job rest IH]; intros s; cbn.
  - exists [], (client s). unfold ret. by rewrite after_nil.
  - unfold bind, soft_kills_handle_close.
    destruct (soft_kills_handle_job_termination_after E job exit_code s)
      as (evs1 & w1 & ->).
    destruct (IH (after evs1 w1 s)) as (evs2 & w2 & ->).
    exists (evs1 ++ evs2), w2. by rewrite after_after.
Qed.

Lemma close_all_jobs_spec jobs exit_code (s : drx_state W) :
  close_all_jobs E jobs exit_code s =
  let (evs, w) := jobs_outcome E (cb_list s) exit_code jobs (client s) in
  (tt, after evs w s).
Proof.
  revert s; induction jobs as [|job rest IH]; intros s; cbn.
  - unfold ret. by rewrite after_nil.
  - unfold bind, soft_kills_handle_close.
    rewrite soft_kills_handle_job_termination_spec.
    destruct (job_outcome E (cb_list s) exit_code job (client s)) as [evs1 w1].
    rewrite IH. cbn.
    destruct (jobs_outcome E (cb_list s) exit_code rest w1) as [evs2 w2].
    by rewrite after_after.
Qed.

Lemma close_all_jobs_app jobs1 jobs2 exit_code (s : drx_state W) :
  close_all_jobs E (jobs1 ++ jobs2) exit_code s =
  close_all_jobs E jobs2 exit_code (snd (close_all_jobs E jobs1 exit_code s)).
Proof.
  revert s; induction jobs1 as [|job rest IH]; intros s; cbn; [done|].
  unfold bind. destruct (soft_kills_handle_close E job exit_code s) as [[] s1].
  apply IH.
Qed.

Lemma sweep_table_spec n i exit_code (s : drx_state W) :
  sweep_table E n i exit_code s =
  close_all_jobs E (map payload (concat (map (chain_at (job_table s)) (seq i n))))
    exit_code s.
Proof.
  revert i s; induction n as [|n IH]; intros i s; cbn [sweep_table seq map concat].
  - done.
  - unfold bind, gets. rewrite sweep_chain_spec.
    rewrite map_app, close_all_jobs_app.
    destruct (close_all_jobs_after (map payload (chain_at (job_table s) i)) exit_code s)
      as (evs & w & Heq).
    rewrite Heq. cbn [snd]. rewrite IH. done.
Qed.

Lemma chains_of_table (t : hashtable_t) :
  map (chain_at t) (seq 0 (length (table t))) = table t.
Proof.
  unfold chain_at. generalize (table t) as l. clear t.
  induction l as [|c l IH]; cbn; [done|].
  f_equal. rewrite <- seq_shift, map_map. exact IH.
Qed.

Lemma free_cb_list_spec e (s : drx_state W) :
  cb_list s = e -> free_cb_list e s = (tt, set_cb_list [] s).
Proof.
  revert s; induction e as [|cb next IH]; intros s He; cbn.
  - unfold ret. destruct s; cbn in *. by subst.
  - unfold bind, modify. by rewrite IH.
Qed.

Lemma members_outcome_app cbs exit_code (l1 l2 : list process_id_t) (w : W) :
  members_outcome E cbs exit_code (l1 ++ l2) w =
  let (evs1, w1) := members_outcome E cbs exit_code l1 w in
  let (evs2, w2) := members_outcome E cbs exit_code l2 w1 in
  (evs1 ++ evs2, w2).
Proof.
  revert w; induction l1 as [|pid rest IH]; intros w; cbn.
  - by destruct (members_outcome E cbs exit_code l2 w).
  - destruct (cb_results E cbs pid exit_code w) as [rs w1]. rewrite IH.
    destruct (members_outcome E cbs exit_code rest w1) as [evs1 w2].
    destruct (members_outcome E cbs exit_code l2 w2) as [evs2 w3].
    by rewrite app_assoc.
Qed.

Lemma job_outcome_notified cbs exit_code job (l : list process_id_t) (w : W) :
  job_notified E job l ->
  job_outcome E cbs exit_code job w = members_outcome E cbs exit_code l w.
Proof.
  unfold job_outcome. intros [[Hnum Hlist] | [Hfail ->]].
  - rewrite Hnum. destruct l as [|pid rest]; [done|].
    destruct Hlist as (list & -> & Htake); [done|].
    replace (0 <? Z.of_nat (length (pid :: rest))) with true
      by (symmetry; apply Z.ltb_lt; cbn; lia).
    by rewrite Nat2Z.id, (job_pids_read_filled E _ _ _ Htake).
  - destruct (Z.ltb_spec 0 (num_job_object_pids E job)); [|done].
    destruct Hfail as [? | ->]; [lia|done].
Qed.

Lemma jobs_outcome_notified cbs exit_code jobs (ls : list (list process_id_t)) (w : W) :
  Forall2 (job_notified E) jobs ls ->
  jobs_outcome E cbs exit_code jobs w = members_outcome E cbs exit_code (concat ls) w.
Proof.
  intros H. revert w; induction H as [|job l jobs ls Hjob _ IH]; intros w; [done|].
  cbn [jobs_outcome concat]. rewrite members_outcome_app.
  rewrite (job_outcome_notified cbs exit_code job l w Hjob).
  destruct (members_outcome E cbs exit_code l w) as [evs1 w1].
  by rewrite IH.
Qed.

Lemma get_app_exit_code_spec :
  match get_app_exit_code E with
  | Some exit_code => exit_code
  | None => 0
  end =
  if NT_SUCCESS (pq_res (NtQueryInformationProcess E))
     && (pq_got (NtQueryInformationProcess E) =? sizeof_PROCESS_BASIC_INFORMATION E)
  then to_int (ExitStatus (NtQueryInformationProcess E))
  else 0.
Proof.
  unfold get_app_exit_code.
  by destruct (NT_SUCCESS _), (_ =? _).
Qed.

Lemma soft_kills_exit_windows_spec (s : drx_state W) :
  length (table (job_table s)) = Z.to_nat (HASHTABLE_SIZE (table_bits (job_table s))) ->
  soft_kills_exit_windows E s =
  let exit_code := match get_app_exit_code E with
                   | Some exit_code => exit_code
                   | None => 0
                   end in
  let s1 := snd (close_all_jobs E (tracked_jobs (job_table s)) exit_code s) in
  (tt,
   set_trace (trace s1 ++ [EvUnregisterClsField (cls_idx_soft s)])
     (set_job_table (hashtable_delete (job_table s)) s1)).
Proof.
  intros Hlen. unfold soft_kills_exit_windows, hashtable_lock, hashtable_unlock.
  unfold bind, gets, ret, modify, emit. cbn zeta.
  rewrite sweep_table_spec, <- Hlen, chains_of_table. fold (tracked_jobs (job_table s)).
  destruct (close_all_jobs_after (tracked_jobs (job_table s))
              (match get_app_exit_code E with Some c => c | None => 0 end) s)
    as (evs & w & ->).
  done.
Qed.

Lemma drx_exit_after_teardown (s : drx_state W) :
  drx_init_count s = 0 -> drx_exit E s = (tt, set_drx_init_count (-1) s).
Proof.
  intros Hc. unfold drx_exit, bind, dr_atomic_add32_return_sum_drx_init_count.
  by rewrite Hc.
Qed.

End Teardown.

(** C9.  On Windows, with soft kills enabled and a table as [hashtable_init],
    [hashtable_add] and [hashtable_remove] leave it, the [drx_exit] that takes
    [drx_init_count] from 1 to 0 treats every handle still in the table as if
    it were closed.  The exit code it uses is that of the process: the
    [ExitStatus] that NtQueryInformationProcess reports for the current
    process, as an [int], when the query succeeds and fills a whole
    [PROCESS_BASIC_INFORMATION], and 0 otherwise.  With the members that the
    kernel reports for each of these jobs (none where the query of a job
    fails), the calls made are, member after member in the order of the
    handles: every callback once with that exit code, then NtTerminateProcess
    with that exit code when no callback asked to skip and the pid converts
    to a handle.  Then the field of drmgr is unregistered, the table is
    deleted, the callback list is empty and the lock is destroyed, and
    [drmgr_exit] is called.  A second [drx_exit] right after it changes
    nothing but the counter: it adds no call to the trace and leaves the
    client alone. *)
Theorem C9_teardown_sweeps_releases_and_is_idempotent {W : Type} (E : dr_env W)
    (s : drx_state W) :
  WINDOWS E = true ->
  drx_init_count s = 1 ->
  soft_kills_enabled s = true ->
  job_table_ok (job_table s) ->
  let q := NtQueryInformationProcess E in
  let exit_code :=
    if NT_SUCCESS (pq_res q) && (pq_got q =? sizeof_PROCESS_BASIC_INFORMATION E)
    then to_int (ExitStatus q)
    else 0 in
  let jobs := tracked_jobs (job_table s) in
  let swept := snd (close_all_jobs E jobs exit_code s) in
  let notified := jobs_outcome E (cb_list s) exit_code jobs (client s) in
  let s1 := snd (drx_exit E s) in
  (forall h, In h jobs <-> tracked (job_table s) h = true) /\
  swept = after (fst notified) (snd notified) s /\
  (forall ls, Forall2 (job_notified E) jobs ls ->
     notified = members_outcome E (cb_list s) exit_code (concat ls) (client s)) /\
  trace s1 = trace swept ++ [EvUnregisterClsField (cls_idx_soft s); EvDrmgrExit] /\
  client s1 = client swept /\
  table (job_table s1) = [] /\
  cb_list s1 = [] /\
  cb_lock s1 = false /\
  drx_exit E s1 = (tt, set_drx_init_count (-1) s1).
Proof.
  intros Hwin Hcount Hen Hok q exit_code jobs swept notified s1.
  pose proof Hok as (_ & Hlen & _).
  pose proof (close_all_jobs_spec E jobs exit_code s) as Hsw.
  pose proof (close_all_jobs_spec E jobs exit_code (set_drx_init_count 0 s)) as Hsw0.
  cbn [cb_list client set_drx_init_count] in Hsw0.
  pose proof (fun ls => jobs_outcome_notified E (cb_list s) exit_code jobs ls (client s))
    as Hmembers.
  fold notified in Hsw, Hsw0, Hmembers.
  destruct notified as [evs w].
  assert (Hs1 : s1 =
    set_trace (trace s ++ evs ++ [EvUnregisterClsField (cls_idx_soft s); EvDrmgrExit])
      (set_client w (set_cb_lock false (set_cb_list []
         (set_job_table (hashtable_delete (job_table s))
            (set_drx_init_count 0 s)))))).
  { subst s1. unfold drx_exit, bind, gets, emit, modify,
      dr_atomic_add32_return_sum_drx_init_count.
    rewrite Hcount. change (to_int (1 + -1)) with 0. cbn [Z.eqb negb].
    cbn [soft_kills_enabled set_drx_init_count]. rewrite Hen.
    unfold soft_kills_exit, bind, gets, modify, dr_mutex_lock, dr_mutex_unlock, ret.
    rewrite Hwin.
    rewrite (soft_kills_exit_windows_spec E (set_drx_init_count 0 s)) by exact Hlen.
    cbn zeta. cbn [job_table set_drx_init_count cls_idx_soft].
    rewrite get_app_exit_code_spec.
    fold q. fold exit_code. fold jobs. rewrite Hsw0. cbn [snd].
    rewrite free_cb_list_spec by reflexivity.
    cbn. by rewrite <- !app_assoc. }
  assert (Hswept : swept = after evs w s) by (subst swept; by rewrite Hsw).
  rewrite Hs1, Hswept. cbn.
  split; [intros h; by apply tracked_jobs_tracked|].
  split; [done|]. split; [exact Hmembers|].
  split; [by rewrite <- app_assoc|].
  by repeat split.
Qed.

Lemma demo_tracking_state_sweep :
  tracked_jobs (job_table demo_tracking_state) = [0x50] /\
  cls_idx_soft demo_tracking_state = 0 /\
  (if NT_SUCCESS (pq_res (NtQueryInformationProcess windows_env))
      && (pq_got (NtQueryInformationProcess windows_env)
          =? sizeof_PROCESS_BASIC_INFORMATION windows_env)
   then to_int (ExitStatus (NtQueryInformationProcess windows_env))
   else 0) = 3 /\
  fst (members_outcome windows_env (cb_list demo_tracking_state) 3 [7; 8; 9]
         (client demo_tracking_state)) =
  [EvCallback 2 7 3 false; EvCallback 1 7 3 false; EvNtTerminateProcess 0x107 3;
   EvCallback 2 8 3 true; EvCallback 1 8 3 false;
   EvCallback 2 9 3 false; EvCallback 1 9 3 false; EvNtTerminateProcess 0x109 3].
Proof. repeat split; by vm_compute. Qed.

Lemma trace_after {W : Type} (evs : list event) (w : W) (s : drx_state W) :
  trace (after evs w s) = trace s ++ evs.
Proof. done. Qed.

(** What teardown does with the job [0x50] of processes 7, 8 and 9 still
    tracked and the callbacks 1 and 2 registered, 2 asking to skip the kill
    of 8: the exit code is the 3 that the process query reports. *)
Lemma C9_teardown_witness :
  let s1 := snd (drx_exit windows_env demo_tracking_state) in
  trace s1 =
  trace demo_tracking_state ++
  [EvCallback 2 7 3 false; EvCallback 1 7 3 false; EvNtTerminateProcess 0x107 3;
   EvCallback 2 8 3 true; EvCallback 1 8 3 false;
   EvCallback 2 9 3 false; EvCallback 1 9 3 false; EvNtTerminateProcess 0x109 3;
   EvUnregisterClsField 0; EvDrmgrExit] /\
  cb_list s1 = [] /\ cb_lock s1 = false /\
  drx_exit windows_env s1 = (tt, set_drx_init_count (-1) s1).
Proof.
  intros s1.
  destruct (C9_teardown_sweeps_releases_and_is_idempotent windows_env
              demo_tracking_state)
    as (_ & Hswept & Hmembers & Htrace & _ & _ & Hcbs & Hlock & Hagain);
    [by vm_compute | by vm_compute | by vm_compute | exact demo_tracking_state_ok |].
  destruct demo_tracking_state_sweep as (Hjobs & Hidx & Hcode & Hcalls).
  rewrite Hjobs, Hcode in Hswept, Hmembers, Htrace.
  assert (Hls : Forall2 (job_notified windows_env) [0x50] [[7; 8; 9]]).
  { constructor; [left; exact demo_job_members | constructor]. }
  specialize (Hmembers [[7; 8; 9]] Hls).
  split; [|exact (conj Hcbs (conj Hlock Hagain))].
  subst s1. rewrite Htrace, Hswept, Hmembers, trace_after, Hidx.
  rewrite <- app_assoc.
  exact (f_equal (fun l => trace demo_tracking_state ++
                           l ++ [EvUnregisterClsField 0; EvDrmgrExit]) Hcalls).
Defined.

(** ** C8: a skipped system call reports success *)

(** C8.  On both platforms, whatever the system call and the state: when the
    pre-syscall event answers that the system call is not to be executed, the
    result 0 has been set. *)
Theorem C8_skip_always_reports_success {W : Type} (E : dr_env W) (sysnum : Z)
    (s : drx_state W) :
  (fst (Windows.soft_kills_pre_syscall E sysnum s) = false ->
   sys_result (snd (Windows.soft_kills_pre_syscall E sysnum s)) = Some 0) /\
  (fst (Unix.soft_kills_pre_syscall E sysnum s) = false ->
   sys_result (snd (Unix.soft_kills_pre_syscall E sysnum s)) = Some 0).
Proof.
  split.
  - destruct (Z.eq_dec sysnum (sysnum_TerminateProcess s)) as [H1|H1].
    { rewrite (windows_pre_TerminateProcess E sysnum s H1); cbn zeta.
      destruct (_ && _); [|done].
      destruct (cb_results E _ _ _ _) as [rs w]. by destruct (existsb id rs). }
    destruct (Z.eq_dec sysnum (sysnum_TerminateJobObject s)) as [H2|H2].
    { by rewrite (windows_pre_TerminateJobObject E sysnum s H2 H1). }
    destruct (Z.eq_dec sysnum (sysnum_SetInformationJobObject s)) as [H3|H3].
    { rewrite (windows_pre_SetInformationJobObject E sysnum s H3 H1 H2).
      by destruct (requests_kill_on_close E s). }
    destruct (Z.eq_dec sysnum (sysnum_Close s)) as [H4|H4].
    { rewrite (windows_pre_Close E sysnum s H4 H1 H2 H3); cbn zeta.
      by destruct (tracked _ _). }
    by rewrite windows_pre_other.
  - destruct (Z.eq_dec sysnum (SYS_kill E)) as [H1|H1].
    + rewrite (unix_pre_kill E sysnum s H1); cbn zeta.
      destruct (_ && _ && _); [|done].
      destruct (cb_results E _ _ _ _) as [rs w]. by destruct (existsb id rs).
    + by rewrite unix_pre_other.
Qed.

Lemma C8_skip_witness :
  sys_result
    (snd (Windows.soft_kills_pre_syscall windows_env 45
            (enter_syscall [0x60; 1] windows_registered))) = Some 0 /\
  sys_result
    (snd (Unix.soft_kills_pre_syscall (always_skip_env false) 62
            (enter_syscall [8; 9]
               (snd (register_all (always_skip_env false) [1] demo_state))))) = Some 0.
Proof.
  split.
  - apply (proj1 (C8_skip_always_reports_success windows_env 45 _)). by vm_compute.
  - apply (proj2 (C8_skip_always_reports_success (always_skip_env false) 62 _)).
    by vm_compute.
Defined.

(** ** C10: the Unix variant *)

(** C10.  On Unix, a system call that is not kill, or whose signal is not
    SIGKILL, or whose pid is invalid or the caller's own, is to be executed
    and leaves the whole state as it was: no callback is called and no result
    is set.  A kill with SIGKILL for another, valid pid calls every callback
    with the exit code SIGKILL shifted left by 8 bits, and is skipped with
    the result 0 exactly when one of them answers true. *)
Theorem C10_unix_mediates_only_SIGKILL {W : Type} (E : dr_env W) (sysnum : Z)
    (s : drx_state W) :
  let pid := to_process_id_t E (sys_param s 0%nat) in
  let sig := to_int (sys_param s 1%nat) in
  (sysnum <> SYS_kill E \/ sig <> SIGKILL E \/
   pid = INVALID_PROCESS_ID E \/ pid = dr_get_process_id E ->
   Unix.soft_kills_pre_syscall E sysnum s = (true, s)) /\
  (sysnum = SYS_kill E -> sig = SIGKILL E ->
   pid <> INVALID_PROCESS_ID E -> pid <> dr_get_process_id E ->
   let exit_code := Z.shiftl (SIGKILL E) 8 in
   let rs := fst (cb_results E (cb_list s) pid exit_code (client s)) in
   let w := snd (cb_results E (cb_list s) pid exit_code (client s)) in
   let s1 := after (cb_events pid exit_code (cb_list s) rs) w s in
   Unix.soft_kills_pre_syscall E sysnum s =
   if existsb id rs then (false, set_sys_result (Some 0) s1) else (true, s1)).
Proof.
  intros pid sig. split.
  - intros Hnot.
    destruct (Z.eq_dec sysnum (SYS_kill E)) as [H1|H1]; [|by apply unix_pre_other].
    rewrite (unix_pre_kill E sysnum s H1); cbn zeta. fold pid sig.
    destruct Hnot as [Hn | [Hn | [Hn | Hn]]]; [done| | |].
    + by destruct (Z.eqb_spec sig (SIGKILL E)).
    + rewrite Hn, Z.eqb_refl. cbn. by rewrite andb_false_r.
    + rewrite Hn, Z.eqb_refl. cbn. by rewrite andb_false_r.
  - intros Hsys Hsig Hinv Hself.
    by apply unix_pre_SIGKILL.
Qed.

Lemma C10_unix_witness :
  let s := enter_syscall [8; 15] unix_registered in
  let s' := enter_syscall [8; 9] unix_registered in
  Unix.soft_kills_pre_syscall unix_env 62 s = (true, s) /\
  Unix.soft_kills_pre_syscall unix_env 62 s' =
  (true, after [EvCallback 2 8 2304 false; EvCallback 1 8 2304 false] 2%nat s').
Proof.
  intros s s'. split.
  - apply (proj1 (C10_unix_mediates_only_SIGKILL unix_env 62 s)).
    right; left. by vm_compute.
  - apply (proj2 (C10_unix_mediates_only_SIGKILL unix_env 62 s'));
      vm_compute; congruence.
Defined.

(** ** C2: what registration reports *)

(** [drx_register_soft_kills] returns true, whatever activation did. *)
Lemma drx_register_soft_kills_true {W : Type} (E : dr_env W) (f : fnptr)
    (s : drx_state W) :
  fst (drx_register_soft_kills E f s) = true.
Proof.
  pose proof (drx_register_soft_kills_spec E f s) as Hspec.
  by destruct (drx_register_soft_kills E f s) as [r s'], Hspec as [-> _].
Qed.

(** C2 fails on the code.  First registration in a world where
    NtTerminateJobObject cannot be resolved: [soft_kills_init] returns false,
    and [drx_register_soft_kills] returns true all the same, with the
    callback on the list, soft kills enabled, the lock created and
    NtTerminateProcess already set to be intercepted natively.  In a world
    where the post-syscall event cannot be registered, the pre-syscall event
    has been registered by then. *)
Theorem C2_failed_activation_is_reported_as_success :
  fst (soft_kills_init unresolved_env demo_state) = false /\
  (let r := drx_register_soft_kills unresolved_env 1 demo_state in
   fst r = true /\
   cb_list (snd r) = [1] /\
   soft_kills_enabled (snd r) = true /\
   cb_lock (snd r) = true /\
   sysnum_TerminateProcess (snd r) = 44 /\
   sysnum_TerminateJobObject (snd r) = -1 /\
   trace (snd r) = [EvInterceptNatively "NtTerminateProcess" 44 2 0]) /\
  fst (soft_kills_init (no_post_event_env false) demo_state) = false /\
  (let r := drx_register_soft_kills (no_post_event_env false) 1 demo_state in
   fst r = true /\
   soft_kills_enabled (snd r) = true /\
   trace (snd r) = [EvRegisterPreSyscall; EvRegisterPostSyscall]).
Proof. by vm_compute. Qed.

(** * Further properties of the soft-kill code *)

(** ** The filter, and what the events leave alone *)

Section Events.
Context {W : Type} (E : dr_env W).

Lemma windows_post_spec sysnum (s : drx_state W) :
  Windows.soft_kills_post_syscall sysnum s =
  if (sysnum =? sysnum_SetInformationJobObject s)
     && negb (job_limit_flags_loc (cls s) =? 0)
  then
    (tt,
     set_cls {| job_limit_flags_orig := job_limit_flags_orig (cls s);
                job_limit_flags_loc := 0 |}
       (snd (dr_safe_write (job_limit_flags_loc (cls s)) sizeof_DWORD
               (job_limit_flags_orig (cls s)) s)))
  else (tt, s).
Proof.
  unfold Windows.soft_kills_post_syscall.
  destruct (sysnum =? _); [|done].
  unfold bind, gets, ret, modify; cbn.
  destruct (negb _); [|done].
  unfold dr_safe_write. by destruct (mem_writable s _ _).
Qed.

Lemma windows_filter_false sysnum (s : drx_state W) :
  fst (Windows.soft_kills_filter_syscall sysnum s) = false ->
  sysnum <> sysnum_TerminateProcess s /\
  sysnum <> sysnum_TerminateJobObject s /\
  sysnum <> sysnum_SetInformationJobObject s /\
  sysnum <> sysnum_Close s.
Proof.
  unfold Windows.soft_kills_filter_syscall; cbn.
  rewrite !orb_false_iff. intros [[[H1 H2] H3] H4].
  repeat split; intros ->; by rewrite Z.eqb_refl in *.
Qed.

End Events.

(** X1.  A system call that the filter does not select is never touched: its
    pre-syscall event answers that it is to be executed and its post-syscall
    event does nothing, and both leave the whole state as it was.  This holds
    on both platforms. *)
Theorem X1_unfiltered_syscall_is_untouched {W : Type} (E : dr_env W) (sysnum : Z)
    (s : drx_state W) :
  (fst (Windows.soft_kills_filter_syscall sysnum s) = false ->
   Windows.soft_kills_pre_syscall E sysnum s = (true, s) /\
   Windows.soft_kills_post_syscall sysnum s = (tt, s)) /\
  (fst (Unix.soft_kills_filter_syscall E sysnum s) = false ->
   Unix.soft_kills_pre_syscall E sysnum s = (true, s) /\
   Unix.soft_kills_post_syscall sysnum s = (tt, s)).
Proof.
  split.
  - intros Hf. destruct (windows_filter_false sysnum s Hf) as (H1 & H2 & H3 & H4).
    split; [by apply windows_pre_other|].
    rewrite windows_post_spec.
    by destruct (Z.eqb_spec sysnum (sysnum_SetInformationJobObject s)).
  - unfold Unix.soft_kills_filter_syscall, ret; cbn. intros Hf.
    split; [|done]. apply unix_pre_other. intros ->. by rewrite Z.eqb_refl in Hf.
Qed.

Lemma X1_unfiltered_witness :
  let s := enter_syscall [0x50; 1] windows_registered in
  let s' := enter_syscall [8; 9] unix_registered in
  Windows.soft_kills_pre_syscall windows_env 7 s = (true, s) /\
  Unix.soft_kills_pre_syscall unix_env 1 s' = (true, s').
Proof.
  intros s s'. split.
  - apply (proj1 (X1_unfiltered_syscall_is_untouched windows_env 7 s)). by vm_compute.
  - apply (proj2 (X1_unfiltered_syscall_is_untouched unix_env 1 s')). by vm_compute.
Defined.

(** X2.  The post-syscall event of NtSetInformationJobObject always leaves
    the address of the patch record NULL, whether the write that restores the
    flags succeeds or not.  When that write fails, the application's memory is
    as it was; in every case memory can differ only at the recorded address.
    With no record pending, or for another system call, the state is as it
    was.  The event makes no call and sets no result. *)
Theorem X2_post_syscall_always_clears_the_record {W : Type} (sysnum : Z)
    (s : drx_state W) :
  let loc := job_limit_flags_loc (cls s) in
  let s' := snd (Windows.soft_kills_post_syscall sysnum s) in
  (sysnum = sysnum_SetInformationJobObject s -> job_limit_flags_loc (cls s') = 0) /\
  (sysnum <> sysnum_SetInformationJobObject s \/ loc = 0 -> s' = s) /\
  (mem_writable s loc sizeof_DWORD = false -> app_mem s' = app_mem s) /\
  (forall a, a <> loc -> app_mem s' a = app_mem s a) /\
  trace s' = trace s /\ sys_result s' = sys_result s /\ client s' = client s /\
  job_table s' = job_table s /\ cb_list s' = cb_list s.
Proof.
  intros loc s'. subst s'. rewrite windows_post_spec. fold loc.
  destruct (Z.eqb_spec sysnum (sysnum_SetInformationJobObject s)) as [Hs|Hs];
    [|by repeat split].
  destruct (Z.eqb_spec loc 0) as [Hl|Hl]; cbn [andb negb];
    [repeat split; try done; intros _; by rewrite Hl|].
  unfold dr_safe_write.
  destruct (mem_writable s loc sizeof_DWORD) eqn:Hw; cbn.
  - repeat split; try done.
    + by intros [?|?].
    + intros a Ha. by destruct (Z.eqb_spec a loc).
  - repeat split; try done. by intros [?|?].
Qed.

Lemma X2_post_syscall_witness :
  let s := snd (Windows.soft_kills_pre_syscall windows_env 46
                  (enter_syscall [0x50; 9; 0x5000; 144] (demo_limits_state false))) in
  job_limit_flags_loc (cls s) = 0x5010 /\
  job_limit_flags_loc (cls (snd (Windows.soft_kills_post_syscall 46 s))) = 0 /\
  app_mem (snd (Windows.soft_kills_post_syscall 46 s)) = app_mem s.
Proof.
  intros s.
  destruct (X2_post_syscall_always_clears_the_record 46 s)
    as (Hclear & _ & Hfail & _).
  split; [by vm_compute|]. split; [apply Hclear | apply Hfail]; by vm_compute.
Defined.

Section EventFrames.
Context {W : Type} (E : dr_env W).

(** What no pre-syscall event changes. *)
Lemma windows_pre_frame sysnum (s : drx_state W) :
  let s' := snd (Windows.soft_kills_pre_syscall E sysnum s) in
  cb_list s' = cb_list s /\ sys_param s' = sys_param s /\
  sysnum_TerminateProcess s' = sysnum_TerminateProcess s /\
  sysnum_TerminateJobObject s' = sysnum_TerminateJobObject s /\
  sysnum_SetInformationJobObject s' = sysnum_SetInformationJobObject s /\
  sysnum_Close s' = sysnum_Close s /\
  (job_table_ok (job_table s) -> job_table_ok (job_table s')).
Proof.
  cbn zeta.
  destruct (Z.eq_dec sysnum (sysnum_TerminateProcess s)) as [H1|H1].
  { rewrite (windows_pre_TerminateProcess E sysnum s H1); cbn zeta.
    destruct (_ && _); [|done].
    destruct (cb_results E _ _ _ _) as [rs w]. by destruct (existsb id rs). }
  destruct (Z.eq_dec sysnum (sysnum_TerminateJobObject s)) as [H2|H2].
  { rewrite (windows_pre_TerminateJobObject E sysnum s H2 H1).
    destruct (soft_kills_handle_job_termination_after E (sys_param s 0%nat)
                (to_int (sys_param s 1%nat)) s) as (evs & w & ->). done. }
  destruct (Z.eq_dec sysnum (sysnum_SetInformationJobObject s)) as [H3|H3].
  { rewrite (windows_pre_SetInformationJobObject E sysnum s H3 H1 H2).
    destruct (requests_kill_on_close E s); [|done]. cbn zeta.
    unfold dr_safe_write. cbn [mem_writable set_cls].
    destruct (mem_writable s _ _); cbn; do 6 (split; [done|]);
      by apply job_table_ok_add. }
  destruct (Z.eq_dec sysnum (sysnum_Close s)) as [H4|H4].
  { rewrite (windows_pre_Close E sysnum s H4 H1 H2 H3); cbn zeta.
    destruct (tracked (job_table s) (sys_param s 0%nat)).
    - unfold soft_kills_handle_close.
      destruct (soft_kills_handle_job_termination_after E (sys_param s 0%nat) 0
                  (set_job_table (snd (hashtable_remove (job_table s)
                                         (sys_param s 0%nat))) s))
        as (evs & w & ->).
      cbn. do 6 (split; [done|]). by apply job_table_ok_remove.
    - cbn. do 6 (split; [done|]). by apply job_table_ok_remove. }
  by rewrite windows_pre_other.
Qed.

End EventFrames.

(** X3.  An NtSetInformationJobObject that the pre-syscall event does not
    recognise as asking for kill-on-job-close (another information class, a
    size below that of the extended structure, a structure that cannot be
    read, or flags without kill-on-job-close) is to be executed and leaves
    the whole state as it was: nothing is rewritten and the handle is not
    put in the table. *)
Theorem X3_unrecognised_job_limits_pass_through {W : Type} (E : dr_env W)
    (sysnum : Z) (s : drx_state W) :
  sysnum = sysnum_SetInformationJobObject s ->
  sysnum <> sysnum_TerminateProcess s ->
  sysnum <> sysnum_TerminateJobObject s ->
  to_int (sys_param s 1%nat) <> JobObjectExtendedLimitInformation E \/
  to_ULONG (sys_param s 3%nat) < sizeof_JOBOBJECT_EXTENDED_LIMIT_INFORMATION E \/
  mem_readable s (sys_param s 2%nat) (sizeof_JOBOBJECT_EXTENDED_LIMIT_INFORMATION E)
    = false \/
  Z.land (JOB_OBJECT_LIMIT_KILL_ON_JOB_CLOSE E)
    (app_mem s (sys_param s 2%nat + offsetof_LimitFlags E)) = 0 ->
  Windows.soft_kills_pre_syscall E sysnum s = (true, s).
Proof.
  intros Hsys H1 H2 Hnot.
  rewrite (windows_pre_SetInformationJobObject E sysnum s Hsys H1 H2).
  replace (requests_kill_on_close E s) with false; [done|].
  symmetry. unfold requests_kill_on_close, TEST, TESTANY.
  destruct Hnot as [Hn | [Hn | [Hn | Hn]]].
  - by destruct (Z.eqb_spec (to_int (sys_param s 1%nat))
                   (JobObjectExtendedLimitInformation E)).
  - destruct (Z.leb_spec (sizeof_JOBOBJECT_EXTENDED_LIMIT_INFORMATION E)
                (to_ULONG (sys_param s 3%nat))); [lia|].
    by rewrite andb_false_r.
  - rewrite Hn. by rewrite andb_false_r.
  - rewrite Hn. cbn. by rewrite andb_false_r.
Qed.

(** The flag is set, but the call uses the basic class 2. *)
Lemma X3_unrecognised_witness :
  let s := enter_syscall [0x50; 2; 0x5000; 144] (demo_limits_state true) in
  app_mem s 0x5010 = 0x2008 /\
  Windows.soft_kills_pre_syscall windows_env 46 s = (true, s).
Proof.
  intros s. split; [by vm_compute|].
  apply (X3_unrecognised_job_limits_pass_through windows_env 46 s);
    [by vm_compute | by vm_compute | by vm_compute |].
  left. by vm_compute.
Defined.

(** X4.  The pre- and the post-syscall event of every system call keep the
    callback list, the parameters of the call, the four resolved system call
    numbers, and the shape of the job table that [hashtable_init] sets up
    (chains in their buckets, no handle twice, payload equal to key). *)
Theorem X4_events_keep_callbacks_sysnums_and_table_shape {W : Type} (E : dr_env W)
    (sysnum : Z) (s : drx_state W) :
  job_table_ok (job_table s) ->
  let s1 := snd (Windows.soft_kills_pre_syscall E sysnum s) in
  let s2 := snd (Windows.soft_kills_post_syscall sysnum s) in
  (job_table_ok (job_table s1) /\ cb_list s1 = cb_list s /\
   sys_param s1 = sys_param s /\
   sysnum_TerminateProcess s1 = sysnum_TerminateProcess s /\
   sysnum_TerminateJobObject s1 = sysnum_TerminateJobObject s /\
   sysnum_SetInformationJobObject s1 = sysnum_SetInformationJobObject s /\
   sysnum_Close s1 = sysnum_Close s) /\
  (job_table_ok (job_table s2) /\ cb_list s2 = cb_list s /\
   sys_param s2 = sys_param s /\
   sysnum_TerminateProcess s2 = sysnum_TerminateProcess s /\
   sysnum_TerminateJobObject s2 = sysnum_TerminateJobObject s /\
   sysnum_SetInformationJobObject s2 = sysnum_SetInformationJobObject s /\
   sysnum_Close s2 = sysnum_Close s).
Proof.
  intros Hok s1 s2. split.
  - destruct (windows_pre_frame E sysnum s) as (Hcb & Hp & H1 & H2 & H3 & H4 & Ht).
    subst s1. split; [by apply Ht|]. by repeat split.
  - subst s2. rewrite windows_post_spec.
    destruct (_ && _); [|done]. unfold dr_safe_write.
    by destruct (mem_writable s _ _).
Qed.

Lemma X4_events_witness :
  job_table_ok
    (job_table (snd (Windows.soft_kills_pre_syscall windows_env 15
                       (enter_syscall [0x50] demo_tracking_state)))).
Proof.
  destruct (X4_events_keep_callbacks_sysnums_and_table_shape windows_env 15
              (enter_syscall [0x50] demo_tracking_state) (demo_close_ok 0x50))
    as [[Hok _] _].
  exact Hok.
Defined.

(** X5.  After the pre-syscall event of an NtClose the closed handle is not
    in the table, whether it was before or not; so the pre-syscall event of a
    second NtClose of the same handle value leaves the whole state as it was,
    and the job is not notified a second time. *)
Theorem X5_closed_handle_is_notified_at_most_once {W : Type} (E : dr_env W)
    (sysnum : Z) (s : drx_state W) :
  sysnum = sysnum_Close s ->
  sysnum <> sysnum_TerminateProcess s ->
  sysnum <> sysnum_TerminateJobObject s ->
  sysnum <> sysnum_SetInformationJobObject s ->
  job_table_ok (job_table s) ->
  let s1 := snd (Windows.soft_kills_pre_syscall E sysnum s) in
  tracked (job_table s1) (sys_param s 0%nat) = false /\
  Windows.soft_kills_pre_syscall E sysnum s1 = (true, s1).
Proof.
  intros Hsys H1 H2 H3 Hok s1.
  destruct (windows_pre_frame E sysnum s) as (_ & Hp & F1 & F2 & F3 & F4 & Ht).
  fold s1 in Hp, F1, F2, F3, F4, Ht.
  assert (Hgone : tracked (job_table s1) (sys_param s 0%nat) = false).
  { subst s1. rewrite (windows_pre_Close E sysnum s Hsys H1 H2 H3). cbn zeta.
    destruct (tracked (job_table s) (sys_param s 0%nat)).
    - unfold soft_kills_handle_close.
      destruct (soft_kills_handle_job_termination_after E (sys_param s 0%nat) 0
                  (set_job_table (snd (hashtable_remove (job_table s)
                                         (sys_param s 0%nat))) s))
        as (evs & w & ->).
      cbn. by apply tracked_remove_gone.
    - cbn. by apply tracked_remove_gone. }
  split; [exact Hgone|].
  rewrite (windows_pre_Close E sysnum s1) by congruence. cbn zeta.
  rewrite Hp, Hgone.
  rewrite (hashtable_remove_absent _ _ Hgone). cbn [snd].
  by rewrite set_job_table_id.
Qed.

Lemma X5_closed_handle_witness :
  let s1 := snd (Windows.soft_kills_pre_syscall windows_env 15
                   (enter_syscall [0x50] demo_tracking_state)) in
  tracked (job_table s1) 0x50 = false /\
  Windows.soft_kills_pre_syscall windows_env 15 s1 = (true, s1).
Proof.
  intros s1.
  destruct (X5_closed_handle_is_notified_at_most_once windows_env 15
              (enter_syscall [0x50] demo_tracking_state))
    as [Hgone Hagain];
    [by vm_compute | by vm_compute | by vm_compute | by vm_compute
    | exact (demo_close_ok 0x50) |].
  exact (conj Hgone Hagain).
Defined.

(** ** What the treatment of a job never does *)

Section JobEvents.
Context {W : Type} (E : dr_env W).

Lemma cb_events_ok cbs0 cbs pid exit_code rs :
  (forall cb, In cb cbs -> In cb cbs0) ->
  Forall (job_event_ok E cbs0 exit_code) (cb_events pid exit_code cbs rs).
Proof.
  revert rs; induction cbs as [|cb rest IH]; intros rs Hsub; destruct rs as [|r rs];
    cbn; try by constructor.
  constructor.
  - split; [apply Hsub; by left | done].
  - apply IH. intros cb' Hin. apply Hsub. by right.
Qed.

Lemma members_outcome_ok cbs exit_code pids w :
  Forall (job_event_ok E cbs exit_code) (fst (members_outcome E cbs exit_code pids w)).
Proof.
  revert w; induction pids as [|pid rest IH]; intros w; cbn; [by constructor|].
  destruct (cb_results E cbs pid exit_code w) as [rs w1].
  specialize (IH w1).
  destruct (members_outcome E cbs exit_code rest w1) as [evs w2]; cbn in *.
  apply Forall_app. split; [|done].
  unfold member_events. apply Forall_app. split; [by apply cb_events_ok|].
  destruct (existsb id rs); [by constructor|].
  destruct (Z.eqb_spec (dr_convert_pid_to_handle E pid) (INVALID_HANDLE_VALUE E));
    [by constructor|].
  by repeat constructor.
Qed.

End JobEvents.

(** X6.  Whatever the job handle, the exit code and the state, the treatment
    of a job changes nothing but the trace of calls and the client's state,
    and every call it adds is either a call of a registered callback with this
    exit code or an NtTerminateProcess with this exit code on a handle other
    than [INVALID_HANDLE_VALUE]. *)
Theorem X6_job_treatment_only_calls_back_and_kills_valid_handles {W : Type}
    (E : dr_env W) (job : HANDLE) (exit_code : Z) (s : drx_state W) :
  exists evs w,
    soft_kills_handle_job_termination E job exit_code s = (tt, after evs w s) /\
    Forall (job_event_ok E (cb_list s) exit_code) evs.
Proof.
  rewrite soft_kills_handle_job_termination_spec. unfold job_outcome.
  destruct (0 <? _); [|exists [], (client s); by split].
  destruct (get_job_object_pids E job _) as [list|];
    [|exists [], (client s); by split].
  pose proof (members_outcome_ok E (cb_list s) exit_code
                (job_pids_read E (num_job_object_pids E job) list 0
                   (Z.to_nat (num_job_object_pids E job)))
                (client s)) as Hok.
  destruct (members_outcome E _ _ _ _) as [evs w]. by exists evs, w.
Qed.

(** ** Reference counts: teardown and activation *)

Section Counts.
Context {W : Type} (E : dr_env W).

Lemma to_int_small (x : Z) : - 2 ^ 31 <= x < 2 ^ 31 -> to_int x = x.
Proof.
  intros Hx. unfold to_int.
  rewrite Z.mod_small by lia. lia.
Qed.

(** A registration that is not the first one only counts and pushes. *)
Lemma drx_register_soft_kills_later f (s : drx_state W) :
  to_int (soft_kills_init_count s + 1) <> 1 ->
  drx_register_soft_kills E f s =
  (true,
   set_cb_list (f :: cb_list s)
     (set_soft_kills_init_count (to_int (soft_kills_init_count s + 1)) s)).
Proof.
  intros Hne.
  unfold drx_register_soft_kills, bind, modify, ret, dr_mutex_lock, dr_mutex_unlock,
    dr_atomic_add32_return_sum_soft_kills_init_count.
  by destruct (Z.eqb_spec (to_int (soft_kills_init_count s + 1)) 1).
Qed.

Lemma register_all_later fs (s : drx_state W) :
  1 <= soft_kills_init_count s ->
  soft_kills_init_count s + Z.of_nat (length fs) < 2 ^ 31 ->
  register_all E fs s =
  (tt,
   set_cb_list (rev fs ++ cb_list s)
     (set_soft_kills_init_count (soft_kills_init_count s + Z.of_nat (length fs)) s)).
Proof.
  revert s; induction fs as [|f rest IH]; intros s Hlo Hhi; cbn [register_all].
  - unfold ret. cbn. rewrite Z.add_0_r. by destruct s.
  - cbn [length] in Hhi. unfold bind.
    rewrite drx_register_soft_kills_later; rewrite to_int_small; try lia.
    rewrite IH; cbn; try lia.
    rewrite <- app_assoc. cbn.
    by replace (soft_kills_init_count s + 1 + Z.of_nat (length rest))
      with (soft_kills_init_count s + Z.of_nat (S (length rest))) by lia.
Qed.

End Counts.

(** X7.  [drx_exit] tears down only when it takes [drx_init_count] to zero:
    otherwise it changes the counter and nothing else.  At zero, with soft
    kills never enabled, it only calls [drmgr_exit]; with soft kills enabled
    on Unix it empties the callback list and destroys the lock before that
    call, and touches nothing else. *)
Theorem X7_drx_exit_tears_down_only_at_zero {W : Type} (E : dr_env W)
    (s : drx_state W) :
  let count := to_int (drx_init_count s + -1) in
  (count <> 0 -> drx_exit E s = (tt, set_drx_init_count count s)) /\
  (count = 0 -> soft_kills_enabled s = false ->
   drx_exit E s =
   (tt, set_trace (trace s ++ [EvDrmgrExit]) (set_drx_init_count 0 s))) /\
  (count = 0 -> soft_kills_enabled s = true -> WINDOWS E = false ->
   drx_exit E s =
   (tt,
    set_trace (trace s ++ [EvDrmgrExit])
      (set_cb_lock false (set_cb_list [] (set_drx_init_count 0 s))))).
Proof.
  intros count.
  unfold drx_exit, bind, gets, emit, modify, ret,
    dr_atomic_add32_return_sum_drx_init_count.
  fold count. repeat split.
  - intros Hne. by destruct (Z.eqb_spec count 0).
  - intros -> Hen. cbn. by rewrite Hen.
  - intros -> Hen Hwin. cbn. rewrite Hen.
    unfold soft_kills_exit, bind, gets, modify, dr_mutex_lock, dr_mutex_unlock, ret.
    rewrite Hwin. cbn.
    by rewrite free_cb_list_spec.
Qed.

Lemma X7_drx_exit_witness :
  drx_exit unix_env (set_drx_init_count 2 unix_registered) =
  (tt, set_drx_init_count 1 (set_drx_init_count 2 unix_registered)) /\
  cb_list (snd (drx_exit unix_env unix_registered)) = [].
Proof.
  split.
  - apply (proj1 (X7_drx_exit_tears_down_only_at_zero unix_env
                    (set_drx_init_count 2 unix_registered))).
    by vm_compute.
  - rewrite (proj2 (proj2 (X7_drx_exit_tears_down_only_at_zero unix_env
                             unix_registered))); by vm_compute.
Defined.

(** X8.  Activation is run by the first registration only.  When the counter
    of registrations is zero, registering [f] and then the callbacks [fs]
    (fewer than 2^31 - 1 of them) gives the state that the one
    [soft_kills_init] of the first registration leaves, with all the
    callbacks on the list, the last registered first, and the counter at
    their number: the later registrations make no call and change nothing
    else. *)
Theorem X8_only_the_first_registration_activates {W : Type} (E : dr_env W)
    (f : fnptr) (fs : list fnptr) (s : drx_state W) :
  soft_kills_init_count s = 0 ->
  Z.of_nat (length fs) < 2 ^ 31 - 1 ->
  let activated := snd (soft_kills_init E (set_soft_kills_init_count 1 s)) in
  snd (register_all E (f :: fs) s) =
  set_cb_list (rev fs ++ f :: cb_list s)
    (set_soft_kills_init_count (1 + Z.of_nat (length fs)) activated).
Proof.
  intros Hzero Hlen activated. cbn [register_all]. unfold bind.
  assert (Hfirst : drx_register_soft_kills E f s =
                   (true, set_cb_list (f :: cb_list s) activated)).
  { unfold drx_register_soft_kills, bind, modify, ret, dr_mutex_lock,
      dr_mutex_unlock, dr_atomic_add32_return_sum_soft_kills_init_count.
    rewrite Hzero. change (to_int (0 + 1)) with 1. cbn [Z.eqb Pos.eqb].
    subst activated.
    pose proof (soft_kills_init_keeps E (set_soft_kills_init_count 1 s))
      as (Hcb & _).
    destruct (soft_kills_init E (set_soft_kills_init_count 1 s)) as [ok s1].
    cbn in *. by rewrite Hcb. }
  rewrite Hfirst.
  pose proof (soft_kills_init_keeps E (set_soft_kills_init_count 1 s))
    as (_ & _ & _ & Hcount & _).
  fold activated in Hcount. cbn in Hcount.
  rewrite register_all_later; cbn; rewrite ?Hcount; try lia.
  done.
Qed.

Lemma X8_first_registration_witness :
  snd (register_all unix_env [1; 2] demo_state) =
  set_cb_list [2; 1]
    (set_soft_kills_init_count 2
       (snd (soft_kills_init unix_env (set_soft_kills_init_count 1 demo_state)))).
Proof.
  apply (X8_only_the_first_registration_activates unix_env 1 [2] demo_state);
    by vm_compute.
Defined.

(** ** What activation establishes *)

Section ActivationOutcome.
Context {W : Type} (E : dr_env W).

Lemma soft_kills_get_sysnum_shape name n i (s : drx_state W) :
  exists nt evs,
    snd (soft_kills_get_sysnum E name n i s) =
    set_trace (trace s ++ evs) (set_ntdll nt s) /\
    ~ In EvRegisterFilterSyscall evs /\
    (fst (soft_kills_get_sysnum E name n i s) <> -1 ->
     dr_syscall_intercept_natively E name (fst (soft_kills_get_sysnum E name n i s)) n i
     = true).
Proof.
  assert (Heta : s = set_trace (trace s ++ []) (set_ntdll (ntdll s) s))
    by (destruct s; cbn; by rewrite app_nil_r).
  assert (Hnil : forall nt, set_ntdll nt s = set_trace (trace s ++ []) (set_ntdll nt s))
    by (intros nt; destruct s; cbn; by rewrite app_nil_r).
  unfold soft_kills_get_sysnum.
  set (nt := if ntdll s =? 0 then dr_lookup_module_by_name E "ntdll.dll" else ntdll s).
  destruct (nt =? 0).
  { exists (ntdll s), []. cbn. split; [exact Heta|]. split; [tauto|]. intros Hne. by destruct Hne. }
  destruct (dr_get_proc_address E nt name =? 0).
  { exists nt, []. cbn. split; [apply Hnil|]. split; [tauto|]. intros Hne. by destruct Hne. }
  set (sysnum := drmgr_decode_sysnum_from_wrapper E (dr_get_proc_address E nt name)).
  destruct (sysnum =? -1).
  { exists nt, []. cbn. split; [apply Hnil|]. split; [tauto|]. intros Hne. by destruct Hne. }
  destruct (dr_syscall_intercept_natively E name sysnum n i) eqn:Hint; cbn.
  - exists nt, [EvInterceptNatively name sysnum n i].
    split; [done|]. split; [by intros [?|[]] | done].
  - exists nt, [EvInterceptNatively name sysnum n i].
    split; [done|]. split; [by intros [?|[]] |]. intros Hne. by destruct Hne.
Qed.

End ActivationOutcome.

Section ActivationSteps.
Context {W : Type} (E : dr_env W).

(** One more [soft_kills_get_sysnum] in the goal: name its result and the
    state it leaves. *)
Ltac next_sysnum v nt evs Hfilter Hint :=
  match goal with
  | |- context [soft_kills_get_sysnum E ?name ?n ?i ?st] =>
      let Hs := fresh "Hs" in
      destruct (soft_kills_get_sysnum_shape E name n i st)
        as (nt & evs & Hs & Hfilter & Hint);
      destruct (soft_kills_get_sysnum E name n i st) as [v ?s];
      cbn [fst snd] in Hs, Hint; subst;
      cbn [negb];
      destruct (Z.eqb_spec v (-1)); cbn [negb]
  end.

Ltac trace_grows :=
  eexists; split; [cbn; rewrite <- ?app_assoc; reflexivity|];
  split; [rewrite ?in_app_iff; cbn; intuition discriminate|].

Lemma soft_kills_init_windows_outcome (s : drx_state W) :
  let r := soft_kills_init_windows E s in
  exists evs,
    trace (snd r) = trace s ++ evs /\
    ~ In EvRegisterFilterSyscall evs /\
    job_table (snd r) = hashtable_init JOB_TABLE_HASH_BITS /\
    soft_kills_enabled (snd r) = soft_kills_enabled s /\
    cb_lock (snd r) = cb_lock s /\
    (fst r = true ->
     sysnum_TerminateProcess (snd r) <> -1 /\
     sysnum_TerminateJobObject (snd r) <> -1 /\
     sysnum_SetInformationJobObject (snd r) <> -1 /\
     sysnum_Close (snd r) <> -1 /\
     cls_idx_soft (snd r) <> -1).
Proof.
  cbn zeta.
  unfold soft_kills_init_windows, resolve_sysnum, intercept_natively, emit.
  unfold bind, modify, gets, ret.
  next_sysnum v1 nt1 evs1 Hf1 Hi1; [trace_grows; by repeat split|].
  next_sysnum v2 nt2 evs2 Hf2 Hi2; [trace_grows; by repeat split|].
  next_sysnum v3 nt3 evs3 Hf3 Hi3; [trace_grows; by repeat split|].
  next_sysnum v4 nt4 evs4 Hf4 Hi4; [trace_grows; by repeat split|].
  cbn [cls_idx_soft set_cls_idx_soft].
  destruct (Z.eqb_spec (drmgr_register_cls_field E) (-1));
    trace_grows; by repeat split.
Qed.

End ActivationSteps.

Lemma tracked_hashtable_init (bits : Z) (h : HANDLE) :
  tracked (hashtable_init bits) h = false.
Proof.
  unfold tracked, chain_at, hashtable_init; cbn.
  destruct (replicate _ _ !! _) as [chain|] eqn:Hl; [|done].
  by apply lookup_replicate in Hl as [-> _].
Qed.

(** X9.  What [soft_kills_init] leaves behind.  Soft kills are marked enabled
    and the lock exists whether it succeeds or not.  If it returns true, both
    event registrations succeeded and the registration of the syscall filter
    was its last call, made once; on Windows the job table is then the empty
    table of [hashtable_init], in the shape the events keep, and the four
    system call numbers and the index of the callback-local field are not -1.
    If it returns false, the syscall filter has not been registered. *)
Theorem X9_activation_registers_the_filter_only_on_success {W : Type} (E : dr_env W)
    (s : drx_state W) :
  let r := soft_kills_init E s in
  soft_kills_enabled (snd r) = true /\
  cb_lock (snd r) = true /\
  (fst r = true ->
   drmgr_register_pre_syscall_event E = true /\
   drmgr_register_post_syscall_event E = true /\
   (exists evs,
      trace (snd r) =
      trace s ++ evs ++
      [EvRegisterPreSyscall; EvRegisterPostSyscall; EvRegisterFilterSyscall] /\
      ~ In EvRegisterFilterSyscall evs) /\
   (WINDOWS E = true ->
    job_table (snd r) = hashtable_init JOB_TABLE_HASH_BITS /\
    job_table_ok (job_table (snd r)) /\
    (forall h, tracked (job_table (snd r)) h = false) /\
    sysnum_TerminateProcess (snd r) <> -1 /\
    sysnum_TerminateJobObject (snd r) <> -1 /\
    sysnum_SetInformationJobObject (snd r) <> -1 /\
    sysnum_Close (snd r) <> -1 /\
    cls_idx_soft (snd r) <> -1)) /\
  (fst r = false ->
   exists evs, trace (snd r) = trace s ++ evs /\ ~ In EvRegisterFilterSyscall evs).
Proof.
  cbn zeta.
  set (s0 := set_cb_lock true (set_soft_kills_enabled true s)).
  assert (Hinit : soft_kills_init E s =
    let (ok, s1) := (if WINDOWS E then soft_kills_init_windows E else ret true) s0 in
    if negb ok then (false, s1)
    else if negb (drmgr_register_pre_syscall_event E)
    then (false, set_trace (trace s1 ++ [EvRegisterPreSyscall]) s1)
    else if negb (drmgr_register_post_syscall_event E)
    then (false,
          set_trace (trace s1 ++ [EvRegisterPreSyscall; EvRegisterPostSyscall]) s1)
    else (true,
          set_trace
            (trace s1 ++
             [EvRegisterPreSyscall; EvRegisterPostSyscall; EvRegisterFilterSyscall])
            s1)).
  { unfold soft_kills_init, bind, modify, emit, ret. fold s0.
    destruct ((if WINDOWS E then soft_kills_init_windows E
               else fun s2 => (true, s2)) s0) as [ok s1].
    destruct ok, (drmgr_register_pre_syscall_event E),
      (drmgr_register_post_syscall_event E); cbn; try done;
      by rewrite <- ?app_assoc. }
  rewrite Hinit. clear Hinit.
  assert (Hwin : exists evs,
    let r := (if WINDOWS E then soft_kills_init_windows E else ret true) s0 in
    trace (snd r) = trace s ++ evs /\ ~ In EvRegisterFilterSyscall evs /\
    soft_kills_enabled (snd r) = true /\ cb_lock (snd r) = true /\
    (fst r = true -> WINDOWS E = true ->
     job_table (snd r) = hashtable_init JOB_TABLE_HASH_BITS /\
     sysnum_TerminateProcess (snd r) <> -1 /\
     sysnum_TerminateJobObject (snd r) <> -1 /\
     sysnum_SetInformationJobObject (snd r) <> -1 /\
     sysnum_Close (snd r) <> -1 /\
     cls_idx_soft (snd r) <> -1)).
  { destruct (WINDOWS E).
    - destruct (soft_kills_init_windows_outcome E s0)
        as (evs & Ht & Hf & Hjt & Hen & Hlk & Hok).
      exists evs. cbn zeta. do 4 (split; [done|]). intros Hr _.
      split; [exact Hjt | by apply Hok].
    - exists []. subst s0. unfold ret. cbn. rewrite app_nil_r.
      split; [done|]. split; [tauto|]. do 2 (split; [done|]). by intros _ ?. }
  destruct Hwin as (evs & Hwin). cbn zeta in Hwin.
  destruct ((if WINDOWS E then soft_kills_init_windows E else ret true) s0)
    as [ok s1].
  cbn [fst snd] in Hwin. destruct Hwin as (Ht & Hf & Hen & Hlk & Hok).
  destruct ok, (drmgr_register_pre_syscall_event E),
    (drmgr_register_post_syscall_event E);
    cbn; rewrite ?Hen, ?Hlk, ?Ht;
    (split; [done|]); (split; [done|]); (split; [|intros Hr]);
    try (intros Hr; discriminate Hr); try discriminate Hr.
  - intros _. split; [done|]. split; [done|]. split.
    { exists evs. rewrite <- !app_assoc. by split. }
    intros Hw. destruct (Hok eq_refl Hw) as (Hjt & H1 & H2 & H3 & H4 & H5).
    rewrite Hjt. split; [done|].
    split; [apply job_table_ok_init; by vm_compute|].
    split; [intros h; apply tracked_hashtable_init|]. done.
  - exists (evs ++ [EvRegisterPreSyscall; EvRegisterPostSyscall]).
    rewrite <- !app_assoc. split; [done|].
    rewrite in_app_iff. cbn. intuition discriminate.
  - exists (evs ++ [EvRegisterPreSyscall]).
    rewrite <- !app_assoc. split; [done|].
    rewrite in_app_iff. cbn. intuition discriminate.
  - exists (evs ++ [EvRegisterPreSyscall]).
    rewrite <- !app_assoc. split; [done|].
    rewrite in_app_iff. cbn. intuition discriminate.
  - by exists evs.
  - by exists evs.
  - by exists evs.
  - by exists evs.
Qed.

Lemma X9_activation_witness :
  job_table_ok
    (job_table (snd (soft_kills_init windows_env demo_state))) /\
  (exists evs,
     trace (snd (soft_kills_init unresolved_env demo_state)) = trace demo_state ++ evs /\
     ~ In EvRegisterFilterSyscall evs).
Proof.
  destruct (X9_activation_registers_the_filter_only_on_success windows_env demo_state)
    as (_ & _ & Hok & _).
  destruct (X9_activation_registers_the_filter_only_on_success unresolved_env
              demo_state) as (_ & _ & _ & Hfail).
  split.
  - destruct Hok as (_ & _ & _ & Hwin); [by vm_compute|].
    destruct Hwin as (_ & Htable & _); [by vm_compute|]. exact Htable.
  - apply Hfail. by vm_compute.
Defined.

(** ** The shape of the job table in every reachable state *)

Section Reachable.
Context {W : Type} (E : dr_env W).

Lemma soft_kills_init_job_table (s : drx_state W) :
  job_table (snd (soft_kills_init E s)) =
  if WINDOWS E then hashtable_init JOB_TABLE_HASH_BITS else job_table s.
Proof.
  unfold soft_kills_init, bind, modify, emit, ret.
  set (s0 := set_cb_lock true (set_soft_kills_enabled true s)).
  destruct (WINDOWS E).
  - destruct (soft_kills_init_windows_outcome E s0) as (evs & _ & _ & Hjt & _).
    destruct (soft_kills_init_windows E s0) as [ok s1]. cbn [fst snd] in Hjt.
    by destruct ok, (drmgr_register_pre_syscall_event E),
         (drmgr_register_post_syscall_event E).
  - by destruct (drmgr_register_pre_syscall_event E),
         (drmgr_register_post_syscall_event E).
Qed.

Lemma drx_register_soft_kills_job_table f (s : drx_state W) :
  job_table_ok (job_table s) ->
  job_table_ok (job_table (snd (drx_register_soft_kills E f s))).
Proof.
  intros Hok.
  unfold drx_register_soft_kills, bind, modify, ret, dr_mutex_lock, dr_mutex_unlock,
    dr_atomic_add32_return_sum_soft_kills_init_count.
  destruct (_ =? 1); cbn; [|done].
  pose proof (soft_kills_init_job_table
                (set_soft_kills_init_count (to_int (soft_kills_init_count s + 1)) s))
    as Hjt.
  destruct (soft_kills_init E _) as [ok s1]; cbn in *. rewrite Hjt.
  destruct (WINDOWS E); [|done]. apply job_table_ok_init. by vm_compute.
Qed.

End Reachable.

(** X10.  In every state that the Windows build reaches after a successful
    activation, through any registrations and any pre- and post-syscall
    events of any system calls, the job table has the shape that
    [hashtable_init] sets up: as many chains as [table_bits] says, every
    entry in the chain of its hash, no handle twice, payload equal to key. *)
Theorem X10_job_table_shape_is_invariant {W : Type} (E : dr_env W) (s : drx_state W) :
  reachable E s -> job_table_ok (job_table s).
Proof.
  induction 1 as [s Hwin Hok | f s _ IH | params s _ IH | sysnum s _ IH
                 | sysnum s _ IH].
  - rewrite soft_kills_init_job_table, Hwin. apply job_table_ok_init. by vm_compute.
  - by apply drx_register_soft_kills_job_table.
  - exact IH.
  - by apply windows_pre_frame.
  - by rewrite windows_post_job_table.
Qed.

Lemma X10_reachable_witness :
  job_table_ok
    (job_table
       (snd (Windows.soft_kills_pre_syscall windows_env 46
               (enter_syscall [0x50; 9; 0x5000; 144]
                  (snd (soft_kills_init windows_env demo_state)))))).
Proof.
  apply (X10_job_table_shape_is_invariant windows_env).
  apply reach_pre, reach_enter, reach_activated; by vm_compute.
Defined.

(** * Properties of ANALYSIS and INSTRUMENTATION *)

(** ** Counters and cache lines *)

Lemma ALIGN_BACKWARD_pow2 (x k : Z) :
  0 <= k -> ALIGN_BACKWARD x (2 ^ k) = 2 ^ k * (x / 2 ^ k).
Proof.
  intros Hk. unfold ALIGN_BACKWARD.
  replace (2 ^ k - 1) with (Z.ones k) by (rewrite Z.ones_equiv; lia).
  rewrite <- Z.ldiff_land, Z.ldiff_ones_r by done.
  rewrite Z.shiftr_div_pow2, Z.shiftl_mul_pow2 by done. lia.
Qed.

(** X11.  With a cache line of 2^k bytes, [counter_crosses_cache_line] is
    false exactly when the first and the last byte of the counter are in the
    same line.  So a counter of 2^j bytes, j at most k, at an address that is
    a multiple of its size never crosses a line. *)
Theorem X11_counter_crosses_cache_line_iff_lines_differ {instr_t opnd_t : Type}
    `{API : instr_api instr_t opnd_t} (k addr size : Z) :
  proc_get_cache_line_size = 2 ^ k ->
  0 <= k ->
  (counter_crosses_cache_line addr size = false <->
   addr / 2 ^ k = (addr + size - 1) / 2 ^ k) /\
  (forall j, 0 <= j <= k -> size = 2 ^ j -> addr mod 2 ^ j = 0 ->
   counter_crosses_cache_line addr size = false).
Proof.
  intros Hline Hk.
  assert (Hpos : 0 < 2 ^ k) by (apply Z.pow_pos_nonneg; lia).
  assert (Hiff : counter_crosses_cache_line addr size = false <->
                 addr / 2 ^ k = (addr + size - 1) / 2 ^ k).
  { unfold counter_crosses_cache_line. rewrite Hline, !ALIGN_BACKWARD_pow2 by done.
    destruct (Z.eqb_spec (2 ^ k * (addr / 2 ^ k))
                (2 ^ k * ((addr + size - 1) / 2 ^ k))) as [Heq|Hne].
    - split; [intros _; nia | done].
    - split; [done | intros Heq; by rewrite Heq in Hne]. }
  split; [exact Hiff|].
  intros j Hj -> Hal. apply Hiff.
  assert (Hpj : 0 < 2 ^ j) by (apply Z.pow_pos_nonneg; lia).
  assert (Hsplit : 2 ^ k = 2 ^ j * 2 ^ (k - j))
    by (rewrite <- Z.pow_add_r by lia; f_equal; lia).
  assert (Hpm : 0 < 2 ^ (k - j)) by (apply Z.pow_pos_nonneg; lia).
  apply Z.mod_divide in Hal as [q ->]; [|lia].
  rewrite Hsplit, <- !Z.div_div by lia.
  f_equal.
  replace (q * 2 ^ j + 2 ^ j - 1) with (2 ^ j - 1 + q * 2 ^ j) by lia.
  rewrite Z.div_add, Z.div_mul by lia.
  rewrite Z.div_small by lia. lia.
Qed.

Lemma X11_counter_witness :
  counter_crosses_cache_line (API := demo_api) 0x7038 8 = false /\
  (counter_crosses_cache_line (API := demo_api) 0x703c 8 = false <->
   0x703c / 2 ^ 6 = (0x703c + 8 - 1) / 2 ^ 6).
Proof.
  destruct (X11_counter_crosses_cache_line_iff_lines_differ (API := demo_api)
              6 0x7038 8) as [_ Haligned]; [done | done |].
  destruct (X11_counter_crosses_cache_line_iff_lines_differ (API := demo_api)
              6 0x703c 8) as [Hiff _]; [done | done |].
  split; [|exact Hiff].
  apply (Haligned 3); [lia | done | done].
Defined.

(** ** Dead arithmetic flags *)

Section AflagsDead.
Context {instr_t opnd_t : Type} `{API : instr_api instr_t opnd_t}.

Lemma drx_aflags_are_dead_sound (l : list instr_t) :
  drx_aflags_are_dead l = true ->
  exists pre w post,
    l = pre ++ w :: post /\
    TESTALL EFLAGS_WRITE_6 (instr_get_arith_flags w) = true /\
    reads_no_flag w /\
    Forall reads_no_flag pre /\
    (forall n i next,
       pre !! n = Some i -> (pre ++ [w]) !! S n = Some next ->
       instr_is_cti i = true -> elided i next).
Proof.
  induction l as [|i rest IH]; cbn [drx_aflags_are_dead]; [done|].
  destruct (instr_is_syscall i) eqn:Hsys; cbn [orb]; [done|].
  destruct (instr_is_interrupt i) eqn:Hint; [done|].
  destruct (TESTANY EFLAGS_READ_6 (instr_get_arith_flags i)) eqn:Hread; [done|].
  destruct (TESTALL EFLAGS_WRITE_6 (instr_get_arith_flags i)) eqn:Hwrite.
  { intros _. exists [], i, rest.
    split; [done|]. split; [done|]. split; [done|]. split; [constructor|].
    by intros n j next Hn. }
  assert (Hstep : drx_aflags_are_dead rest = true ->
                  (instr_is_cti i = true ->
                   forall next, head rest = Some next -> elided i next) ->
                  exists pre w post,
                    i :: rest = pre ++ w :: post /\
                    TESTALL EFLAGS_WRITE_6 (instr_get_arith_flags w) = true /\
                    reads_no_flag w /\ Forall reads_no_flag pre /\
                    (forall n j next,
                       pre !! n = Some j -> (pre ++ [w]) !! S n = Some next ->
                       instr_is_cti j = true -> elided j next)).
  { intros Hdead Hel.
    destruct (IH Hdead) as (pre & w & post & -> & Hw & Hnr & Hpre & Hbr).
    exists (i :: pre), w, post.
    split; [done|]. split; [done|]. split; [done|]. split.
    - by constructor.
    - intros [|n] j next Hj Hnext Hcti; cbn in Hj, Hnext.
      + injection Hj as <-. apply (Hel Hcti).
        destruct pre; cbn in *; congruence.
      + by apply (Hbr n). }
  destruct (instr_is_cti i) eqn:Hcti; [|intros Hd; by apply Hstep].
  destruct (instr_ok_to_mangle i) eqn:Hok; cbn [andb]; [|done].
  destruct (instr_is_ubr i || instr_is_call_direct i) eqn:Hdir; [|done].
  destruct rest as [|next rest']; [done|].
  destruct (instr_ok_to_mangle next) eqn:Hokn; cbn [andb]; [|done].
  destruct (opnd_is_pc (instr_get_target i)) eqn:Hpc; cbn [andb]; [|done].
  destruct (Z.eqb_spec (opnd_get_pc (instr_get_target i)) (instr_get_app_pc next))
    as [Htgt|]; [|done].
  intros Hd. apply Hstep; [done|].
  intros _ next' [= <-]. unfold elided. apply orb_true_iff in Hdir. done.
Qed.

Lemma drx_aflags_are_dead_straight (pre : list instr_t) (w : instr_t)
    (post : list instr_t) :
  Forall (fun i => reads_no_flag i /\ instr_is_cti i = false) pre ->
  reads_no_flag w ->
  TESTALL EFLAGS_WRITE_6 (instr_get_arith_flags w) = true ->
  drx_aflags_are_dead (pre ++ w :: post) = true.
Proof.
  intros Hpre (Hs & Hi & Hr) Hw.
  induction Hpre as [|i pre [(His & Hii & Hir) Hcti] _ IH]; cbn.
  - by rewrite Hs, Hi, Hr, Hw.
  - rewrite His, Hii, Hir, Hcti. cbn.
    by destruct (TESTALL EFLAGS_WRITE_6 (instr_get_arith_flags i)).
Qed.

End AflagsDead.

(** X12.  [drx_aflags_are_dead] answers true only if some instruction from
    [where] on writes all six arithmetic flags, and neither it nor any
    instruction before it is a system call or an interrupt or reads one of
    the six flags, and every branch before it is a direct jump or call, of the
    application, to the application instruction that follows it.  In
    particular the answer is false for an empty list (no [where]).  It answers
    true whenever such a write follows instructions that are no branches and
    read no flag, whatever comes after the write. *)
Theorem X12_flags_are_dead_only_before_a_full_write {instr_t opnd_t : Type}
    `{API : instr_api instr_t opnd_t} (l : list instr_t) :
  (drx_aflags_are_dead l = true ->
   exists pre w post,
     l = pre ++ w :: post /\
     TESTALL EFLAGS_WRITE_6 (instr_get_arith_flags w) = true /\
     reads_no_flag w /\
     Forall reads_no_flag pre /\
     (forall n i next,
        pre !! n = Some i -> (pre ++ [w]) !! S n = Some next ->
        instr_is_cti i = true -> elided i next)) /\
  (forall pre w post,
     l = pre ++ w :: post ->
     Forall (fun i => reads_no_flag i /\ instr_is_cti i = false) pre ->
     reads_no_flag w ->
     TESTALL EFLAGS_WRITE_6 (instr_get_arith_flags w) = true ->
     drx_aflags_are_dead l = true).
Proof.
  split.
  - apply drx_aflags_are_dead_sound.
  - intros pre w post -> Hpre Hw Hfull. by apply drx_aflags_are_dead_straight.
Qed.

Lemma X12_flags_witness :
  drx_aflags_are_dead (API := demo_api) demo_block = true /\
  exists pre w post,
    demo_block = pre ++ w :: post /\
    TESTALL EFLAGS_WRITE_6 (instr_get_arith_flags w) = true.
Proof.
  destruct (X12_flags_are_dead_only_before_a_full_write (API := demo_api) demo_block)
    as [Hsound Hstraight].
  assert (Hdead : drx_aflags_are_dead (API := demo_api) demo_block = true).
  { apply (Hstraight [demo_app KLoad (OReg 2) (OAbs 0x7000 4) 0x401000]
             (demo_app KCmp (OReg 2) (OInt 0) 0x401004)
             [demo_app KJmp (OPc 0x401100) (OInt 0) 0x401008]);
      [done | by repeat constructor | done | done]. }
  split; [exact Hdead|].
  destruct (Hsound Hdead) as (pre & w & post & Heq & Hw & _).
  by exists pre, w, post.
Defined.

(** ** Merging with the previous restore of the flags *)

Section Merge.
Context {instr_t opnd_t : Type} `{API : instr_api instr_t opnd_t}.
Variable note_base : Z.

Lemma merge_prev_scan_sound (prev passed b mid : list instr_t) :
  merge_prev_scan note_base prev passed = Some (b, mid) ->
  exists B body,
    rev prev = b ++ B :: body /\ mid = B :: body ++ passed /\
    instr_ok_to_mangle B = false /\ instr_is_label B = true /\
    instr_get_note B = NOTE_VAL note_base DRX_NOTE_AFLAGS_RESTORE_BEGIN /\
    Forall restore_body body.
Proof.
  revert passed; induction prev as [|instr prev' IH]; intros passed; cbn; [done|].
  destruct (instr_ok_to_mangle instr) eqn:Hok; [done|].
  destruct (instr_is_label instr) eqn:Hlab.
  - destruct (Z.eqb_spec (instr_get_note instr)
                (NOTE_VAL note_base DRX_NOTE_AFLAGS_RESTORE_BEGIN)) as [Hn|]; [|done].
    intros [= <- <-]. exists instr, []. by repeat split.
  - intros Hscan. destruct (IH _ Hscan) as (B & body & Hrev & -> & HB1 & HB2 & HB3 & Hb).
    exists B, (body ++ [instr]). rewrite Hrev.
    split; [by rewrite <- app_assoc|]. split; [by rewrite <- app_assoc|].
    do 3 (split; [done|]). apply Forall_app. split; [done|]. by repeat constructor.
Qed.

Lemma merge_prev_scan_complete (b body passed : list instr_t) (B : instr_t) :
  instr_ok_to_mangle B = false -> instr_is_label B = true ->
  instr_get_note B = NOTE_VAL note_base DRX_NOTE_AFLAGS_RESTORE_BEGIN ->
  Forall restore_body body ->
  merge_prev_scan note_base (rev (b ++ B :: body)) passed = Some (b, B :: body ++ passed).
Proof.
  intros HB1 HB2 HB3. revert passed.
  induction body as [|x body IH] using rev_ind; intros passed Hbody.
  - rewrite rev_app_distr. cbn. rewrite HB1, HB2, HB3, Z.eqb_refl.
    by rewrite rev_involutive.
  - apply Forall_app in Hbody as [Hbody Hx].
    apply Forall_inv in Hx as [Hx1 Hx2].
    replace (b ++ B :: body ++ [x]) with ((b ++ B :: body) ++ [x])
      by (by rewrite <- app_assoc).
    rewrite rev_app_distr. cbn. rewrite Hx1, Hx2.
    rewrite IH by done. by rewrite <- app_assoc.
Qed.

Lemma merge_prev_sound (before after b mid : list instr_t) :
  merge_prev_drx_aflags_switch note_base before after = Some (b, mid) ->
  after <> [] /\ before = b ++ mid /\ is_restore note_base mid.
Proof.
  unfold merge_prev_drx_aflags_switch.
  destruct after as [|a after']; [done|].
  destruct (rev before) as [|Eend prev] eqn:Hrev; [done|].
  destruct (instr_is_label Eend) eqn:Hlab; cbn [negb]; [|done].
  destruct (Z.eqb_spec (instr_get_note Eend)
              (NOTE_VAL note_base DRX_NOTE_AFLAGS_RESTORE_END)) as [Hn|]; [|done].
  cbn [negb]. intros Hscan.
  destruct (merge_prev_scan_sound _ _ _ _ Hscan)
    as (B & body & Hprev & -> & HB1 & HB2 & HB3 & Hbody).
  split; [done|]. split.
  - rewrite <- (rev_involutive before), Hrev. cbn. rewrite Hprev.
    by rewrite <- app_assoc.
  - by exists B, body, Eend.
Qed.

Lemma merge_prev_complete (b mid after : list instr_t) :
  after <> [] -> is_restore note_base mid ->
  merge_prev_drx_aflags_switch note_base (b ++ mid) after = Some (b, mid).
Proof.
  intros Hafter (B & body & Eend & -> & HB1 & HB2 & HB3 & Hbody & HE1 & HE2).
  unfold merge_prev_drx_aflags_switch.
  destruct after as [|a after']; [done|].
  replace (b ++ B :: body ++ [Eend]) with ((b ++ B :: body) ++ [Eend])
    by (by rewrite <- app_assoc).
  rewrite rev_app_distr. cbn [rev app].
  rewrite HE1, HE2, Z.eqb_refl. cbn [negb].
  by apply merge_prev_scan_complete.
Qed.

End Merge.

(** X13.  [merge_prev_drx_aflags_switch] finds something exactly when [where]
    is an instruction and what is right before it is a restore of the flags:
    a meta label with the BEGIN note, then only instructions that are neither
    labels nor of the application, then a label with the END note.  What it
    returns is then that BEGIN label, so the list is split right before the
    restore.  With no [where], or with an application instruction or another
    label in between, it returns NULL. *)
Theorem X13_merge_finds_exactly_an_intact_restore {instr_t opnd_t : Type}
    `{API : instr_api instr_t opnd_t} (note_base : Z)
    (before after b mid : list instr_t) :
  merge_prev_drx_aflags_switch note_base before after = Some (b, mid) <->
  after <> [] /\ before = b ++ mid /\ is_restore note_base mid.
Proof.
  split.
  - apply merge_prev_sound.
  - intros (Hafter & -> & Hmid). by apply merge_prev_complete.
Qed.

(** ** Inserting a counter update *)

Section CounterUpdate.
Context {instr_t opnd_t : Type} `{API : instr_api instr_t opnd_t}.
Variable note_base : Z.

Lemma drx_save_arith_flags_app (before : list instr_t) save_eax save_oflag slot reg :
  drx_save_arith_flags before save_eax save_oflag slot reg =
  before ++ drx_save_arith_flags [] save_eax save_oflag slot reg.
Proof.
  unfold drx_save_arith_flags, MINSERT.
  destruct save_eax, save_oflag, (negb (reg =? DR_REG_NULL)); cbn;
    by rewrite <- ?app_assoc.
Qed.

Lemma drx_restore_arith_flags_app (before : list instr_t) restore_eax restore_oflag
    slot reg :
  drx_restore_arith_flags note_base before restore_eax restore_oflag slot reg =
  before ++ drx_restore_arith_flags note_base [] restore_eax restore_oflag slot reg.
Proof.
  unfold drx_restore_arith_flags, ilist_insert_note_label, MINSERT.
  destruct restore_eax, restore_oflag, (negb (reg =? DR_REG_NULL)); cbn;
    by rewrite <- ?app_assoc.
Qed.

Lemma counter_update_refused_dec drcontext slot addr flags :
  (drcontext =? 0)
  || negb ((SPILL_SLOT_1 <=? slot) && (slot <=? SPILL_SLOT_MAX))
  || (TEST DRX_COUNTER_LOCK flags
      && ((negb X64 && TEST DRX_COUNTER_64BIT flags)
          || counter_crosses_cache_line addr
               (if TEST DRX_COUNTER_64BIT flags then 8 else 4))) = true <->
  counter_update_refused drcontext slot addr flags.
Proof.
  unfold counter_update_refused.
  rewrite !orb_true_iff, negb_true_iff, andb_false_iff, !andb_true_iff,
    orb_true_iff, andb_true_iff, negb_true_iff, Z.eqb_eq, !Z.leb_gt.
  tauto.
Qed.

(** What a call that is not refused leaves before [where]. *)
Lemma drx_insert_counter_update_accepted drcontext (before after : list instr_t)
    slot addr value flags :
  ~ counter_update_refused drcontext slot addr flags ->
  drx_insert_counter_update note_base drcontext before after slot addr value flags =
  (true,
   if drx_aflags_are_dead after then before ++ counter_instrs addr value flags
   else
     match merge_prev_drx_aflags_switch note_base before after with
     | Some (b, mid) => b ++ counter_instrs addr value flags ++ mid
     | None =>
         before ++ drx_save_arith_flags [] true true slot DR_REG_NULL ++
         counter_instrs addr value flags ++
         drx_restore_arith_flags note_base [] true true slot DR_REG_NULL
     end).
Proof.
  intros Hacc. rewrite <- counter_update_refused_dec in Hacc.
  apply not_true_is_false in Hacc.
  apply orb_false_iff in Hacc as [Hacc Hlock].
  apply orb_false_iff in Hacc as [Hdc Hslot].
  unfold drx_insert_counter_update. rewrite Hdc, Hslot, Hlock.
  unfold counter_instrs, MINSERT.
  destruct (drx_aflags_are_dead after); cbn [negb].
  - destruct (negb X64 && TEST DRX_COUNTER_64BIT flags); cbn;
      by rewrite <- ?app_assoc, ?app_nil_r.
  - destruct (merge_prev_drx_aflags_switch note_base before after) as [[b mid]|].
    + destruct (negb X64 && TEST DRX_COUNTER_64BIT flags); cbn;
        by rewrite <- ?app_assoc.
    + rewrite drx_restore_arith_flags_app.
      rewrite (drx_save_arith_flags_app before).
      destruct (negb X64 && TEST DRX_COUNTER_64BIT flags); cbn;
        by rewrite <- ?app_assoc, ?app_nil_r.
Qed.

Lemma drx_insert_counter_update_refused drcontext (before after : list instr_t)
    slot addr value flags :
  counter_update_refused drcontext slot addr flags ->
  drx_insert_counter_update note_base drcontext before after slot addr value flags =
  (false, before).
Proof.
  intros Href. rewrite <- counter_update_refused_dec in Href.
  unfold drx_insert_counter_update.
  destruct (drcontext =? 0); [done|].
  destruct (negb ((SPILL_SLOT_1 <=? slot) && (slot <=? SPILL_SLOT_MAX))); [done|].
  cbn [orb] in Href. by rewrite Href.
Qed.

End CounterUpdate.

(** X15.  [drx_insert_counter_update] returns false exactly when the
    drcontext is NULL, or the spill slot is outside SPILL_SLOT_1 ..
    SPILL_SLOT_MAX, or a locked update is asked for a 64-bit counter where
    [X64] is not defined or for a counter that crosses a cache line; and then
    the instruction list is as it was, nothing is inserted. *)
Theorem X15_counter_update_is_refused_without_inserting {instr_t opnd_t : Type}
    `{API : instr_api instr_t opnd_t} (note_base drcontext : Z)
    (before after : list instr_t) (slot addr value flags : Z) :
  let r := drx_insert_counter_update note_base drcontext before after slot addr value
             flags in
  (fst r = false <-> counter_update_refused drcontext slot addr flags) /\
  (fst r = false -> snd r = before).
Proof.
  cbn zeta.
  destruct ((drcontext =? 0)
            || negb ((SPILL_SLOT_1 <=? slot) && (slot <=? SPILL_SLOT_MAX))
            || (TEST DRX_COUNTER_LOCK flags
                && ((negb X64 && TEST DRX_COUNTER_64BIT flags)
                    || counter_crosses_cache_line addr
                         (if TEST DRX_COUNTER_64BIT flags then 8 else 4))))
    eqn:Hc.
  - apply counter_update_refused_dec in Hc.
    by rewrite (drx_insert_counter_update_refused note_base _ _ _ _ _ _ _ Hc).
  - assert (Hacc : ~ counter_update_refused drcontext slot addr flags)
      by (rewrite <- counter_update_refused_dec; congruence).
    rewrite (drx_insert_counter_update_accepted note_base _ _ _ _ _ _ _ Hacc).
    cbn [fst snd]. split; [|done]. split; [done | by intros ?].
Qed.

(** A locked 64-bit counter where [X64] is not defined. *)
Lemma X15_counter_update_witness :
  drx_insert_counter_update (API := demo_api) demo_note_base 1 [] demo_block 0 0x7000 1
    0x11 = (false, []).
Proof.
  pose proof (X15_counter_update_is_refused_without_inserting (API := demo_api)
                demo_note_base 1 [] demo_block 0 0x7000 1 0x11) as [Hiff Hsame].
  cbn zeta in Hiff, Hsame.
  assert (Hfalse : fst (drx_insert_counter_update (API := demo_api) demo_note_base 1 []
                          demo_block 0 0x7000 1 0x11) = false).
  { apply Hiff. right. right. right. split; [done|]. left. by split. }
  specialize (Hsame Hfalse).
  destruct (drx_insert_counter_update (API := demo_api) demo_note_base 1 []
              demo_block 0 0x7000 1 0x11) as [ok l].
  cbn in *. by subst.
Defined.

(** ** With the promises of the instruction API *)

Lemma demo_laws : instr_api_laws demo_api.
Proof.
  split; intros; try done;
    try (match goal with i : demo_instr |- _ => destruct i as [[] ? ? ? ? ? ?] end;
         done);
    by repeat constructor.
Qed.

Section WithLaws.
Context {instr_t opnd_t : Type} `{API : instr_api instr_t opnd_t}.
Context (Laws : instr_api_laws API).
Variable note_base : Z.

Lemma meta_restore_body (i : instr_t) :
  instr_is_label i = false -> restore_body (instr_set_meta i).
Proof.
  intros Hl. split; [apply meta_not_ok_to_mangle | by rewrite meta_is_label].
Qed.

Lemma drx_restore_arith_flags_is_restore restore_eax restore_oflag slot reg :
  is_restore note_base
    (drx_restore_arith_flags note_base [] restore_eax restore_oflag slot reg).
Proof.
  unfold drx_restore_arith_flags, ilist_insert_note_label, MINSERT.
  set (B := instr_set_meta (instr_set_note INSTR_CREATE_label
                              (NOTE_VAL note_base DRX_NOTE_AFLAGS_RESTORE_BEGIN))).
  set (Eend := instr_set_meta (instr_set_note INSTR_CREATE_label
                                 (NOTE_VAL note_base DRX_NOTE_AFLAGS_RESTORE_END))).
  set (sahf := instr_set_meta (instr_set_note INSTR_CREATE_sahf
                                 (NOTE_VAL note_base DRX_NOTE_AFLAGS_RESTORE_SAHF))).
  set (add := instr_set_meta (INSTR_CREATE_add (opnd_create_reg DR_REG_AL)
                                (OPND_CREATE_INT8 127))).
  set (mov := instr_set_meta (INSTR_CREATE_mov_st (opnd_create_reg DR_REG_XAX)
                                (opnd_create_reg reg))).
  assert (HB : instr_ok_to_mangle B = false /\ instr_is_label B = true /\
               instr_get_note B = NOTE_VAL note_base DRX_NOTE_AFLAGS_RESTORE_BEGIN).
  { subst B. rewrite meta_not_ok_to_mangle, meta_is_label, meta_get_note,
      set_note_is_label, get_set_note, label_is_label. done. }
  assert (HE : instr_is_label Eend = true /\
               instr_get_note Eend = NOTE_VAL note_base DRX_NOTE_AFLAGS_RESTORE_END).
  { subst Eend. rewrite meta_is_label, meta_get_note, set_note_is_label,
      get_set_note, label_is_label. done. }
  assert (Hsahf : restore_body sahf).
  { apply meta_restore_body. by rewrite set_note_is_label, sahf_no_label. }
  assert (Hadd : restore_body add) by (apply meta_restore_body, add_no_label).
  assert (Hmov : restore_body mov) by (apply meta_restore_body, mov_st_no_label).
  pose proof (restore_reg_meta (instr_api_laws := Laws) DR_REG_XAX slot) as Hreg.
  destruct HB as (HB1 & HB2 & HB3), HE as (HE1 & HE2).
  exists B,
    ((if restore_oflag then [add] else []) ++ [sahf] ++
     (if restore_eax
      then if negb (reg =? DR_REG_NULL) then [mov] else dr_restore_reg DR_REG_XAX slot
      else [])),
    Eend.
  split.
  - destruct restore_eax, restore_oflag, (negb (reg =? DR_REG_NULL)); cbn;
      by rewrite <- ?app_assoc.
  - do 3 (split; [done|]). split; [|done].
    apply Forall_app_2;
      [destruct restore_oflag; [apply Forall_cons_2; [done|]|]; apply Forall_nil_2|].
    apply Forall_cons_2; [done|].
    destruct restore_eax; [|apply Forall_nil_2].
    destruct (negb (reg =? DR_REG_NULL)); [|exact Hreg].
    apply Forall_cons_2; [done | apply Forall_nil_2].
Qed.

Lemma drx_save_arith_flags_meta save_eax save_oflag slot reg :
  Forall (fun i => instr_ok_to_mangle i = false)
    (drx_save_arith_flags [] save_eax save_oflag slot reg).
Proof.
  unfold drx_save_arith_flags, MINSERT.
  pose proof (save_reg_meta (instr_api_laws := Laws) DR_REG_XAX slot) as Hreg.
  assert (Hreg' : Forall (fun i => instr_ok_to_mangle i = false)
                    (dr_save_reg DR_REG_XAX slot))
    by (eapply Forall_impl; [exact Hreg | by intros i [? _]]).
  destruct save_eax, save_oflag, (negb (reg =? DR_REG_NULL)); cbn;
    repeat first [ exact Hreg'
                 | apply Forall_nil_2
                 | apply Forall_cons_2; [apply meta_not_ok_to_mangle|]
                 | apply Forall_app_2 ].
Qed.

Lemma counter_instrs_meta addr value flags :
  Forall (fun i => instr_ok_to_mangle i = false) (counter_instrs addr value flags).
Proof.
  unfold counter_instrs.
  destruct (negb X64 && TEST DRX_COUNTER_64BIT flags); cbn;
    repeat first [ apply Forall_nil_2
                 | apply Forall_cons_2; [apply meta_not_ok_to_mangle|] ].
Qed.

End WithLaws.

(** X14.  What [drx_restore_arith_flags] inserts before an instruction
    [where] is found by [merge_prev_drx_aflags_switch] at that [where],
    whatever precedes it and whichever of the options of the restore are
    chosen: the result is the BEGIN label of that restore. *)
Theorem X14_inserted_restore_is_found_by_merge {instr_t opnd_t : Type}
    `{API : instr_api instr_t opnd_t} (Laws : instr_api_laws API) (note_base : Z)
    (before after : list instr_t) (restore_eax restore_oflag : bool) (slot reg : Z) :
  after <> [] ->
  merge_prev_drx_aflags_switch note_base
    (drx_restore_arith_flags note_base before restore_eax restore_oflag slot reg) after =
  Some (before, drx_restore_arith_flags note_base [] restore_eax restore_oflag slot reg).
Proof.
  intros Hafter. rewrite drx_restore_arith_flags_app.
  apply merge_prev_complete; [done|].
  by apply drx_restore_arith_flags_is_restore.
Qed.

Lemma X14_round_trip_witness :
  merge_prev_drx_aflags_switch (API := demo_api) demo_note_base
    (drx_restore_arith_flags demo_note_base [] true true 0 0) demo_block =
  Some ([], drx_restore_arith_flags demo_note_base [] true true 0 0).
Proof.
  apply (X14_inserted_restore_is_found_by_merge demo_laws demo_note_base []
           demo_block true true 0 0).
  done.
Defined.

Section WithLawsUpdate.
Context {instr_t opnd_t : Type} `{API : instr_api instr_t opnd_t}.
Context (Laws : instr_api_laws API).
Variable note_base : Z.

Lemma drx_restore_arith_flags_meta restore_eax restore_oflag slot reg :
  Forall (fun i => instr_ok_to_mangle i = false)
    (drx_restore_arith_flags note_base [] restore_eax restore_oflag slot reg).
Proof.
  unfold drx_restore_arith_flags, ilist_insert_note_label, MINSERT.
  pose proof (restore_reg_meta (instr_api_laws := Laws) DR_REG_XAX slot) as Hreg.
  assert (Hreg' : Forall (fun i => instr_ok_to_mangle i = false)
                    (dr_restore_reg DR_REG_XAX slot))
    by (eapply Forall_impl; [exact Hreg | by intros i [? _]]).
  destruct restore_eax, restore_oflag, (negb (reg =? DR_REG_NULL)); cbn;
    repeat first [ exact Hreg'
                 | apply Forall_nil_2
                 | apply Forall_cons_2; [apply meta_not_ok_to_mangle|]
                 | apply Forall_app_2 ].
Qed.

End WithLawsUpdate.

(** X16.  A counter update that is not refused only inserts: the
    instructions that were before [where] are all still there, in their
    order, and what is inserted between them is meta (no instruction of the
    application is added, none is removed or moved) and contains the counter
    update.  When the flags are dead at [where], the counter update alone is
    inserted, right before [where], with no save or restore of the flags. *)
Theorem X16_counter_update_only_inserts_meta_instructions {instr_t opnd_t : Type}
    `{API : instr_api instr_t opnd_t} (Laws : instr_api_laws API)
    (note_base drcontext : Z) (before after : list instr_t)
    (slot addr value flags : Z) :
  let r := drx_insert_counter_update note_base drcontext before after slot addr value
             flags in
  fst r = true ->
  (exists b ins mid,
     before = b ++ mid /\ snd r = b ++ ins ++ mid /\
     Forall (fun i => instr_ok_to_mangle i = false) ins /\
     exists p q, ins = p ++ counter_instrs addr value flags ++ q) /\
  (drx_aflags_are_dead after = true ->
   snd r = before ++ counter_instrs addr value flags).
Proof.
  cbn zeta. intros Hok.
  assert (Hacc : ~ counter_update_refused drcontext slot addr flags).
  { intros Href.
    by rewrite (drx_insert_counter_update_refused note_base _ before after _ _ value _
                  Href) in Hok. }
  rewrite (drx_insert_counter_update_accepted note_base _ _ _ _ _ _ _ Hacc).
  cbn [fst snd]. clear Hok.
  pose proof (counter_instrs_meta Laws addr value flags) as Hc.
  destruct (drx_aflags_are_dead after); [|split; [|done]].
  - split; [|done].
    exists before, (counter_instrs addr value flags), [].
    rewrite !app_nil_r. do 3 (split; [done|]).
    exists [], []. by rewrite app_nil_r.
  - destruct (merge_prev_drx_aflags_switch note_base before after) as [[b mid]|]
      eqn:Hmerge.
    + apply merge_prev_sound in Hmerge as (_ & -> & _).
      exists b, (counter_instrs addr value flags), mid.
      do 3 (split; [done|]). exists [], []. by rewrite app_nil_r.
    + exists before,
        (drx_save_arith_flags [] true true slot DR_REG_NULL ++
         counter_instrs addr value flags ++
         drx_restore_arith_flags note_base [] true true slot DR_REG_NULL), [].
      rewrite !app_nil_r. do 2 (split; [done|]). split.
      * apply Forall_app_2; [by apply drx_save_arith_flags_meta|].
        apply Forall_app_2; [done | by apply drx_restore_arith_flags_meta].
      * by eexists _, _.
Qed.

Lemma X16_counter_update_witness :
  snd (drx_insert_counter_update (API := demo_api) demo_note_base 1 [] demo_block 0
         0x7000 1 0) =
  [] ++ counter_instrs (API := demo_api) 0x7000 1 0.
Proof.
  apply (X16_counter_update_only_inserts_meta_instructions demo_laws demo_note_base 1
           [] demo_block 0 0x7000 1 0); done.
Defined.

(** X17.  Two counter updates in a row at the same [where], with the flags
    live there: the second one finds the restore that is then right before
    [where] and inserts nothing but its counter update, right before that
    restore.  So the flags are not saved and restored a second time. *)
Theorem X17_second_counter_update_shares_the_flags_switch {instr_t opnd_t : Type}
    `{API : instr_api instr_t opnd_t} (Laws : instr_api_laws API)
    (note_base drcontext : Z) (before after : list instr_t)
    (slot1 addr1 value1 flags1 slot2 addr2 value2 flags2 : Z) :
  after <> [] ->
  drx_aflags_are_dead after = false ->
  ~ counter_update_refused drcontext slot1 addr1 flags1 ->
  ~ counter_update_refused drcontext slot2 addr2 flags2 ->
  let once := snd (drx_insert_counter_update note_base drcontext before after slot1
                     addr1 value1 flags1) in
  let twice := snd (drx_insert_counter_update note_base drcontext once after slot2
                      addr2 value2 flags2) in
  exists head restore,
    is_restore note_base restore /\
    once = head ++ counter_instrs addr1 value1 flags1 ++ restore /\
    twice = head ++ counter_instrs addr1 value1 flags1 ++
            counter_instrs addr2 value2 flags2 ++ restore.
Proof.
  intros Hafter Hlive Hacc1 Hacc2. cbn zeta.
  rewrite (drx_insert_counter_update_accepted note_base _ before after _ _ value1 _
             Hacc1).
  rewrite Hlive. cbn [snd].
  assert (Hsecond : forall head restore,
    is_restore note_base restore ->
    snd (drx_insert_counter_update note_base drcontext
           (head ++ counter_instrs addr1 value1 flags1 ++ restore) after slot2 addr2
           value2 flags2) =
    head ++ counter_instrs addr1 value1 flags1 ++
    counter_instrs addr2 value2 flags2 ++ restore).
  { intros head restore Hres.
    rewrite (drx_insert_counter_update_accepted note_base _ _ after _ _ value2 _ Hacc2).
    rewrite Hlive. cbn [snd]. rewrite app_assoc.
    rewrite (merge_prev_complete note_base _ restore after Hafter Hres).
    by rewrite <- !app_assoc. }
  destruct (merge_prev_drx_aflags_switch note_base before after) as [[b mid]|]
    eqn:Hmerge.
  - apply merge_prev_sound in Hmerge as (_ & _ & Hres).
    exists b, mid. split; [done|]. split; [done|]. by apply Hsecond.
  - pose proof (drx_restore_arith_flags_is_restore Laws note_base true true slot1
                  DR_REG_NULL) as Hres.
    exists (before ++ drx_save_arith_flags [] true true slot1 DR_REG_NULL),
      (drx_restore_arith_flags note_base [] true true slot1 DR_REG_NULL).
    split; [done|]. split; [by rewrite <- !app_assoc|].
    rewrite <- (Hsecond _ _ Hres). by rewrite <- !app_assoc.
Qed.

Lemma X17_second_update_witness :
  let once := snd (drx_insert_counter_update (API := demo_api) demo_note_base 1 []
                     demo_live_block 0 0x7000 1 0) in
  let twice := snd (drx_insert_counter_update (API := demo_api) demo_note_base 1 once
                      demo_live_block 0 0x7008 1 0) in
  exists head restore,
    once = head ++ counter_instrs (API := demo_api) 0x7000 1 0 ++ restore /\
    twice = head ++ counter_instrs (API := demo_api) 0x7000 1 0 ++
            counter_instrs (API := demo_api) 0x7008 1 0 ++ restore.
Proof.
  destruct (X17_second_counter_update_shares_the_flags_switch demo_laws demo_note_base
              1 [] demo_live_block 0 0x7000 1 0 0 0x7008 1 0)
    as (head & restore & _ & Honce & Htwice).
  - done.
  - done.
  - intros [?|[?|[?|[? _]]]]; done.
  - intros [?|[?|[?|[? _]]]]; done.
  - by exists head, restore.
Defined.

(** * Properties of LOGGING *)

Lemma open_unique_loop_spec (L : log_api) (dir prefix suffix : string)
    (extra_flags : Z) (has_result : bool) (result_len : Z) (n : nat) (i : Z) :
  0 <= size_t_bits L ->
  let r := open_unique_loop L dir prefix suffix extra_flags has_result result_len n i in
  (fst r = INVALID_FILE L /\ snd r = None /\
   forall j, i <= j < i + Z.of_nat n ->
     try_open L dir prefix suffix extra_flags j = INVALID_FILE L) \/
  (exists k, i <= k < i + Z.of_nat n /\
     fst r = try_open L dir prefix suffix extra_flags k /\
     try_open L dir prefix suffix extra_flags k <> INVALID_FILE L /\
     (forall j, i <= j < k ->
        try_open L dir prefix suffix extra_flags j = INVALID_FILE L) /\
     snd r = if has_result
             then Some (dr_snprintf_result L result_len (candidate L dir prefix suffix k))
             else None).
Proof.
  intros Hbits. revert i; induction n as [|n IH]; intros i; cbn zeta.
  - left. cbn [open_unique_loop fst snd].
    split; [done|]. split; [done|]. intros j Hj. lia.
  - cbn [open_unique_loop].
    assert (Hcand : dr_snprintf_unique L dir prefix i suffix =
                    (fst (dr_snprintf_unique L dir prefix i suffix),
                     candidate L dir prefix suffix i)).
    { unfold candidate. by destruct (dr_snprintf_unique L dir prefix i suffix). }
    rewrite Hcand.
    assert (Hlen : (to_size_t L (fst (dr_snprintf_unique L dir prefix i suffix)) <? 0)
                   = false).
    { apply Z.ltb_ge. unfold to_size_t. apply Z.mod_pos_bound.
      apply Z.pow_pos_nonneg; lia. }
    rewrite Hlen. fold (try_open L dir prefix suffix extra_flags i).
    destruct (Z.eqb_spec (try_open L dir prefix suffix extra_flags i) (INVALID_FILE L))
      as [Hinv|Hok]; cbn [negb].
    + destruct (IH (i + 1)) as [(Hf & Hr & Hall) | (k & Hk & Hf & Hne & Hall & Hr)].
      * left. split; [done|]. split; [done|]. intros j Hj.
        destruct (Z.eq_dec j i) as [->|]; [done|]. apply Hall. lia.
      * right. exists k. split; [lia|]. split; [done|]. split; [done|].
        split; [|done]. intros j Hj.
        destruct (Z.eq_dec j i) as [->|]; [done|]. apply Hall. lia.
    + right. exists i. cbn [fst snd]. split; [lia|]. split; [done|]. split; [done|].
      split; [|done]. intros j Hj. lia.
Qed.

(** X18.  [drx_open_unique_file] tries the names with the numbers 0, 1, ...
    in this order and returns the file of the first one that [dr_open_file]
    opens, having been refused for every number before it; the name of that
    file is what is copied to [result], when [result] is given.  It returns
    [INVALID_FILE], and writes no result, exactly when all the 10000 names
    are refused.  The test of [len < 0] never ends the search, [len] being a
    [size_t]. *)
Theorem X18_unique_file_is_the_first_that_opens (L : log_api)
    (dir prefix suffix : string) (extra_flags : Z) (has_result : bool)
    (result_len : Z) :
  0 <= size_t_bits L ->
  let r := drx_open_unique_file L dir prefix suffix extra_flags has_result result_len in
  (fst r = INVALID_FILE L /\ snd r = None /\
   forall j, 0 <= j < 10000 -> try_open L dir prefix suffix extra_flags j = INVALID_FILE L)
  \/
  (exists k, 0 <= k < 10000 /\
     fst r = try_open L dir prefix suffix extra_flags k /\
     fst r <> INVALID_FILE L /\
     (forall j, 0 <= j < k ->
        try_open L dir prefix suffix extra_flags j = INVALID_FILE L) /\
     snd r = if has_result
             then Some (dr_snprintf_result L result_len (candidate L dir prefix suffix k))
             else None).
Proof.
  intros Hbits. cbn zeta. unfold drx_open_unique_file.
  destruct (open_unique_loop_spec L dir prefix suffix extra_flags has_result result_len
              (Z.to_nat 10000) 0 Hbits)
    as [(Hf & Hr & Hall) | (k & Hk & Hf & Hne & Hall & Hr)];
    rewrite Z2Nat.id in * by lia.
  - left. split; [done|]. split; [done|]. intros j Hj. apply Hall. lia.
  - right. exists k. split; [lia|]. rewrite Hf. split; [done|]. split; [done|].
    split; [|done]. intros j Hj. apply Hall. lia.
Qed.

(** With the names numbered 0000 and 0001 taken, the file numbered 0002 is
    created and its name is reported. *)
Lemma X18_unique_file_witness :
  0 <= size_t_bits (demo_log ["logs/run.0000.txt"; "logs/run.0001.txt"]%string) /\
  drx_open_unique_file (demo_log ["logs/run.0000.txt"; "logs/run.0001.txt"]%string)
    "logs" "run" "txt" 0 true 260 = (3, Some "logs/run.0002.txt"%string) /\
  exists k, 0 <= k < 10000 /\
    snd (drx_open_unique_file (demo_log ["logs/run.0000.txt"; "logs/run.0001.txt"]%string)
           "logs" "run" "txt" 0 true 260)
    = Some (dr_snprintf_result (demo_log ["logs/run.0000.txt"; "logs/run.0001.txt"]%string)
              260
              (candidate (demo_log ["logs/run.0000.txt"; "logs/run.0001.txt"]%string)
                 "logs" "run" "txt" k)) /\
    forall j, 0 <= j < k ->
      try_open (demo_log ["logs/run.0000.txt"; "logs/run.0001.txt"]%string)
        "logs" "run" "txt" 0 j = -1.
Proof.
  assert (Hbits : 0 <= size_t_bits
                         (demo_log ["logs/run.0000.txt"; "logs/run.0001.txt"]%string))
    by (by vm_compute).
  split; [exact Hbits|].
  assert (Hv : drx_open_unique_file
                 (demo_log ["logs/run.0000.txt"; "logs/run.0001.txt"]%string)
                 "logs" "run" "txt" 0 true 260 = (3, Some "logs/run.0002.txt"%string))
    by (by vm_compute).
  split; [exact Hv|].
  destruct (X18_unique_file_is_the_first_that_opens
              (demo_log ["logs/run.0000.txt"; "logs/run.0001.txt"]%string)
              "logs" "run" "txt" 0 true 260 Hbits)
    as [(Hf & _) | (k & Hk & Hf & Hne & Hall & Hr)].
  - rewrite Hv in Hf. by vm_compute in Hf.
  - exists k. split; [exact Hk|]. split; [exact Hr|exact Hall].
Defined.

(** X20.  [drx_open_unique_appid_file], asked for the name, writes it exactly
    when it returns a file.  It returns a file only if the application id
    ([prefix], the application's name or ["<unknown-app>"], [id]) was
    formatted without error and fits in [MAXIMUM_PATH] characters with room
    for the terminator; the file is then the first that opens of the names
    [drx_open_unique_file] builds from that id. *)
Theorem X20_appid_file_needs_an_id_that_fits (L : log_api) (dir : string) (id : Z)
    (prefix suffix : string) (extra_flags : Z) (result_len : Z) :
  0 <= size_t_bits L ->
  let app_name := default "<unknown-app>"%string (dr_get_application_name L) in
  let len := fst (dr_snprintf_appid L prefix app_name id) in
  let appid := snd (dr_snprintf_appid L prefix app_name id) in
  let r := drx_open_unique_appid_file L dir id prefix suffix extra_flags true result_len in
  (fst r <> INVALID_FILE L <-> snd r <> None) /\
  (fst r <> INVALID_FILE L ->
   0 <= len /\ to_size_t L len < MAXIMUM_PATH L /\
   exists k, 0 <= k < 10000 /\
     fst r = try_open L dir appid suffix extra_flags k /\
     (forall j, 0 <= j < k -> try_open L dir appid suffix extra_flags j = INVALID_FILE L) /\
     snd r = Some (dr_snprintf_result L result_len (candidate L dir appid suffix k))).
Proof.
  intros Hbits. cbn zeta. unfold drx_open_unique_appid_file.
  replace (match dr_get_application_name L with
           | Some app_name => app_name
           | None => "<unknown-app>"%string
           end)
    with (default "<unknown-app>"%string (dr_get_application_name L))
    by (by destruct (dr_get_application_name L)).
  destruct (dr_snprintf_appid L prefix _ id) as [len appid]. cbn [fst snd].
  destruct (Z.ltb_spec len 0) as [Hneg|Hpos]; cbn [orb fst snd]; [by split|].
  destruct (Z.leb_spec (MAXIMUM_PATH L) (to_size_t L len)) as [Hlong|Hfits];
    cbn [fst snd]; [by split|].
  unfold drx_open_unique_file.
  destruct (open_unique_loop_spec L dir appid suffix extra_flags true result_len
              (Z.to_nat 10000) 0 Hbits)
    as [(Hf & Hr & Hall) | (k & Hk & Hf & Hne & Hall & Hr)];
    rewrite Z2Nat.id in * by lia.
  - rewrite Hf, Hr. by split.
  - rewrite Hf, Hr. split; [by split|]. intros _. split; [done|]. split; [done|].
    exists k. split; [lia|]. split; [done|]. split; [|done].
    intros j Hj. apply Hall. lia.
Qed.

(** The log of the application [app] with the id 7: its first name is free. *)
Lemma X20_appid_file_witness :
  0 <= size_t_bits (demo_log []) /\
  drx_open_unique_appid_file (demo_log []) "logs" 7 "run" "txt" 0 true 260
  = (3, Some "logs/run.app.00007.0000.txt"%string) /\
  snd (drx_open_unique_appid_file (demo_log []) "logs" 7 "run" "txt" 0 true 260) <> None.
Proof.
  assert (Hbits : 0 <= size_t_bits (demo_log [])) by (by vm_compute).
  split; [exact Hbits|].
  assert (Hv : drx_open_unique_appid_file (demo_log []) "logs" 7 "run" "txt" 0 true 260
               = (3, Some "logs/run.app.00007.0000.txt"%string)) by (by vm_compute).
  split; [exact Hv|].
  destruct (X20_appid_file_needs_an_id_that_fits (demo_log []) "logs" 7 "run" "txt" 0 260
              Hbits) as [[Hwritten _] _].
  apply Hwritten. rewrite Hv. by vm_compute.
Defined.

(** * The handles that teardown sweeps *)

Lemma chains_payloads_NoDup (h : Z -> nat) (l : list (list hashtable_entry_t))
    (off : nat) :
  (forall (i : nat) (chain : list hashtable_entry_t),
     l !! i = Some chain ->
     NoDup (map key chain) /\
     forall e, In e chain -> h (key e) = (off + i)%nat /\ payload e = key e) ->
  NoDup (map payload (concat l)).
Proof.
  revert off; induction l as [|c l IH]; intros off H; cbn [concat].
  - apply NoDup_nil_2.
  - rewrite map_app. apply NoDup_app.
    destruct (H 0%nat c eq_refl) as [Hnd Hc]. split; [|split].
    + replace (map payload c) with (map key c); [done|].
      apply map_ext_in. intros e He. by destruct (Hc e He) as [_ ->].
    + intros x Hx Hx'. rewrite list_elem_of_In in Hx, Hx'.
      apply in_map_iff in Hx as (e & <- & He).
      apply in_map_iff in Hx' as (e' & Heq & He').
      apply in_concat in He' as (chain & Hchain & He').
      rewrite <- list_elem_of_In in Hchain.
      apply list_elem_of_lookup in Hchain as [j Hj].
      destruct (H (S j) chain Hj) as [_ Hc'].
      destruct (Hc e He) as [Hh Hp], (Hc' e' He') as [Hh' Hp'].
      rewrite Hp, Hp' in Heq. rewrite Heq in Hh'. lia.
    + apply (IH (S off)). intros i chain Hi.
      destruct (H (S i) chain Hi) as [Hnd' Hc']. split; [done|].
      intros e He. destruct (Hc' e He) as [Hh Hp]. split; [lia|done].
Qed.

(** X19.  The sweep of [soft_kills_exit] over a job table of the shape that
    the code keeps treats every tracked handle as closed, in the order of the
    chains, and treats no handle twice. *)
Theorem X19_sweep_treats_each_tracked_handle_once {W : Type} (E : dr_env W)
    (exit_code : Z) (s : drx_state W) :
  job_table_ok (job_table s) ->
  sweep_table E (Z.to_nat (HASHTABLE_SIZE (table_bits (job_table s)))) 0 exit_code s
  = close_all_jobs E (tracked_jobs (job_table s)) exit_code s /\
  NoDup (tracked_jobs (job_table s)) /\
  forall h, In h (tracked_jobs (job_table s)) <-> tracked (job_table s) h = true.
Proof.
  intros Hok. pose proof Hok as (_ & Hlen & Hchains). split; [|split].
  - rewrite sweep_table_spec, <- Hlen, chains_of_table. done.
  - unfold tracked_jobs. apply (chains_payloads_NoDup (hash_key (job_table s)) _ 0%nat).
    exact Hchains.
  - intros h. by apply tracked_jobs_tracked.
Qed.

(** With the one job handle 0x50 tracked, it is the one handle swept. *)
Lemma X19_sweep_witness :
  job_table_ok (job_table demo_tracking_state) /\
  tracked_jobs (job_table demo_tracking_state) = [0x50] /\
  NoDup (tracked_jobs (job_table demo_tracking_state)).
Proof.
  split; [exact demo_tracking_state_ok|]. split; [by vm_compute|].
  destruct (X19_sweep_treats_each_tracked_handle_once windows_env 3 demo_tracking_state
              demo_tracking_state_ok) as (_ & Hnd & _).
  exact Hnd.
Defined.
